(** * vk_api/audio.py: a shallow embedding and its properties

    The module scrapes audio tracks from undocumented web endpoints.  Its
    functions are sequences of HTTP requests, look-ups at fixed positions
    of the decoded JSON answers and generators that yield track
    dictionaries.  The embedding below keeps that shape:

    - a decoded JSON answer is a [pyval], the Python object [json.loads]
      builds (floats are left out: the fields the module reads are
      integers, strings, lists and dictionaries);
    - a Python exception is a constructor of [exn], a function that can
      raise returns a [result];
    - a Python string is a [string], the bytes of its UTF-8 encoding; what
      Python does by character (indexing, iteration, [len], the [.] of a
      regular expression) goes by code point, see [code_points];
    - the HTTP session is a script of answers consumed in order, and a
      generator is run to exhaustion in a monad that records, in one trace,
      every request issued and every track yielded. *)

From Stdlib Require Import ZArith List String Ascii Bool Arith Lia.
From Stdlib Require Import QArith Lqa.
From Stdlib Require DecimalString.
Import ListNotations.

Set Warnings "-register-all".
Local Close Scope Q_scope.
Local Open Scope string_scope.
Local Open Scope list_scope.

(* ================================================================== *)
(** * Part I: definitions *)
(* ================================================================== *)

(** ** Python values and exceptions *)

Inductive pyval : Type :=
| PNone : pyval
| PBool (b : bool) : pyval
| PInt (z : Z) : pyval
| PStr (s : string) : pyval
| PList (l : list pyval) : pyval
| PDict (d : list (string * pyval)) : pyval.

Inductive exn : Type :=
| KeyError
| IndexError
| TypeError
| AttributeError
| ValueError
| JSONDecodeError
| StopIteration
| AccessDenied
| RetryAudioRequest
| ExternalError (what : string).

Inductive result (A : Type) : Type :=
| Ok (a : A)
| Err (e : exn).
Arguments Ok {A} a.
Arguments Err {A} e.

Definition rbind {A B : Type} (r : result A) (k : A -> result B) : result B :=
  match r with
  | Ok a => k a
  | Err e => Err e
  end.

Declare Scope result_scope.
Delimit Scope result_scope with result.
Notation "'let?' x ':=' r 'in' k" := (rbind r (fun x => k))
  (at level 10, x name, r at level 100, k at level 200) : result_scope.

(** The body of an answer: JSON text (after the removal of ['<!--'], which
    the module does before decoding), given by the value it decodes to, or
    any other text. *)
Inductive response : Type :=
| RespJson (j : pyval)
| RespText (s : string).

(** An element [<div class="audio_item ...">] of a page: its classes and
    what [json.loads(audio['data-audio'])] gives. *)
Record audio_item : Type := {
  item_class : list string;
  item_data_audio : result pyval
}.

(** What the embedding takes from the libraries the module calls and from
    the sibling module [audio_url_decoder], which is not part of the
    sources at hand. *)
Class PyRuntime : Type := {
  (** [', '.join(repr(x) for x in l)], the inside of [str] of a list *)
  repr_items : list pyval -> string;
  (** the same for the [key: value] pairs of a dictionary *)
  repr_pairs : list (string * pyval) -> string;
  (** [decode_audio_url(link, user_id)] *)
  decode_audio_url : pyval -> pyval -> result pyval;
  (** [BeautifulSoup(markup, 'html.parser').text] *)
  soup_text : pyval -> result pyval;
  (** [s.strip()] on a string *)
  str_strip : string -> string;
  (** [json.loads(scrap_json(response.text))]: the JSON object a page
      passes to [new AudioPage(...)] *)
  audio_page_json : response -> result pyval;
  (** the element [soup.find] gets for the filter [{attr: value}], [None]
      when the page has none, else its [root_el.find_all('div', {'class': 'audio_item'})]
      once the playlist snippets are taken out of the page *)
  soup_audio_items : string -> string -> response -> option (list audio_item)
}.

(** ** Operations of the Python data model *)

(** [bool(v)] *)
Definition truthy (v : pyval) : bool :=
  match v with
  | PNone => false
  | PBool b => b
  | PInt z => negb (z =? 0)%Z
  | PStr s => negb (String.eqb s "")
  | PList l => match l with [] => false | _ :: _ => true end
  | PDict d => match d with [] => false | _ :: _ => true end
  end.

Definition string_of_Z (z : Z) : string :=
  DecimalString.NilZero.string_of_int (Z.to_int z).

(** [str(v)] *)
Definition py_str `{PyRuntime} (v : pyval) : string :=
  match v with
  | PNone => "None"
  | PBool true => "True"
  | PBool false => "False"
  | PInt z => string_of_Z z
  | PStr s => s
  | PList l => "[" ++ repr_items l ++ "]"
  | PDict d => "{" ++ repr_pairs d ++ "}"
  end.

Fixpoint assoc (k : string) (d : list (string * pyval)) : option pyval :=
  match d with
  | [] => None
  | (k', v) :: d' => if String.eqb k k' then Some v else assoc k d'
  end.

(** [v[k]] for a string key [k] *)
Definition getkey (v : pyval) (k : string) : result pyval :=
  match v with
  | PDict d => match assoc k d with Some x => Ok x | None => Err KeyError end
  | _ => Err TypeError
  end.

(** *** Code points

    The characters of a Python string are code points.  In UTF-8 a code
    point is one byte that is not a continuation byte ([10xxxxxx]),
    followed by its continuation bytes: the strings of the answers are
    taken to be well encoded, and each byte with the continuation bytes
    after it counts as one character. *)

Definition is_continuation (c : ascii) : bool :=
  let n := nat_of_ascii c in ((128 <=? n) && (n <? 192))%nat.

(** the continuation bytes [s] starts with, and what follows them *)
Fixpoint span_continuation (s : string) : string * string :=
  match s with
  | EmptyString => ("", "")
  | String c s' =>
      if is_continuation c then
        let '(g, rest) := span_continuation s' in (String c g, rest)
      else ("", s)
  end.

(** the first character of [s] and what follows it *)
Definition next_code_point (s : string) : option (string * string) :=
  match s with
  | EmptyString => None
  | String c s' =>
      let '(g, rest) := span_continuation s' in Some (String c g, rest)
  end.

(** the characters of [s], in order *)
Fixpoint code_points (s : string) : list string :=
  match s with
  | EmptyString => []
  | String c s' =>
      match s' with
      | EmptyString => [String c ""]
      | String d _ =>
          if is_continuation d then
            match code_points s' with
            | g :: gs => String c g :: gs
            | [] => [String c ""]
            end
          else String c "" :: code_points s'
      end
  end.

(** the bytes of [s] that are not continuation bytes *)
Fixpoint lead_bytes (s : string) : nat :=
  match s with
  | EmptyString => 0
  | String c s' => (if is_continuation c then 0 else 1) + lead_bytes s'
  end.

(** [v[i]] for a literal index [i >= 0] *)
Definition getidx (v : pyval) (i : nat) : result pyval :=
  match v with
  | PList l => match nth_error l i with Some x => Ok x | None => Err IndexError end
  | PStr s =>
      match nth_error (code_points s) i with
      | Some c => Ok (PStr c)
      | None => Err IndexError
      end
  | PDict _ => Err KeyError
  | _ => Err TypeError
  end.

Definition chars (s : string) : list pyval := map PStr (code_points s).

(** the elements a [for] loop over [v] visits *)
Definition py_iter (v : pyval) : result (list pyval) :=
  match v with
  | PList l => Ok l
  | PStr s => Ok (chars s)
  | PDict d => Ok (map (fun kv => PStr (fst kv)) d)
  | _ => Err TypeError
  end.

(** [len(v)] *)
Definition py_len (v : pyval) : result nat :=
  match v with
  | PList l => Ok (List.length l)
  | PStr s => Ok (List.length (code_points s))
  | PDict d => Ok (List.length d)
  | _ => Err TypeError
  end.

Fixpoint prefixb (p s : string) : bool :=
  match p, s with
  | EmptyString, _ => true
  | String a p', String b s' => Ascii.eqb a b && prefixb p' s'
  | String _ _, EmptyString => false
  end.

(** [needle in hay] on two strings *)
Fixpoint substringb (needle hay : string) : bool :=
  prefixb needle hay
  || match hay with
     | EmptyString => false
     | String _ hay' => substringb needle hay'
     end.

Definition is_str (s : string) (v : pyval) : bool :=
  match v with
  | PStr s' => String.eqb s s'
  | _ => false
  end.

(** [needle in v] for a string [needle] *)
Definition py_in (needle : string) (v : pyval) : result bool :=
  match v with
  | PStr s => Ok (substringb needle s)
  | PList l => Ok (existsb (is_str needle) l)
  | PDict d => Ok (existsb (fun kv => String.eqb needle (fst kv)) d)
  | _ => Err TypeError
  end.

Fixpoint join (sep : string) (l : list string) : string :=
  match l with
  | [] => ""
  | [s] => s
  | s :: l' => s ++ sep ++ join sep l'
  end.

Fixpoint all_strings (l : list pyval) : result (list string) :=
  match l with
  | [] => Ok []
  | PStr s :: l' =>
      match all_strings l' with
      | Ok ss => Ok (s :: ss)
      | Err e => Err e
      end
  | _ :: _ => Err TypeError
  end.

(** [sep.join(l)]: every item has to be a string *)
Definition py_join (sep : string) (l : list pyval) : result string :=
  match all_strings l with
  | Ok ss => Ok (join sep ss)
  | Err e => Err e
  end.

(** [s.split(sep)] for a one-character separator *)
Fixpoint split_on (sep : ascii) (s : string) : list string :=
  match s with
  | EmptyString => [""]
  | String c s' =>
      if Ascii.eqb c sep then "" :: split_on sep s'
      else match split_on sep s' with
           | [] => [String c ""]
           | w :: ws => String c w :: ws
           end
  end.

(** [l[i:j]] and [l[i:]] for [0 <= i <= j] *)
Definition py_slice {A : Type} (l : list A) (i j : nat) : list A :=
  firstn (j - i) (skipn i l).

Definition py_slice_from {A : Type} (l : list A) (i : nat) : list A :=
  skipn i l.

(** [range(0, stop, step)] *)
Definition py_range0 (stop step : nat) : list nat :=
  map (fun k => k * step) (seq 0 ((stop + step - 1) / step)).

(** ** Constants of the module *)

Definition TRACKS_PER_USER_PAGE : Z := 2000.
Definition TRACKS_PER_ALBUM_PAGE : Z := 2000.
Definition ALBUMS_PER_USER_PAGE : Z := 100.

(** ** [base36encode] *)

Definition alphabet : string := "0123456789abcdefghijklmnopqrstuvwxyz".

(** [alphabet[i]]; [i] is a remainder modulo [len(alphabet)], so the
    position always exists *)
Definition alphabet_at (i : Z) : ascii :=
  match String.get (Z.to_nat i) alphabet with
  | Some c => c
  | None => "000"%char
  end.

(** The [while number != 0] loop.  [fuel] bounds the number of turns;
    [None] is a loop that has not finished within [fuel] turns. *)
Fixpoint base36_loop (fuel : nat) (number : Z) (base36 : string) : option string :=
  if (number =? 0)%Z then Some base36
  else match fuel with
       | O => None
       | S fuel' =>
           let '(number', i) := Z.div_eucl number (Z.of_nat (String.length alphabet)) in
           base36_loop fuel' number' (String (alphabet_at i) base36)
       end.

(** The loop as [base36encode] starts it, on the number it is given; a
    number below [2 ^ fuel] needs no more than [fuel] turns. *)
Definition base36encode_loop (number : Z) : option string :=
  base36_loop (S (Z.to_nat (Z.log2 number))) number "".

Fixpoint index_of (c : ascii) (s : string) : option nat :=
  match s with
  | EmptyString => None
  | String c' s' =>
      if Ascii.eqb c c' then Some O
      else match index_of c s' with
           | Some n => Some (S n)
           | None => None
           end
  end.

(** The value of a numeral over [alphabet], read from the left with
    [acc] the value of the digits already read. *)
Fixpoint base36_value_from (acc : Z) (s : string) : option Z :=
  match s with
  | EmptyString => Some acc
  | String c s' =>
      match index_of c alphabet with
      | Some d => base36_value_from (acc * 36 + Z.of_nat d) s'
      | None => None
      end
  end.

Definition base36_value (s : string) : option Z := base36_value_from 0 s.

(** ** [scrap_ids] *)

Section Scraping.
Context `{PyRuntime}.
Local Open Scope result_scope.

(** [full_id = str(track[1]), str(track[0]), track[24]] *)
Definition full_id_of (track : pyval) : result (list pyval) :=
  let? t1 := getidx track 1 in
  let? t0 := getidx track 0 in
  let? t24 := getidx track 24 in
  Ok [PStr (py_str t1); PStr (py_str t0); t24].

(** the same tuple for a track given by the list of its fields *)
Definition triple_of (t : list pyval) : list pyval :=
  [PStr (py_str (nth 1 t PNone)); PStr (py_str (nth 0 t PNone)); nth 24 t PNone].

(** [all(full_id)] *)
Definition py_all (l : list pyval) : bool := forallb truthy l.

(** the [for track in audio_data] loop, [ids] the list built so far *)
Fixpoint scrap_ids_loop (tracks : list pyval) (ids : list (list pyval))
  : result (list (list pyval)) :=
  match tracks with
  | [] => Ok ids
  | track :: rest =>
      let? full_id := full_id_of track in
      scrap_ids_loop rest (if py_all full_id then ids ++ [full_id] else ids)
  end.

Definition scrap_ids (audio_data : pyval) : result (list (list pyval)) :=
  let? tracks := py_iter audio_data in
  scrap_ids_loop tracks [].

End Scraping.

(** ** [RE_M3U8_TO_MP3]

    Python's [re] matches by backtracking: a greedy repetition takes as
    much as it can and gives back one character at a time, an optional
    group is tried present first and then absent.  Each combinator takes
    the subject string and the continuation that matches what follows. *)

Definition newline : string := String "010"%char EmptyString.

Section Matcher.
Variable R : Type.

Fixpoint drop_prefix (p s : string) : option string :=
  match p, s with
  | EmptyString, _ => Some s
  | String a p', String b s' => if Ascii.eqb a b then drop_prefix p' s' else None
  | String _ _, EmptyString => None
  end.

(** a literal *)
Definition m_lit (p s : string) (k : string -> option R) : option R :=
  match drop_prefix p s with
  | Some rest => k rest
  | None => None
  end.

(** [[cls]*], greedy; the continuation gets the text matched *)
Fixpoint m_star (cls : ascii -> bool) (s : string)
  (k : string -> string -> option R) : option R :=
  match s with
  | String c s' =>
      if cls c then
        match m_star cls s' (fun m rest => k (String c m) rest) with
        | Some r => Some r
        | None => k "" s
        end
      else k "" s
  | EmptyString => k "" s
  end.

(** [[cls]+] *)
Definition m_plus (cls : ascii -> bool) (s : string)
  (k : string -> string -> option R) : option R :=
  match s with
  | String c s' =>
      if cls c then m_star cls s' (fun m rest => k (String c m) rest) else None
  | EmptyString => None
  end.

(** [(p)?]; the continuation gets the group, [None] when it took no part *)
Definition m_opt (p s : string) (k : option string -> string -> option R)
  : option R :=
  match drop_prefix p s with
  | Some rest =>
      match k (Some p) rest with
      | Some r => Some r
      | None => k None s
      end
  | None => k None s
  end.

(** [.]: any character but a newline *)
Definition m_dot (s : string) (k : string -> string -> option R) : option R :=
  match next_code_point s with
  | Some (c, rest) => if String.eqb c newline then None else k c rest
  | None => None
  end.

End Matcher.

Arguments m_lit {R}.
Arguments m_star {R}.
Arguments m_plus {R}.
Arguments m_opt {R}.
Arguments m_dot {R}.

(** [[0-9a-f]] *)
Definition is_hex (c : ascii) : bool :=
  let n := nat_of_ascii c in
  (((48 <=? n) && (n <=? 57)) || ((97 <=? n) && (n <=? 102)))%nat.

(** One match of [/[0-9a-f]+(/audios)?/([0-9a-f]+)/index.m3u8]. *)
Record m3u8_match : Type := {
  group1 : option string;
  group2 : string;
  after : string
}.

(** [RE_M3U8_TO_MP3.match(s)]: the pattern at the start of [s] *)
Definition match_m3u8 (s : string) : option m3u8_match :=
  m_lit "/" s (fun s1 =>
  m_plus is_hex s1 (fun _ s2 =>
  m_opt "/audios" s2 (fun g1 s3 =>
  m_lit "/" s3 (fun s4 =>
  m_plus is_hex s4 (fun g2 s5 =>
  m_lit "/index" s5 (fun s6 =>
  m_dot s6 (fun _ s7 =>
  m_lit "m3u8" s7 (fun rest =>
  Some {| group1 := g1; group2 := g2; after := rest |})))))))).

(** the template [r'\1/\2.mp3']; a group that took no part expands to the
    empty string *)
Definition expand_mp3 (m : m3u8_match) : string :=
  match group1 m with Some g => g | None => "" end ++ "/" ++ group2 m ++ ".mp3".

(** [RE_M3U8_TO_MP3.sub(r'\1/\2.mp3', s)]: the subject is scanned from the
    left; where the pattern matches, the match is replaced and the scan
    goes on after it ([skip] counts the bytes of the match still to pass);
    elsewhere the byte is kept.  The pattern starts with ['/'], so it
    matches at no byte inside a character, and the scan byte by byte
    gives what the scan character by character gives. *)
Fixpoint re_sub_from (skip : nat) (s : string) : string :=
  match s with
  | EmptyString => ""
  | String c s' =>
      match skip with
      | S n => re_sub_from n s'
      | O =>
          match match_m3u8 s with
          | Some m =>
              expand_mp3 m
              ++ re_sub_from (String.length s - String.length (after m) - 1) s'
          | None => String c (re_sub_from 0 s')
          end
      end
  end.

Definition RE_M3U8_TO_MP3_sub (s : string) : string := re_sub_from 0 s.

(** ** The HTTP session and the generator monad *)

Inductive http_method : Type := GET | POST.

Record request : Type := {
  req_method : http_method;
  req_url : string;
  req_data : list (string * pyval);
  req_params : list (string * pyval);
  req_allow_redirects : bool
}.

(** the dictionary [scrap_tracks] yields *)
Record track : Type := {
  t_id : pyval;
  t_owner_id : pyval;
  t_track_covers : pyval;
  t_url : pyval;
  t_artist : pyval;
  t_title : pyval;
  t_duration : pyval
}.

Inductive event : Type :=
| EvRequest (r : request)
| EvYield (t : track)
| EvAuth.

(** What the environment will do: the answers of the server, in the order
    of the requests, and the outcomes of the calls of [vk.auth()]. *)
Record world : Type := {
  pending : list response;
  auth_plan : list (option exn)
}.

(** How a run ends short of its result.  [Starved]: the script of the
    environment ended before the run did.  [OutOfFuel]: a loop was cut at
    the bound on its turns. *)
Inductive halt : Type :=
| Raised (e : exn)
| Starved
| OutOfFuel.

Inductive outcome (A : Type) : Type :=
| Done (a : A)
| Halt (h : halt).
Arguments Done {A} a.
Arguments Halt {A} h.

Definition M (A : Type) : Type := world -> outcome A * list event * world.

Definition ret {A : Type} (a : A) : M A := fun w => (Done a, [], w).

Definition bind {A B : Type} (m : M A) (k : A -> M B) : M B :=
  fun w =>
    match m w with
    | (Done a, t, w') =>
        let '(o, t', w'') := k a w' in (o, t ++ t', w'')
    | (Halt h, t, w') => (Halt h, t, w')
    end.

Definition raise {A : Type} (e : exn) : M A :=
  fun w => (Halt (Raised e), [], w).

Definition out_of_fuel {A : Type} : M A := fun w => (Halt OutOfFuel, [], w).

Definition lift {A : Type} (r : result A) : M A :=
  match r with
  | Ok a => ret a
  | Err e => raise e
  end.

Declare Scope gen_scope.
Delimit Scope gen_scope with gen.
Notation "x <- m ;; k" := (bind m (fun x => k))
  (at level 61, m at next level, right associativity) : gen_scope.
Notation "m ;;; k" := (bind m (fun _ => k))
  (at level 61, right associativity) : gen_scope.

(** [http.post(...)] / [http.get(...)]: the request goes out and the next
    answer of the script comes back *)
Definition http (r : request) : M response :=
  fun w =>
    match pending w with
    | [] => (Halt Starved, [EvRequest r], w)
    | a :: rest =>
        (Done a, [EvRequest r], {| pending := rest; auth_plan := auth_plan w |})
    end.

(** [yield t] *)
Definition yield (t : track) : M unit := fun w => (Done tt, [EvYield t], w).

(** [self._vk.auth()] *)
Definition vk_auth : M unit :=
  fun w =>
    match auth_plan w with
    | [] => (Halt Starved, [EvAuth], w)
    | None :: rest =>
        (Done tt, [EvAuth], {| pending := pending w; auth_plan := rest |})
    | Some e :: rest =>
        (Halt (Raised e), [EvAuth], {| pending := pending w; auth_plan := rest |})
    end.

(** [try: m except RetryAudioRequest: h] *)
Definition except_retry {A : Type} (m h : M A) : M A :=
  fun w =>
    match m w with
    | (Halt (Raised RetryAudioRequest), t, w') =>
        let '(o, t', w'') := h w' in (o, t ++ t', w'')
    | r => r
    end.

(** [json.loads(response.text.replace('<!--', ''))] and [response.json()] *)
Definition json_of (r : response) : result pyval :=
  match r with
  | RespJson j => Ok j
  | RespText _ => Err JSONDecodeError
  end.

(** the requests of a trace and the tracks it yields *)
Definition requests_of (t : list event) : list request :=
  flat_map (fun e => match e with EvRequest r => [r] | _ => [] end) t.

Definition yields_of (t : list event) : list track :=
  flat_map (fun e => match e with EvYield x => [x] | _ => [] end) t.

Definition auths_of (t : list event) : nat :=
  List.length (filter (fun e => match e with EvAuth => true | _ => false end) t).

(** ** [scrap_tracks] *)

Record VkAudio : Type := {
  user_id : pyval;
  convert_m3u8_links : bool
}.

Definition is_none (v : pyval) : bool :=
  match v with PNone => true | _ => false end.

(** [type(v) == str] *)
Definition is_string (v : pyval) : bool :=
  match v with PStr _ => true | _ => false end.

Fixpoint map_result {A B : Type} (f : A -> result B) (l : list A)
  : result (list B) :=
  match l with
  | [] => Ok []
  | a :: l' =>
      match f a with
      | Ok b =>
          match map_result f l' with
          | Ok bs => Ok (b :: bs)
          | Err e => Err e
          end
      | Err e => Err e
      end
  end.

(** [[ids[i:i + 10] for i in range(0, len(ids), 10)]] *)
Definition ids_groups {A : Type} (ids : list A) : list (list A) :=
  map (fun i => py_slice ids i (i + 10)) (py_range0 (List.length ids) 10).

(** [','.join(['_'.join(i) for i in ids_group])] *)
Definition audio_ids_of (ids_group : list (list pyval)) : result string :=
  match map_result (py_join "_") ids_group with
  | Ok parts => Ok (join "," parts)
  | Err e => Err e
  end.

Definition reload_audios_request (audio_ids : string) : request :=
  {| req_method := POST;
     req_url := "https://vk.com/al_audio.php";
     req_data := [("al", PInt 1); ("audio_ids", PStr audio_ids)];
     req_params := [("act", PStr "reload_audios")];
     req_allow_redirects := true |}.

(** [link = RE_M3U8_TO_MP3.sub(r'\1/\2.mp3', link)] *)
Definition py_re_sub (link : pyval) : result pyval :=
  match link with
  | PStr s => Ok (PStr (RE_M3U8_TO_MP3_sub s))
  | _ => Err TypeError
  end.

(** [v.split(sep)] *)
Definition py_split (sep : ascii) (v : pyval) : result pyval :=
  match v with
  | PStr s => Ok (PList (map PStr (split_on sep s)))
  | _ => Err AttributeError
  end.

Section Tracks.
Context `{PyRuntime}.
Local Open Scope result_scope.
Local Open Scope gen_scope.

(** [v.strip()] *)
Definition py_strip (v : pyval) : result pyval :=
  match v with
  | PStr s => Ok (PStr (str_strip s))
  | _ => Err AttributeError
  end.

(** the link of an audio after
    [if 'audio_api_unavailable' in link: link = decode_audio_url(link, user_id)] *)
Definition decoded_link (uid link : pyval) : result pyval :=
  let? unavailable := py_in "audio_api_unavailable" link in
  if unavailable then decode_audio_url link uid else Ok link.

(** the link after
    [if convert_m3u8_links and 'm3u8' in link: link = RE_M3U8_TO_MP3.sub(...)] *)
Definition converted_link (convert : bool) (link : pyval) : result pyval :=
  if convert then
    let? m3u8 := py_in "m3u8" link in
    if m3u8 then py_re_sub link else Ok link
  else Ok link.

(** the body of [for audio in data_audio], up to the dictionary yielded *)
Definition track_of_audio (uid : pyval) (convert : bool) (audio : pyval)
  : result track :=
  let? a4 := getidx audio 4 in
  let? artist := soup_text a4 in
  let? a3 := getidx audio 3 in
  let? stripped := py_strip a3 in
  let? title := soup_text stripped in
  let? duration := getidx audio 5 in
  let? link := getidx audio 2 in
  let? link := decoded_link uid link in
  let? link := converted_link convert link in
  let? a0 := getidx audio 0 in
  let? a1 := getidx audio 1 in
  let? a14 := getidx audio 14 in
  let? covers := (if truthy a14 then py_split "," a14 else Ok (PList [])) in
  Ok {| t_id := a0;
        t_owner_id := a1;
        t_track_covers := covers;
        t_url := link;
        t_artist := artist;
        t_title := title;
        t_duration := duration |}.

(** [for audio in data_audio: ... yield {...}] *)
Fixpoint yield_tracks (uid : pyval) (convert : bool) (data_audio : list pyval)
  : M unit :=
  match data_audio with
  | [] => ret tt
  | audio :: rest =>
      t <- lift (track_of_audio uid convert audio) ;;
      yield t ;;;
      yield_tracks uid convert rest
  end.

(** One [reload_audios] request: the audios the answer holds, none when
    its payload is falsy. *)
Definition reload_audios (ids_group : list (list pyval)) : M (list pyval) :=
  audio_ids <- lift (audio_ids_of ids_group) ;;
  response <- http (reload_audios_request audio_ids) ;;
  result <- lift (json_of response) ;;
  payload <- lift (getkey result "payload") ;;
  if truthy payload then
    p1 <- lift (getidx payload 1) ;;
    data_audio <- lift (getidx p1 0) ;;
    lift (py_iter data_audio)
  else ret [].

(** the [for ids_group in ...] loop, run to the end; the waiting between
    two requests changes no value and is left to [scrap_tracks_timed]
    below, which runs the same loop with a clock *)
Fixpoint scrap_tracks_groups (uid : pyval) (convert : bool)
  (groups : list (list (list pyval))) : M unit :=
  match groups with
  | [] => ret tt
  | ids_group :: rest =>
      data_audio <- reload_audios ids_group ;;
      yield_tracks uid convert data_audio ;;;
      scrap_tracks_groups uid convert rest
  end.

(** [for track in scrap_tracks(ids, user_id, http, convert_m3u8_links)]:
    the generator consumed to its end *)
Definition scrap_tracks (ids : list (list pyval)) (uid : pyval) (convert : bool)
  : M unit :=
  scrap_tracks_groups uid convert (ids_groups ids).

(** [next(g)] on a fresh generator [g = scrap_tracks(...)]: the run up to
    the first [yield] *)
Fixpoint next_groups (uid : pyval) (convert : bool)
  (groups : list (list (list pyval))) : M track :=
  match groups with
  | [] => raise StopIteration
  | ids_group :: rest =>
      data_audio <- reload_audios ids_group ;;
      match data_audio with
      | audio :: _ => lift (track_of_audio uid convert audio)
      | [] => next_groups uid convert rest
      end
  end.

(** A generator object made by a call of [scrap_tracks]; the call itself
    runs nothing. *)
Record generator : Type := {
  gen_ids : list (list pyval);
  gen_user_id : pyval;
  gen_convert : bool
}.

(** [bool(g)]: a generator object has neither [__bool__] nor [__len__],
    so it is true whatever it would yield *)
Definition truthy_generator (g : generator) : bool := true.

Definition next (g : generator) : M track :=
  next_groups (gen_user_id g) (gen_convert g) (ids_groups (gen_ids g)).

End Tracks.

(** ** [scrap_tracks] and the clock

    Between two requests [scrap_tracks] waits: before each request it
    reads the clock, computes [delay] from the reading it took after the
    answer to the request before, and sleeps when [delay > 0].  The clock
    is scripted like the server: [elapse] gives the time that passes at
    each step the clock is involved in, which is a reading of
    [time.time()], a [time.sleep(d)] (the time it lasts beyond [d]), the
    sending of a request and the wait for its answer.  Whatever else takes
    time, the consumer at a [yield] included, falls before the next of
    these steps.  Times are rational numbers of seconds; the rounding of
    floating-point arithmetic is left out.  The log records when each
    request went out and when its answer came. *)

Definition RPS_DELAY_RELOAD_AUDIO : Q := 3 # 2.

Inductive clock_event : Type :=
| Slept (d : Q)
| Sent (time : Q)
| Answered (time : Q).

Record clock : Type := {
  now : Q;
  elapse : list Q;
  clock_log : list clock_event
}.

(** the time of the next step passes; past the end of the script none
    does *)
Definition pass (c : clock) : clock :=
  match elapse c with
  | [] => c
  | d :: rest =>
      {| now := (now c + d)%Q; elapse := rest; clock_log := clock_log c |}
  end.

Definition record (e : clock_event) (c : clock) : clock :=
  {| now := now c; elapse := elapse c; clock_log := clock_log c ++ [e] |}.

(** a run with a clock: the clock is there at the end also when the run
    halts *)
Definition T (A : Type) : Type :=
  clock -> world -> outcome A * list event * world * clock.

Definition tret {A : Type} (a : A) : T A := fun c w => (Done a, [], w, c).

Definition tbind {A B : Type} (m : T A) (k : A -> T B) : T B :=
  fun c w =>
    match m c w with
    | (Done a, t, w', c') =>
        let '(o, t', w'', c'') := k a c' w' in (o, t ++ t', w'', c'')
    | (Halt h, t, w', c') => (Halt h, t, w', c')
    end.

(** a step that does not involve the clock *)
Definition untimed {A : Type} (m : M A) : T A := fun c w => (m w, c).

(** [time.time()] *)
Definition time_time : T Q :=
  fun c w => let c' := pass c in (Done (now c'), [], w, c').

(** [time.sleep(d)] *)
Definition time_sleep (d : Q) : T unit :=
  fun c w =>
    let c' := pass c in
    (Done tt, [], w,
     record (Slept d)
       {| now := (now c' + d)%Q; elapse := elapse c';
          clock_log := clock_log c' |}).

(** [http.post(...)] with the clock running *)
Definition timed_http (r : request) : T response :=
  fun c w =>
    let c1 := pass c in
    let c2 := record (Sent (now c1)) c1 in
    match http r w with
    | (Done a, t, w') =>
        let c3 := pass c2 in
        (Done a, t, w', record (Answered (now c3)) c3)
    | (Halt h, t, w') => (Halt h, t, w', c2)
    end.

Declare Scope clock_scope.
Delimit Scope clock_scope with clock.
Notation "x <- m ;; k" := (tbind m (fun x => k))
  (at level 61, m at next level, right associativity) : clock_scope.
Notation "m ;;; k" := (tbind m (fun _ => k))
  (at level 61, right associativity) : clock_scope.

Section TimedTracks.
Context `{PyRuntime}.
Local Open Scope clock_scope.

(** one turn of the loop up to its [for audio in data_audio]: the audios
    of the answer and the new [last_request] *)
Definition reload_audios_timed (ids_group : list (list pyval))
  (last_request : Q) : T (list pyval * Q) :=
  reading <- time_time ;;
  let delay := (RPS_DELAY_RELOAD_AUDIO - (reading - last_request))%Q in
  (if negb (Qle_bool delay 0) then time_sleep delay else tret tt) ;;;
  audio_ids <- untimed (lift (audio_ids_of ids_group)) ;;
  response <- timed_http (reload_audios_request audio_ids) ;;
  result <- untimed (lift (json_of response)) ;;
  last_request <- time_time ;;
  payload <- untimed (lift (getkey result "payload")) ;;
  if truthy payload then
    p1 <- untimed (lift (getidx payload 1)) ;;
    data_audio <- untimed (lift (getidx p1 0)) ;;
    audios <- untimed (lift (py_iter data_audio)) ;;
    tret (audios, last_request)
  else tret ([], last_request).

Fixpoint scrap_tracks_timed_groups (uid : pyval) (convert : bool)
  (groups : list (list (list pyval))) (last_request : Q) : T unit :=
  match groups with
  | [] => tret tt
  | ids_group :: rest =>
      turn <- reload_audios_timed ids_group last_request ;;
      untimed (yield_tracks uid convert (fst turn)) ;;;
      scrap_tracks_timed_groups uid convert rest (snd turn)
  end.

(** [scrap_tracks] consumed to its end, the clock running;
    [last_request = 0.0] at the start *)
Definition scrap_tracks_timed (ids : list (list pyval)) (uid : pyval)
  (convert : bool) : T unit :=
  scrap_tracks_timed_groups uid convert (ids_groups ids) 0%Q.

End TimedTracks.

(** the run without its clock *)
Definition without_clock {A : Type}
  (r : outcome A * list event * world * clock) : outcome A * list event * world :=
  fst r.

(** Every request of the log goes out at least [gap] after each answer
    that has come before it. *)
Definition spaced (gap : Q) (log : list clock_event) : Prop :=
  forall before a between s after,
    log = before ++ Answered a :: between ++ Sent s :: after ->
    (a + gap <= s)%Q.

(** Every request of the log goes out at least [gap] after each request
    before it. *)
Definition apart (gap : Q) (log : list clock_event) : Prop :=
  forall before s1 between s2 after,
    log = before ++ Sent s1 :: between ++ Sent s2 :: after ->
    (s1 + gap <= s2)%Q.

(** the times at which the requests of a log went out, and those at which
    the answers came *)
Definition sent_times (log : list clock_event) : list Q :=
  flat_map (fun e => match e with Sent time => [time] | _ => [] end) log.

Definition answer_times (log : list clock_event) : list Q :=
  flat_map (fun e => match e with Answered time => [time] | _ => [] end) log.

(** a clock that starts at [start] with an empty log *)
Definition clock_at (start : Q) (script : list Q) : clock :=
  {| now := start; elapse := script; clock_log := [] |}.

(** ** The methods of [VkAudio] *)

Definition al_audio_request (data : list (string * pyval)) : request :=
  {| req_method := POST;
     req_url := "https://vk.com/al_audio.php";
     req_data := data;
     req_params := [];
     req_allow_redirects := true |}.

Definition load_catalog_section_request (section_id start_from : pyval)
  : request :=
  al_audio_request
    [("al", PInt 1); ("act", PStr "load_catalog_section");
     ("section_id", section_id); ("start_from", start_from)].

Definition load_section_request
  (owner_id album_id access_hash : pyval) (offset : Z) : request :=
  {| req_method := POST;
     req_url := "https://m.vk.com/audio";
     req_data :=
       [("act", PStr "load_section");
        ("owner_id", owner_id);
        ("playlist_id", if truthy album_id then album_id else PInt (-1));
        ("offset", PInt offset);
        ("type", PStr "playlist");
        ("access_hash", access_hash);
        ("is_loading_all", PInt 1)];
     req_params := [];
     req_allow_redirects := false |}.

(** [p['title'] in targets], [targets] a tuple of strings *)
Definition in_targets (title : pyval) (targets : list string) : bool :=
  existsb (fun t => is_str t title) targets.

(** [next((p for p in playlists if p['title'] in targets), None)] *)
Fixpoint find_target (playlists : list pyval) (targets : list string)
  : result pyval :=
  match playlists with
  | [] => Ok PNone
  | p :: rest =>
      match getkey p "title" with
      | Ok title => if in_targets title targets then Ok p else find_target rest targets
      | Err e => Err e
      end
  end.

(** [[p['title'] for p in playlists if p['list']]] *)
Fixpoint exists_lists (playlists : list pyval) : result (list pyval) :=
  match playlists with
  | [] => Ok []
  | p :: rest =>
      match getkey p "list" with
      | Ok l =>
          if truthy l then
            match getkey p "title" with
            | Ok title =>
                match exists_lists rest with
                | Ok ts => Ok (title :: ts)
                | Err e => Err e
                end
            | Err e => Err e
            end
          else exists_lists rest
      | Err e => Err e
      end
  end.

Section Methods.
Context `{PyRuntime}.
Local Open Scope result_scope.
Local Open Scope gen_scope.

Variable self : VkAudio.

(** *** [get_iter] *)

(** the body of [while True], [fuel] bounding the turns *)
Fixpoint get_iter_loop (fuel : nat)
  (owner_id album_id access_hash : pyval) (offset_diff offset : Z) : M unit :=
  match fuel with
  | O => out_of_fuel
  | S fuel' =>
      r <- http (load_section_request owner_id album_id access_hash offset) ;;
      response <- lift (json_of r) ;;
      data <- lift (getkey response "data") ;;
      data0 <- lift (getidx data 0) ;;
      if negb (truthy data0) then raise AccessDenied
      else
        audio_data <- lift (getkey data0 "list") ;;
        ids <- lift (scrap_ids audio_data) ;;
        match ids with
        | [] => ret tt
        | _ :: _ =>
            scrap_tracks ids (user_id self) (convert_m3u8_links self) ;;;
            hasMore <- lift (getkey data0 "hasMore") ;;
            if truthy hasMore then
              get_iter_loop fuel' owner_id album_id access_hash
                offset_diff (offset + offset_diff)
            else ret tt
        end
  end.

(** every turn of the loop takes an answer from the script, so a bound
    above the length of the script is never reached *)
Definition get_iter (owner_id album_id access_hash : pyval) : M unit :=
  fun w =>
    let owner_id := if is_none owner_id then user_id self else owner_id in
    let offset_diff :=
      if negb (is_none album_id) then TRACKS_PER_ALBUM_PAGE
      else TRACKS_PER_USER_PAGE in
    get_iter_loop (S (List.length (pending w)))
      owner_id album_id access_hash offset_diff 0 w.

(** *** [get_target_playlist_from_json] *)

Definition get_target_playlist_from_json
  (json_data : pyval) (targets : list string) : M pyval :=
  payload <- lift (getkey json_data "payload") ;;
  p1 <- lift (getidx payload 1) ;;
  p11 <- lift (getidx p1 1) ;;
  if is_string p11 then
    vk_auth ;;;
    raise RetryAudioRequest
  else
    playlists <- lift (getkey p11 "playlists") ;;
    items <- lift (py_iter playlists) ;;
    target_playlist <- lift (find_target items targets) ;;
    if is_none target_playlist then
      lift (exists_lists items) ;;;
      ret target_playlist
    else ret target_playlist.

(** *** [_iter_playlist_by_response] *)

Definition first_playlist (data : list (string * pyval)) (targets : list string)
  : M pyval :=
  first_response <- http (al_audio_request data) ;;
  first_json <- lift (json_of first_response) ;;
  get_target_playlist_from_json first_json targets.

(** the two statements of the loop that deal with the offset: the ids
    handed to [scrap_tracks] ([None]: the page is passed over) and the
    list [ids] is bound to afterwards *)
Definition page_ids (offset offset_left : Z) (ids : list (list pyval))
  : option (list (list pyval)) * list (list pyval) :=
  if (offset <=? offset_left + Z.of_nat (List.length ids))%Z then
    let ids' :=
      if (offset_left <? offset)%Z
      then py_slice_from ids (Z.to_nat (offset - offset_left))
      else ids in
    (Some ids', ids')
  else (None, ids).

(** the body of [while playlist], [fuel] bounding the turns *)
Fixpoint iter_playlist_loop (fuel : nat) (targets : list string)
  (offset offset_left : Z) (playlist : pyval) : M unit :=
  match fuel with
  | O => out_of_fuel
  | S fuel' =>
      if negb (truthy playlist) then ret tt
      else
        audio_data <- lift (getkey playlist "list") ;;
        ids <- lift (scrap_ids audio_data) ;;
        match ids with
        | [] => ret tt
        | _ :: _ =>
            let '(wanted, ids) := page_ids offset offset_left ids in
            match wanted with
            | Some ids' =>
                scrap_tracks ids' (user_id self) (convert_m3u8_links self)
            | None => ret tt
            end ;;;
            let offset_left := (offset_left + Z.of_nat (List.length ids))%Z in
            hasMore <- lift (getkey playlist "hasMore") ;;
            if negb (truthy hasMore) then ret tt
            else
              section_id <- lift (getkey playlist "id") ;;
              start_from <- lift (getkey playlist "nextOffset") ;;
              response <- http (load_catalog_section_request section_id start_from) ;;
              json_response <- lift (json_of response) ;;
              playlist' <- get_target_playlist_from_json json_response targets ;;
              iter_playlist_loop fuel' targets offset offset_left playlist'
        end
  end.

Definition _iter_playlist_by_response
  (data : list (string * pyval)) (targets : list string) (offset : Z) : M unit :=
  playlist <- except_retry (first_playlist data targets)
                           (first_playlist data targets) ;;
  fun w =>
    iter_playlist_loop (S (List.length (pending w))) targets offset 0 playlist w.

(** *** [get_updates_iter] *)







End Methods.

(** ** [scrap_ids_from_html], [get_audio_by_id] and [get_popular_iter] *)

(** what [get_audio_by_id] returns: a track or the empty list *)
Inductive audio_or_empty : Type :=
| ATrack (t : track)
| AEmptyList.

(** [l[offset:]] for any integer [offset] *)
Definition py_slice_from_Z {A : Type} (l : list A) (offset : Z) : list A :=
  if (offset <? 0)%Z
  then skipn (List.length l - Z.to_nat (- offset)) l
  else skipn (Z.to_nat offset) l.

Section Pages.
Context `{PyRuntime}.
Local Open Scope result_scope.
Local Open Scope gen_scope.

Variable self : VkAudio.

(** the tuple [scrap_ids_from_html] builds from a [data-audio] value *)
Definition full_id_of_html (data_audio : pyval) : result (list pyval) :=
  let? d13 := getidx data_audio 13 in
  let? audio_hashes := py_split "/" d13 in
  let? d1 := getidx data_audio 1 in
  let? d0 := getidx data_audio 0 in
  let? h2 := getidx audio_hashes 2 in
  let? h5 := getidx audio_hashes 5 in
  Ok [PStr (py_str d1); PStr (py_str d0); h2; h5].

Fixpoint scrap_ids_from_html_loop (items : list audio_item)
  (ids : list (list pyval)) : result (list (list pyval)) :=
  match items with
  | [] => Ok ids
  | audio :: rest =>
      if existsb (String.eqb "audio_item_disabled") (item_class audio)
      then scrap_ids_from_html_loop rest ids
      else
        let? data_audio := item_data_audio audio in
        let? full_id := full_id_of_html data_audio in
        scrap_ids_from_html_loop rest
          (if py_all full_id then ids ++ [full_id] else ids)
  end.

Definition scrap_ids_from_html (html : response) (attr value : string)
  : result (list (list pyval)) :=
  match soup_audio_items attr value html with
  | None => Err ValueError
  | Some items => scrap_ids_from_html_loop items []
  end.

Definition audio_page_request (owner_id audio_id : pyval) : request :=
  {| req_method := GET;
     req_url := "https://m.vk.com/audio" ++ py_str owner_id ++ "_" ++ py_str audio_id;
     req_data := [];
     req_params := [];
     req_allow_redirects := false |}.

Definition get_audio_by_id (owner_id audio_id : pyval) : M audio_or_empty :=
  response <- http (audio_page_request owner_id audio_id) ;;
  ids <- lift (scrap_ids_from_html response "class" "basisDefault") ;;
  let track :=
    {| gen_ids := ids;
       gen_user_id := user_id self;
       gen_convert := convert_m3u8_links self |} in
  if truthy_generator track then
    t <- next track ;;
    ret (ATrack t)
  else ret AEmptyList.

Definition tracks_chart_request : request :=
  {| req_method := POST;
     req_url := "https://vk.com/audio";
     req_data := [("block", PStr "tracks_chart"); ("section", PStr "explore")];
     req_params := [];
     req_allow_redirects := true |}.

Definition get_popular_iter (offset : Z) : M unit :=
  response <- http tracks_chart_request ;;
  json_response <- lift (audio_page_json response) ;;
  section_data <- lift (getkey json_response "sectionData") ;;
  explore <- lift (getkey section_data "explore") ;;
  playlist <- lift (getkey explore "playlist") ;;
  playlist <-
    (if negb (truthy playlist) then
       section_id <- lift (getkey explore "sectionId") ;;
       response <- http (al_audio_request
                           [("al", PInt 1); ("act", PStr "load_catalog_section");
                            ("section_id", section_id)]) ;;
       json_response <- lift (json_of response) ;;
       get_target_playlist_from_json json_response ["Чарт треков"]
     else ret playlist) ;;
  audio_data <- lift (getkey playlist "list") ;;
  ids <- lift (scrap_ids audio_data) ;;
  scrap_tracks
    (if (offset =? 0)%Z then ids else py_slice_from_Z ids offset)
    (user_id self) (convert_m3u8_links self).

End Pages.

(** ** A runtime and answers for the examples

    The examples use values without markup, without white space around
    them and without encoded links, on which the functions of the
    libraries change nothing; [str] is only taken of integers and
    strings.  Of the pages BeautifulSoup reads, the runtime knows those of
    the examples, each with the filter of its root element and the audio
    items found under it; in any other page it finds no root element. *)

(** the page of a post with one audio: the element of class
    ['audios_list'] holds one audio item, whose [data-audio] is a JSON
    array with the hashes of the audio at 13 *)
Definition post_page : string :=
  "<div class='audios_list'><div class='audio_item' data-audio='[3,7,0,0,0,0,0,0,0,0,0,0,0,&quot;a/b/hc/d/e/hf&quot;]'></div></div>".

Definition post_page_items : list audio_item :=
  [{| item_class := ["audio_item"];
      item_data_audio :=
        Ok (PList ([PInt 3; PInt 7] ++ repeat (PInt 0) 11
                   ++ [PStr "a/b/hc/d/e/hf"])) |}].

Definition example_pages : list (string * string * string * list audio_item) :=
  [("class", "audios_list", post_page, post_page_items)].

Fixpoint page_items (attr value html : string)
  (pages : list (string * string * string * list audio_item))
  : option (list audio_item) :=
  match pages with
  | [] => None
  | (a, v, text, items) :: pages' =>
      if String.eqb attr a && String.eqb value v && String.eqb html text
      then Some items
      else page_items attr value html pages'
  end.

Definition plain_runtime : PyRuntime :=
  {| repr_items := fun _ => "...";
     repr_pairs := fun _ => "...";
     decode_audio_url := fun _ _ => Err (ExternalError "decode_audio_url");
     soup_text := fun markup => Ok markup;
     str_strip := fun s => s;
     audio_page_json := json_of;
     soup_audio_items := fun attr value html =>
       match html with
       | RespText text => page_items attr value text example_pages
       | RespJson _ => None
       end |}.

(** a track array of a playlist: id, owner id and, at 24, the hashes *)
Definition mk_track (id owner : Z) (hashes : string) : pyval :=
  PList ([PInt id; PInt owner] ++ repeat PNone 22 ++ [PStr hashes]).

(** an audio array of a [reload_audios] answer *)
Definition mk_audio (id owner : Z) (link title artist : string) (duration : Z)
  : pyval :=
  PList ([PInt id; PInt owner; PStr link; PStr title; PStr artist; PInt duration]
         ++ repeat PNone 8 ++ [PStr ""]).

(** the answer of [al_audio.php] that holds one playlist *)
Definition mk_playlist_answer (title : string) (tracks : list pyval)
  (hasMore : bool) (id nextOffset : string) : response :=
  RespJson (PDict [("payload",
    PList [PInt 0;
           PList [PStr "<div></div>";
                  PDict [("playlists",
                    PList [PDict [("title", PStr title);
                                  ("list", PList tracks);
                                  ("hasMore", PBool hasMore);
                                  ("id", PStr id);
                                  ("nextOffset", PStr nextOffset)]])]]])]).

(** the answer to a [reload_audios] request *)
Definition mk_reload_answer (audios : list pyval) : response :=
  RespJson (PDict [("payload", PList [PInt 0; PList [PList audios]])]).

(** the answer [al_audio.php] gives when the session has expired: a
    string where the playlists should be *)
Definition expired_answer : response :=
  RespJson (PDict [("payload",
    PList [PInt 0; PList [PStr ""; PStr "<div>login</div>"]])]).

Definition example_self : VkAudio :=
  {| user_id := PInt 1; convert_m3u8_links := true |}.

Definition search_data : list (string * pyval) :=
  [("al", PInt 1); ("act", PStr "section"); ("claim", PInt 0);
   ("is_layer", PInt 0); ("owner_id", PInt 1); ("section", PStr "search");
   ("q", PStr "song")].

(** Two pages of three tracks each, and the answers to the two
    [reload_audios] requests the run makes for [offset = 2]. *)
Definition two_pages_world : world :=
  {| pending :=
       [ mk_playlist_answer "T"
           [mk_track 1 7 "ha"; mk_track 2 7 "hb"; mk_track 3 7 "hc"]
           true "sec" "3";
         mk_reload_answer [mk_audio 3 7 "https://h/c.mp3" "c" "x" 10];
         mk_playlist_answer "T"
           [mk_track 4 7 "hd"; mk_track 5 7 "he"; mk_track 6 7 "hf"]
           false "sec" "6";
         mk_reload_answer [mk_audio 5 7 "https://h/e.mp3" "e" "x" 10;
                           mk_audio 6 7 "https://h/f.mp3" "f" "x" 10] ];
     auth_plan := [] |}.

(** the ids a trace asks [reload_audios] for, in order *)
Definition requested_audio_ids (t : list event) : list string :=
  flat_map
    (fun r =>
       match assoc "audio_ids" (req_data r) with
       | Some (PStr s) => split_on "," s
       | _ => []
       end)
    (requests_of t).

(** The documented reading of an offset: the ids of the pages, in page
    order, without the first [offset] of them. *)
Definition ids_after_offset {A : Type} (offset : nat) (pages : list (list A))
  : list A :=
  skipn offset (List.concat pages).

(** the track ids of the two pages of [two_pages_world], as
    [reload_audios] names them *)
Definition two_pages_ids : list (list string) :=
  [["7_1_ha"; "7_2_hb"; "7_3_hc"]; ["7_4_hd"; "7_5_he"; "7_6_hf"]].

(** Two expired sessions in a row, each re-authentication going through. *)
Definition retry_world : world :=
  {| pending := [expired_answer; expired_answer];
     auth_plan := [None; None] |}.

(** the answer to a [load_section] request *)
Definition mk_section_answer (tracks : list pyval) (hasMore : bool) : response :=
  RespJson (PDict [("data",
    PList [PDict [("list", PList tracks); ("hasMore", PBool hasMore)]])]).

(** A first page of one track with more to come, and a second page without
    tracks. *)
Definition album_world : world :=
  {| pending :=
       [ mk_section_answer [mk_track 1 7 "ha"] true;
         mk_reload_answer [mk_audio 1 7 "https://h/a.mp3" "a" "x" 10];
         mk_section_answer [] false ];
     auth_plan := [] |}.




(** eleven ids, and the answers to the two requests they take *)
Definition eleven_ids : list (list pyval) :=
  map (fun k => [PStr "7"; PStr (string_of_Z (Z.of_nat k)); PStr "h"])
      (seq 1 11).

Definition eleven_world : world :=
  {| pending := [mk_reload_answer []; mk_reload_answer []];
     auth_plan := [] |}.

(** one id, answered by an audio with an [m3u8] link *)
Definition m3u8_world : world :=
  {| pending :=
       [ mk_reload_answer
           [mk_audio 1 7
              "https://h/audio/ee/0a1b2c3d4e/audios/f00dbabe/index.m3u8?extra=abc"
              "a" "x" 10] ];
     auth_plan := [] |}.

(** a page whose root element holds one disabled audio item *)
Definition disabled_runtime : PyRuntime :=
  {| repr_items := fun _ => "...";
     repr_pairs := fun _ => "...";
     decode_audio_url := fun _ _ => Err (ExternalError "decode_audio_url");
     soup_text := fun markup => Ok markup;
     str_strip := fun s => s;
     audio_page_json := json_of;
     soup_audio_items := fun _ _ _ =>
       Some [{| item_class := ["audio_item"; "audio_item_disabled"];
                item_data_audio := Err KeyError |}] |}.

Definition page_world : world :=
  {| pending := [RespText "<div class='basisDefault'></div>"];
     auth_plan := [] |}.

(** ** The pattern of [RE_M3U8_TO_MP3], said without the matcher *)

Fixpoint string_all (cls : ascii -> bool) (s : string) : bool :=
  match s with
  | EmptyString => true
  | String c s' => cls c && string_all cls s'
  end.

(** one character: a byte and the continuation bytes after it *)
Definition code_point (c : string) : Prop :=
  exists b g, c = String b g /\ string_all is_continuation g = true.

(** [[0-9a-f]+] *)
Definition hex_run (s : string) : Prop :=
  s <> "" /\ string_all is_hex s = true.

Definition group_text (g : option string) : string :=
  match g with Some x => x | None => "" end.

(** [text] is an instance of
    [/[0-9a-f]+(/audios)?/([0-9a-f]+)/index.m3u8] with the groups [g1] and
    [g2] *)
Definition m3u8_instance (text : string) (g1 : option string) (g2 : string)
  : Prop :=
  exists h1 c,
    hex_run h1 /\ hex_run g2
    /\ (g1 = Some "/audios" \/ g1 = None)
    /\ code_point c /\ c <> newline
    /\ text = ("/" ++ h1 ++ group_text g1 ++ "/" ++ g2 ++ "/index"
               ++ c ++ "m3u8")%string.

(** ** Re-authentication in a trace *)

(** [json_data['payload'][1][1]] *)
Definition payload_1_1 (json_data : pyval) : result pyval :=
  match getkey json_data "payload" with
  | Ok payload =>
      match getidx payload 1 with
      | Ok p1 => getidx p1 1
      | Err e => Err e
      end
  | Err e => Err e
  end.

Definition no_auth (t : list event) : Prop :=
  Forall (fun e => e <> EvAuth) t.

(** a re-authentication, if there is one, is the last event of the trace
    and the run halts there: nothing is tried again after it *)
Definition auth_is_last {A : Type} (o : outcome A) (t : list event) : Prop :=
  no_auth t
  \/ exists t0, t = t0 ++ [EvAuth] /\ no_auth t0 /\ exists h, o = Halt h.

(** ** Shapes of events and requests, for the statements *)

(** what a run of [scrap_tracks] can emit: a [reload_audios] request or a
    track *)
Definition reload_or_yield (e : event) : Prop :=
  match e with
  | EvRequest r => exists audio_ids, r = reload_audios_request audio_ids
  | EvYield _ => True
  | EvAuth => False
  end.

(** a request carries a group when it is the [reload_audios] request whose
    [audio_ids] field is the ids of the group, joined *)
Definition carries (r : request) (ids_group : list (list pyval)) : Prop :=
  exists audio_ids,
    audio_ids_of ids_group = Ok audio_ids
    /\ r = {| req_method := POST;
              req_url := "https://vk.com/al_audio.php";
              req_data := [("al", PInt 1); ("audio_ids", PStr audio_ids)];
              req_params := [("act", PStr "reload_audios")];
              req_allow_redirects := true |}.

(** the requests [get_iter] sends to [m.vk.com/audio] *)
Definition is_load_section (r : request) : bool :=
  String.eqb (req_url r) "https://m.vk.com/audio".

Definition load_sections_of (t : list event) : list request :=
  filter is_load_section (requests_of t).

(** ** More of the module: the other methods *)

(** what one answer to [reload_audios] holds for [scrap_tracks]:
    [result['payload'][1][0]], and nothing when [result['payload']] is
    falsy *)
Definition answer_audios (a : response) : result (list pyval) :=
  (let? result := json_of a in
   let? payload := getkey result "payload" in
   if truthy payload then
     let? p1 := getidx payload 1 in
     let? data_audio := getidx p1 0 in
     py_iter data_audio
   else Ok [])%result.

(** [list(g)] for a generator [g] of tracks: the tracks it yields, once it
    has come to its end; what the generator raises, [list] raises *)
Definition py_list (g : M unit) : M (list track) :=
  fun w =>
    let '(o, t, w') := g w in
    (match o with
     | Done _ => Done (yields_of t)
     | Halt h => Halt h
     end, t, w').

Section MoreMethods.
Context `{PyRuntime}.
Local Open Scope result_scope.
Local Open Scope gen_scope.

Variable self : VkAudio.

(** *** [get] *)

Definition get (owner_id album_id access_hash : pyval) : M (list track) :=
  py_list (get_iter self owner_id album_id access_hash).

(** *** [search_user] *)

Definition search_user_request (owner_id q : pyval) : request :=
  al_audio_request
    [("al", PInt 1); ("act", PStr "section"); ("claim", PInt 0);
     ("is_layer", PInt 0); ("owner_id", owner_id); ("section", PStr "search");
     ("q", q)].

Definition search_user (owner_id q : pyval) : M (list track) :=
  let owner_id := if is_none owner_id then user_id self else owner_id in
  response <- http (search_user_request owner_id q) ;;
  json_response <- lift (json_of response) ;;
  payload <- lift (getkey json_response "payload") ;;
  p1 <- lift (getidx payload 1) ;;
  if negb (truthy p1) then raise AccessDenied
  else
    p11 <- lift (getidx p1 1) ;;
    playlists <- lift (getkey p11 "playlists") ;;
    if truthy playlists then
      first <- lift (getidx playlists 0) ;;
      audio_data <- lift (getkey first "list") ;;
      ids <- lift (scrap_ids audio_data) ;;
      py_list (scrap_tracks ids (user_id self) (convert_m3u8_links self))
    else ret [].

(** *** [search_iter] and [get_news_iter] *)

Definition search_iter (q : pyval) (offset : Z) : M unit :=
  _iter_playlist_by_response self
    [("al", PInt 1); ("act", PStr "section"); ("claim", PInt 0);
     ("is_layer", PInt 0); ("owner_id", user_id self);
     ("section", PStr "search"); ("q", q)]
    ["Все треки"] offset.

Definition get_news_iter (offset : Z) : M unit :=
  _iter_playlist_by_response self
    [("al", PInt 1); ("act", PStr "section"); ("claim", PInt 0);
     ("is_layer", PInt 0); ("owner_id", user_id self);
     ("block", PStr "new_songs"); ("section", PStr "explore")]
    ["Новинки"] offset.

(** *** [get_post_audio] *)

Definition wall_post_request (owner_id post_id : pyval) : request :=
  {| req_method := GET;
     req_url := "https://m.vk.com/wall" ++ py_str owner_id ++ "_" ++ py_str post_id;
     req_data := [];
     req_params := [];
     req_allow_redirects := true |}.

(** the call returns the generator; its body runs when it is consumed *)
Definition get_post_audio (owner_id post_id : pyval) : M generator :=
  response <- http (wall_post_request owner_id post_id) ;;
  ids <- lift (scrap_ids_from_html response "class" "audios_list") ;;
  ret {| gen_ids := ids;
         gen_user_id := user_id self;
         gen_convert := convert_m3u8_links self |}.

End MoreMethods.

(** [for track in g] on a generator object made by [scrap_tracks] *)
Definition consume `{PyRuntime} (g : generator) : M unit :=
  scrap_tracks (gen_ids g) (gen_user_id g) (gen_convert g).

(** ** Audio items of a page, for the statements *)

(** an item that is not marked ['audio_item_disabled'] *)
Definition item_enabled (audio : audio_item) : bool :=
  negb (existsb (String.eqb "audio_item_disabled") (item_class audio)).

(** the tuple [scrap_ids_from_html] builds from an item *)
Definition item_full_id `{PyRuntime} (audio : audio_item)
  : result (list pyval) :=
  (let? data_audio := item_data_audio audio in
   full_id_of_html data_audio)%result.

(** a playlist of an answer of [al_audio.php] *)
Definition mk_playlist (title : string) (tracks : list pyval)
  (hasMore : bool) (id nextOffset : string) : pyval :=
  PDict [("title", PStr title);
         ("list", PList tracks);
         ("hasMore", PBool hasMore);
         ("id", PStr id);
         ("nextOffset", PStr nextOffset)].

(** ** [get_albums_iter] and [get_albums] *)

(** [not response.text]: only a body without any text is empty *)
Definition text_is_empty (r : response) : bool :=
  match r with
  | RespText s => String.eqb s ""
  | RespJson _ => false
  end.

Section Albums.
Context `{PyRuntime}.
Local Open Scope gen_scope.

Variable self : VkAudio.

(** [scrap_albums(response.text)], the albums of a page as the
    dictionaries it builds; the loop below does not look into them *)
Variable scrap_albums : response -> result (list pyval).

Definition albums_request (owner_id : pyval) (offset : Z) : request :=
  {| req_method := GET;
     req_url := "https://m.vk.com/audio?act=audio_playlists" ++ py_str owner_id;
     req_data := [];
     req_params := [("offset", PInt offset)];
     req_allow_redirects := false |}.

(** the body of [while True] in [get_albums_iter], with the albums yielded
    so far in [albums_so_far]; [fuel] bounds the turns *)
Fixpoint get_albums_loop (fuel : nat) (owner_id : pyval) (offset : Z)
  (albums_so_far : list pyval) : M (list pyval) :=
  match fuel with
  | O => out_of_fuel
  | S fuel' =>
      response <- http (albums_request owner_id offset) ;;
      if text_is_empty response then raise AccessDenied
      else
        albums <- lift (scrap_albums response) ;;
        match albums with
        | [] => ret albums_so_far
        | _ :: _ =>
            get_albums_loop fuel' owner_id (offset + ALBUMS_PER_USER_PAGE)
              (albums_so_far ++ albums)
        end
  end.

(** [get_albums]: [list(self.get_albums_iter(owner_id))] *)
Definition get_albums (owner_id : pyval) : M (list pyval) :=
  fun w =>
    let owner_id := if is_none owner_id then user_id self else owner_id in
    get_albums_loop (S (List.length (pending w))) owner_id 0 [] w.

End Albums.

(** ** Strings: [split], [rsplit] and [replace] as the module uses them *)

(** the double quote *)
Definition dquote : string := String "034"%char EmptyString.

(** The first occurrence of a non-empty [sep] in [s]: the text before it
    and the text after it, [None] when [sep] does not occur;
    [s.split(sep, 1)] is the list of the two, or [[s]]. *)
Fixpoint split_once (sep s : string) : option (string * string) :=
  match drop_prefix sep s with
  | Some rest => Some (EmptyString, rest)
  | None =>
      match s with
      | EmptyString => None
      | String c s' =>
          match split_once sep s' with
          | Some (before, rest) => Some (String c before, rest)
          | None => None
          end
      end
  end.

(** [v.split(sep, 1)[1]] *)
Definition py_split_after (sep : string) (v : pyval) : result pyval :=
  match v with
  | PStr s =>
      match split_once sep s with
      | Some (_, rest) => Ok (PStr rest)
      | None => Err IndexError
      end
  | _ => Err AttributeError
  end.

(** [v.split(sep, 1)[0]] *)
Definition py_split_before (sep : string) (v : pyval) : result pyval :=
  match v with
  | PStr s =>
      match split_once sep s with
      | Some (before, _) => Ok (PStr before)
      | None => Ok (PStr s)
      end
  | _ => Err AttributeError
  end.

(** the text before the last occurrence of a non-empty [sep] in [s] *)
Fixpoint before_last (sep s : string) : option string :=
  match s with
  | EmptyString => None
  | String c s' =>
      match before_last sep s' with
      | Some before => Some (String c before)
      | None => if prefixb sep s then Some EmptyString else None
      end
  end.

(** [s.rsplit(sep, 1)[0]] *)
Definition rsplit_head (sep s : string) : string :=
  match before_last sep s with
  | Some before => before
  | None => s
  end.

(** [s.replace(old, '')] for a non-empty [old]: the occurrences of [old]
    are taken out from the left, [skip] counting the characters of an
    occurrence still to pass *)
Fixpoint remove_from (skip : nat) (old s : string) : string :=
  match s with
  | EmptyString => EmptyString
  | String c s' =>
      match skip with
      | S n => remove_from n old s'
      | O =>
          if prefixb old s then remove_from (String.length old - 1) old s'
          else String c (remove_from 0 old s')
      end
  end.

Definition py_remove (old s : string) : string := remove_from 0 old s.

(** ** [scrap_albums_from_al] and [search_albums_iter] *)

Section AlbumsFromAl.
Context `{PyRuntime}.
Local Open Scope result_scope.
Local Open Scope gen_scope.

(** [int(s)] on a string: the number, or [None] for [ValueError] *)
Variable py_int : string -> option Z.

Definition num_delim : string :=
  "<span class=" ++ dquote ++ "num_delim" ++ dquote ++ "> </span>".

(** the [try] statement that reads the number of plays *)
Definition plays_of (stats_text : pyval) : result pyval :=
  match stats_text with
  | PStr s =>
      let text :=
        rsplit_head " " (py_remove num_delim (rsplit_head "<span" s)) in
      Ok (match py_int text with
          | Some plays => PInt plays
          | None => PNone
          end)
  | _ => Err AttributeError
  end.

Definition playlist_url (owner_id id : pyval) : string :=
  "https://m.vk.com/audio?act=audio_playlist"
  ++ py_str owner_id ++ "_" ++ py_str id.

(** the body of the loop for a raw album of type ['playlist'] *)
Definition album_of_raw (raw_album : pyval) : result pyval :=
  let? stats_text := getkey raw_album "infoLine2" in
  let? plays := plays_of stats_text in
  let? owner_id := getkey raw_album "ownerId" in
  let? id := getkey raw_album "id" in
  let? access_hash := getkey raw_album "accessHash" in
  let? title := getkey raw_album "title" in
  let? artist := getkey raw_album "authorName" in
  let? count := getkey raw_album "totalCount" in
  Ok (PDict [("id", id);
             ("owner_id", owner_id);
             ("url", PStr (playlist_url owner_id id));
             ("access_hash", access_hash);
             ("title", title);
             ("artist", artist);
             ("count", count);
             ("plays", plays)]).

Fixpoint scrap_albums_from_al_loop (playlists albums : list pyval)
  : result (list pyval) :=
  match playlists with
  | [] => Ok albums
  | raw_album :: rest =>
      let? type := getkey raw_album "type" in
      if is_str "playlist" type then
        let? album := album_of_raw raw_album in
        scrap_albums_from_al_loop rest (albums ++ [album])
      else scrap_albums_from_al_loop rest albums
  end.

Definition scrap_albums_from_al (playlists : pyval) : result (list pyval) :=
  let? items := py_iter playlists in
  scrap_albums_from_al_loop items [].

Variable self : VkAudio.

(** [json_response['payload'][1][1]['playlists']] *)
Definition playlists_of (json_response : pyval) : result pyval :=
  let? payload := getkey json_response "payload" in
  let? p1 := getidx payload 1 in
  let? p11 := getidx p1 1 in
  getkey p11 "playlists".

Definition albums_block_request (block_id : pyval) : request :=
  al_audio_request
    [("al", PInt 1); ("act", PStr "load_catalog_section");
     ("section_id", block_id)].

(** [search_albums_iter], consumed to its end: the albums it yields *)
Definition search_albums_iter (q : pyval) : M (list pyval) :=
  response <- http (search_user_request (user_id self) q) ;;
  json_response <- lift (json_of response) ;;
  payload <- lift (getkey json_response "payload") ;;
  p1 <- lift (getidx payload 1) ;;
  raw_html <- lift (getidx p1 0) ;;
  raw_html <- lift (py_split_after "CatalogSearchGlobalAlbumsHeader" raw_html) ;;
  playlists <-
    match py_split_after "/audio?section=recoms_block&type=" raw_html with
    | Err IndexError => lift (playlists_of json_response)
    | Err e => raise e
    | Ok raw_html =>
        block_id <- lift (py_split_before dquote raw_html) ;;
        response <- http (albums_block_request block_id) ;;
        json_response <- lift (json_of response) ;;
        lift (playlists_of json_response)
    end ;;
  lift (scrap_albums_from_al playlists).

End AlbumsFromAl.

(** a string in which the character [c] does not occur *)
Definition without_char (c : ascii) (s : string) : Prop :=
  string_all (fun x => negb (Ascii.eqb x c)) s = true.

(** ** [scrap_json] *)

(** [.*?]: as few characters as the rest of the pattern allows, none of
    them a newline.  This repetition and the [.*] of the pattern go byte by
    byte: what follows each of them in the pattern is an ASCII character,
    which is no part of a longer character, so the match ends where it
    ends going character by character. *)
Fixpoint m_lazy_dots {R : Type} (s : string) (k : string -> option R)
  : option R :=
  match k s with
  | Some r => Some r
  | None =>
      match s with
      | String c s' =>
          if Ascii.eqb c "010"%char then None else m_lazy_dots s' k
      | EmptyString => None
      end
  end.

Definition not_newline (c : ascii) : bool := negb (Ascii.eqb c "010"%char).

(** the pattern [new AudioPage\(.*?(\{.*\})] at the start of [s]: its
    group *)
Definition match_audio_page (s : string) : option string :=
  m_lit "new AudioPage(" s (fun s1 =>
  m_lazy_dots s1 (fun s2 =>
  m_lit "{" s2 (fun s3 =>
  m_star not_newline s3 (fun body s4 =>
  m_lit "}" s4 (fun _ =>
  Some ("{" ++ body ++ "}")%string))))).

(** [re.search(find_json_pattern, s)]: the first place of [s], from the
    left, where the pattern matches *)
Fixpoint search_audio_page (s : string) : option string :=
  match match_audio_page s with
  | Some group => Some group
  | None =>
      match s with
      | String _ s' => search_audio_page s'
      | EmptyString => None
      end
  end.

(** [re.search(...).group(1)]: without a match [search] gives [None],
    which has no [group] *)
Definition scrap_json (html_page : pyval) : result pyval :=
  match html_page with
  | PStr s =>
      match search_audio_page s with
      | Some group => Ok (PStr group)
      | None => Err AttributeError
      end
  | _ => Err TypeError
  end.

(** ** A script of pages of tracks, for the statements on [get_iter] *)

(** a page of [load_section], the answers to the [reload_audios] requests
    for its ids, and the tracks these answers hold *)
Record page_script : Type := {
  ps_page : pyval;
  ps_answers : list response;
  ps_tracks : list track
}.

Definition script_responses (pages : list page_script) : list response :=
  flat_map (fun p => RespJson (ps_page p) :: ps_answers p) pages.

(** a page with ids whose components are strings, with one answer per
    group of its ids, and whose [hasMore] is as [more] says *)
Definition page_ok `{PyRuntime} (self : VkAudio) (more : bool)
  (p : page_script) : Prop :=
  exists data data0 audio_data id ids audios hasMore,
    getkey (ps_page p) "data" = Ok data
    /\ getidx data 0 = Ok data0
    /\ truthy data0 = true
    /\ getkey data0 "list" = Ok audio_data
    /\ scrap_ids audio_data = Ok (id :: ids)
    /\ Forall (fun i => exists ss, i = map PStr ss) (id :: ids)
    /\ List.length (ps_answers p) = List.length (ids_groups (id :: ids))
    /\ map_result answer_audios (ps_answers p) = Ok audios
    /\ map_result (track_of_audio (user_id self) (convert_m3u8_links self))
         (List.concat audios) = Ok (ps_tracks p)
    /\ getkey data0 "hasMore" = Ok hasMore
    /\ truthy hasMore = more.

(* ================================================================== *)
(** * Part II: properties *)
(* ================================================================== *)

(** ** [base36encode] *)

Lemma alphabet_length : Z.of_nat (String.length alphabet) = 36%Z.
Proof. reflexivity. Qed.

Lemma index_of_alphabet_at (i : Z) :
  (0 <= i < 36)%Z -> index_of (alphabet_at i) alphabet = Some (Z.to_nat i).
Proof.
  intros Hi. unfold alphabet_at.
  assert (Hn : (Z.to_nat i < 36)%nat) by lia.
  revert Hn. generalize (Z.to_nat i) as n. intros n Hn.
  do 36 (destruct n as [|n]; [reflexivity|]).
  lia.
Qed.

(** One turn of the loop puts the digit of [number mod 36] in front, so
    reading the result from the left resumes, at the old prefix, from the
    value [number]. *)
Lemma base36_loop_value (fuel : nat) :
  forall (number : Z) (base36 : string),
    (0 <= number < 2 ^ Z.of_nat fuel)%Z ->
    exists s,
      base36_loop fuel number base36 = Some s
      /\ base36_value_from 0 s = base36_value_from number base36.
Proof.
  induction fuel as [|fuel IH]; intros number base36 Hn.
  - assert (number = 0%Z) by (change (2 ^ Z.of_nat 0)%Z with 1%Z in Hn; lia).
    subst. exists base36. split; reflexivity.
  - cbn [base36_loop]. destruct (Z.eqb_spec number 0) as [->|Hnz].
    + exists base36. split; reflexivity.
    + rewrite alphabet_length.
      pose proof (Z_div_mod number 36 eq_refl) as Hdm.
      destruct (Z.div_eucl number 36) as [q r].
      destruct Hdm as [Heq Hr].
      assert (Hq : (0 <= q < 2 ^ Z.of_nat fuel)%Z).
      { rewrite Nat2Z.inj_succ, Z.pow_succ_r in Hn by lia. lia. }
      destruct (IH q (String (alphabet_at r) base36) Hq) as (s & Hs & Hv).
      exists s. split; [exact Hs|].
      rewrite Hv. cbn [base36_value_from].
      rewrite (index_of_alphabet_at r Hr).
      rewrite Z2Nat.id by lia.
      f_equal. lia.
Qed.

(** C10. For every positive integer [n] the encoding loop of
    [base36encode] ends and produces a string whose value as a base-36
    numeral over ['0123456789abcdefghijklmnopqrstuvwxyz'] is [n] again, and
    every larger bound on the turns gives the same string; for [0] the loop
    produces the empty string. *)
Theorem base36_round_trip :
  (forall n : Z,
      (0 < n)%Z ->
      exists s,
        base36encode_loop n = Some s
        /\ base36_value s = Some n
        /\ forall fuel, (n < 2 ^ Z.of_nat fuel)%Z ->
                        base36_loop fuel n "" = Some s)
  /\ base36encode_loop 0 = Some "".
Proof.
  split; [|reflexivity].
  intros n Hn. unfold base36encode_loop.
  assert (Hlog : (0 <= n < 2 ^ Z.of_nat (S (Z.to_nat (Z.log2 n))))%Z).
  { pose proof (Z.log2_spec n Hn) as Hs. pose proof (Z.log2_nonneg n).
    rewrite Nat2Z.inj_succ, Z2Nat.id by lia. lia. }
  destruct (base36_loop_value _ n "" Hlog) as (s & Hs & Hv).
  exists s. split; [exact Hs|]. split.
  - unfold base36_value. rewrite Hv. reflexivity.
  - intros fuel Hf.
    destruct (base36_loop_value fuel n "" (conj (Z.lt_le_incl _ _ Hn) Hf))
      as (s' & Hs' & Hv').
    rewrite Hs'. f_equal.
    (* both runs are the same computation: compare them turn by turn *)
    clear Hv Hv' Hlog.
    revert Hs Hs'. generalize (S (Z.to_nat (Z.log2 n))) as fuel0.
    generalize "" as acc. revert n Hn Hf. clear.
    induction fuel as [|fuel IH]; intros n Hn Hf acc fuel0 H0 H1.
    + change (2 ^ Z.of_nat 0)%Z with 1%Z in Hf. lia.
    + destruct fuel0 as [|fuel0]; cbn [base36_loop] in H0, H1;
        destruct (Z.eqb_spec n 0) as [->|Hnz]; try lia; try discriminate.
      rewrite alphabet_length in H0, H1.
      pose proof (Z_div_mod n 36 eq_refl) as Hdm.
      destruct (Z.div_eucl n 36) as [q r]. destruct Hdm as [Heq Hr].
      destruct (Z.eqb_spec q 0) as [->|Hq].
      * destruct fuel, fuel0; cbn [base36_loop] in H0, H1;
          rewrite ?Z.eqb_refl in *; congruence.
      * apply (IH q) with (acc := String (alphabet_at r) acc) (fuel0 := fuel0);
          try assumption; try lia.
        rewrite Nat2Z.inj_succ, Z.pow_succ_r in Hf by lia. lia.
Qed.

Lemma base36_round_trip_witness :
  exists s,
    base36encode_loop 1699999999999 = Some s
    /\ base36_value s = Some 1699999999999%Z.
Proof.
  destruct (proj1 base36_round_trip 1699999999999%Z eq_refl) as (s & Hs & Hv & _).
  exists s. split; assumption.
Defined.

(** ** [scrap_ids] *)

Section ScrapingFacts.
Context `{PyRuntime}.

Lemma getidx_list (l : list pyval) (i : nat) :
  (i < List.length l)%nat -> getidx (PList l) i = Ok (nth i l PNone).
Proof.
  intros Hi. cbn [getidx].
  destruct (nth_error l i) as [x|] eqn:E.
  - rewrite (nth_error_nth _ _ PNone E). reflexivity.
  - apply nth_error_None in E. lia.
Qed.

Lemma full_id_of_list (t : list pyval) :
  (25 <= List.length t)%nat -> full_id_of (PList t) = Ok (triple_of t).
Proof.
  intros Ht. unfold full_id_of, rbind.
  rewrite !getidx_list by lia. reflexivity.
Qed.

Lemma scrap_ids_loop_spec (tracks : list (list pyval)) :
  Forall (fun t => (25 <= List.length t)%nat) tracks ->
  forall ids,
    scrap_ids_loop (map PList tracks) ids
    = Ok (ids ++ filter py_all (map triple_of tracks)).
Proof.
  induction 1 as [|t tracks Ht _ IH]; intros ids; cbn [map scrap_ids_loop filter].
  - rewrite app_nil_r. reflexivity.
  - rewrite (full_id_of_list t Ht). cbn [rbind].
    rewrite IH. destruct (py_all (triple_of t)).
    + rewrite <- app_assoc. reflexivity.
    + reflexivity.
Qed.

Lemma py_all_triple (a b c : pyval) :
  py_all [a; b; c] = truthy a && truthy b && truthy c.
Proof. cbn. rewrite andb_true_r, andb_assoc. reflexivity. Qed.

(** C5. On a list of track arrays (each with positions 0 to 24)
    [scrap_ids] returns, in the order of the input, the triples
    [(str(track[1]), str(track[0]), track[24])] of exactly the tracks whose
    three components are all truthy. *)
Theorem scrap_ids_fixed_positions (tracks : list (list pyval)) :
  Forall (fun t => (25 <= List.length t)%nat) tracks ->
  scrap_ids (PList (map PList tracks))
  = Ok (filter
          (fun id =>
             match id with
             | [a; b; c] => truthy a && truthy b && truthy c
             | _ => false
             end)
          (map (fun t => [PStr (py_str (nth 1 t PNone));
                          PStr (py_str (nth 0 t PNone));
                          nth 24 t PNone])
               tracks)).
Proof.
  intros Ht. unfold scrap_ids. cbn [py_iter rbind].
  rewrite (scrap_ids_loop_spec tracks Ht). cbn [app]. f_equal.
  clear Ht. induction tracks as [|t tracks IH]; [reflexivity|].
  cbn [map filter]. rewrite <- IH.
  unfold triple_of at 1. rewrite py_all_triple. reflexivity.
Qed.

End ScrapingFacts.

Lemma scrap_ids_fixed_positions_witness :
  @scrap_ids plain_runtime
    (PList (map PList
       [ [PInt 3; PInt 7] ++ repeat PNone 22 ++ [PStr "hc"];
         [PInt 4; PInt 7] ++ repeat PNone 22 ++ [PStr ""];
         [PInt 5; PStr ""] ++ repeat PNone 22 ++ [PStr "he"];
         [PInt 6; PInt 7] ++ repeat PNone 22 ++ [PStr "hf"] ]))
  = Ok [ [PStr "7"; PStr "3"; PStr "hc"]; [PStr "7"; PStr "6"; PStr "hf"] ].
Proof.
  rewrite (@scrap_ids_fixed_positions plain_runtime).
  - reflexivity.
  - repeat constructor.
Defined.

(** ** Runs of the generator monad *)

Lemma bind_inv {A B : Type} (m : M A) (k : A -> M B) (w w' : world)
  (o : outcome B) (t : list event) :
  bind m k w = (o, t, w') ->
  (exists a t1 w1 t2,
      m w = (Done a, t1, w1) /\ k a w1 = (o, t2, w') /\ t = t1 ++ t2)
  \/ (exists h, m w = (Halt h, t, w') /\ o = Halt h).
Proof.
  unfold bind. destruct (m w) as [[[a|h] t1] w1].
  - destruct (k a w1) as [[o2 t2] w2] eqn:Ek. intros E. inversion E; subst.
    left. exists a, t1, w1, t2. auto.
  - intros E. inversion E; subst. right. exists h. auto.
Qed.

Lemma bind_done {A B : Type} (m : M A) (k : A -> M B) (w w1 : world)
  (a : A) (t1 : list event) :
  m w = (Done a, t1, w1) ->
  bind m k w = let '(o, t2, w2) := k a w1 in (o, t1 ++ t2, w2).
Proof. unfold bind. intros ->. reflexivity. Qed.

Lemma bind_halt {A B : Type} (m : M A) (k : A -> M B) (w w1 : world)
  (h : halt) (t1 : list event) :
  m w = (Halt h, t1, w1) -> bind m k w = (Halt h, t1, w1).
Proof. unfold bind. intros ->. reflexivity. Qed.

Lemma lift_ok {A B : Type} (r : result A) (a : A) (k : A -> M B) (w : world) :
  r = Ok a -> bind (lift r) k w = k a w.
Proof.
  intros ->. unfold bind, lift, ret.
  destruct (k a w) as [[o t] w']. reflexivity.
Qed.

Lemma lift_err {A B : Type} (r : result A) (e : exn) (k : A -> M B) (w : world) :
  r = Err e -> bind (lift r) k w = (Halt (Raised e), [], w).
Proof. intros ->. reflexivity. Qed.

Lemma lift_inv {A : Type} (r : result A) (w w' : world) (o : outcome A)
  (t : list event) :
  lift r w = (o, t, w') ->
  t = [] /\ w' = w
  /\ ((exists a, r = Ok a /\ o = Done a)
      \/ (exists e, r = Err e /\ o = Halt (Raised e))).
Proof.
  destruct r as [a|e]; cbn; intros E; inversion E; subst; repeat split.
  - left. eauto.
  - right. eauto.
Qed.

Lemma http_inv (r : request) (w w' : world) (o : outcome response)
  (t : list event) :
  http r w = (o, t, w') ->
  t = [EvRequest r]
  /\ ((pending w = [] /\ o = Halt Starved /\ w' = w)
      \/ (exists a rest,
             pending w = a :: rest /\ o = Done a
             /\ w' = {| pending := rest; auth_plan := auth_plan w |})).
Proof.
  unfold http. destruct (pending w) as [|a rest] eqn:E; intros E'; inversion E'; subst.
  - split; [reflexivity|]. left. auto.
  - split; [reflexivity|]. right. exists a, rest. auto.
Qed.

(** Splitting a run at a bind: either the first part is done with [a],
    trace [t1] and world [w1] and the rest runs from there with trace
    [t2], or the first part halts with [h]. *)
Tactic Notation "split_run" hyp(H) "as"
  ident(a) ident(t1) ident(w1) ident(t2) ident(Hm) ident(Hk) ident(h) :=
  apply bind_inv in H;
  destruct H as [(a & t1 & w1 & t2 & Hm & Hk & ->) | (h & Hm & ->)].

(** ** Batches of ten *)

Lemma firstn_add {A : Type} (a b : nat) (l : list A) :
  firstn (a + b) l = firstn a l ++ firstn b (skipn a l).
Proof.
  revert l. induction a as [|a IH]; intros l; [reflexivity|].
  destruct l as [|x l]; cbn [Nat.add firstn skipn app].
  - rewrite firstn_nil. reflexivity.
  - rewrite IH. reflexivity.
Qed.

Lemma ids_groups_eq {A : Type} (ids : list A) :
  ids_groups ids
  = map (fun k => firstn 10 (skipn (k * 10) ids))
        (seq 0 ((List.length ids + 9) / 10)).
Proof.
  unfold ids_groups, py_range0, py_slice. rewrite map_map.
  replace (List.length ids + 10 - 1)%nat with (List.length ids + 9)%nat by lia.
  apply map_ext. intros k. f_equal. lia.
Qed.

Lemma concat_chunks {A : Type} (l : list A) (m : nat) :
  forall a,
    List.concat (map (fun k => firstn 10 (skipn (k * 10) l)) (seq a m))
    = firstn (m * 10) (skipn (a * 10) l).
Proof.
  induction m as [|m IH]; intros a; [reflexivity|].
  cbn [seq map List.concat]. rewrite IH.
  replace (S a * 10)%nat with (10 + a * 10)%nat by lia.
  rewrite <- skipn_skipn.
  replace (S m * 10)%nat with (10 + m * 10)%nat by lia.
  rewrite firstn_add. reflexivity.
Qed.

Lemma ceil_div_10 (n : nat) :
  (n <= (n + 9) / 10 * 10 /\ (n + 9) / 10 * 10 < n + 10)%nat.
Proof.
  pose proof (Nat.div_mod_eq (n + 9) 10) as E.
  pose proof (Nat.mod_upper_bound (n + 9) 10 ltac:(lia)) as U.
  lia.
Qed.

Lemma ids_groups_concat {A : Type} (ids : list A) :
  List.concat (ids_groups ids) = ids.
Proof.
  rewrite ids_groups_eq, concat_chunks. cbn [Nat.mul skipn].
  apply firstn_all2. apply ceil_div_10.
Qed.

Lemma ids_groups_length {A : Type} (ids : list A) :
  List.length (ids_groups ids) = ((List.length ids + 9) / 10)%nat.
Proof. rewrite ids_groups_eq, length_map, length_seq. reflexivity. Qed.

Lemma ids_groups_nth {A : Type} (ids : list A) (k : nat) :
  (k < List.length (ids_groups ids))%nat ->
  nth k (ids_groups ids) [] = firstn 10 (skipn (k * 10) ids).
Proof.
  rewrite ids_groups_length. intros Hk. rewrite ids_groups_eq.
  rewrite (nth_indep _ [] (firstn 10 (skipn (0 * 10) ids)))
    by (rewrite length_map, length_seq; exact Hk).
  rewrite (map_nth (fun k => firstn 10 (skipn (k * 10) ids))).
  rewrite seq_nth by exact Hk. reflexivity.
Qed.

Lemma ids_groups_at_most_10 {A : Type} (ids : list A) :
  Forall (fun g => (List.length g <= 10)%nat) (ids_groups ids).
Proof.
  rewrite ids_groups_eq. apply Forall_forall. intros g Hg.
  apply in_map_iff in Hg. destruct Hg as (k & <- & _).
  apply firstn_le_length.
Qed.

Lemma ids_groups_full {A : Type} (ids : list A) (k : nat) :
  (S k < List.length (ids_groups ids))%nat ->
  List.length (nth k (ids_groups ids) []) = 10%nat.
Proof.
  intros Hk. rewrite ids_groups_nth by lia.
  rewrite ids_groups_length in Hk.
  pose proof (ceil_div_10 (List.length ids)) as [_ Hc].
  rewrite length_firstn, length_skipn. lia.
Qed.

(** ** Runs of [scrap_tracks] *)

Lemma requests_of_app (t1 t2 : list event) :
  requests_of (t1 ++ t2) = requests_of t1 ++ requests_of t2.
Proof. apply flat_map_app. Qed.

Lemma yields_of_app (t1 t2 : list event) :
  yields_of (t1 ++ t2) = yields_of t1 ++ yields_of t2.
Proof. apply flat_map_app. Qed.

Section TrackRuns.
Context `{PyRuntime}.

(** [yield_tracks] touches nothing of the environment and emits one track
    for each audio, up to the first audio that raises. *)
Lemma yield_tracks_run (uid : pyval) (convert : bool) (data_audio : list pyval) :
  forall w o t w',
    yield_tracks uid convert data_audio w = (o, t, w') ->
    w' = w
    /\ (o = Done tt \/ exists e, o = Halt (Raised e))
    /\ exists ts,
         t = map EvYield ts
         /\ Forall (fun x => exists audio,
                        In audio data_audio
                        /\ track_of_audio uid convert audio = Ok x) ts.
Proof.
  induction data_audio as [|audio rest IH]; intros w o t w' Hrun.
  - inversion Hrun; subst. split; [reflexivity|]. split; [left; reflexivity|].
    exists []. split; [reflexivity|constructor].
  - cbn [yield_tracks] in Hrun.
    destruct (track_of_audio uid convert audio) as [x|e] eqn:Ex.
    + rewrite (lift_ok _ x) in Hrun by reflexivity.
      unfold bind at 1, yield in Hrun.
      destruct (yield_tracks uid convert rest w) as [[o2 t2] w2] eqn:E2.
      inversion Hrun; subst.
      destruct (IH _ _ _ _ E2) as (-> & Ho & ts & -> & Hts).
      split; [reflexivity|]. split; [exact Ho|].
      exists (x :: ts). split; [reflexivity|].
      constructor.
      * exists audio. split; [left; reflexivity|exact Ex].
      * eapply Forall_impl; [|exact Hts].
        intros y (a & Ha & Hy). exists a. split; [right; exact Ha|exact Hy].
    + rewrite (lift_err _ e) in Hrun by reflexivity.
      inversion Hrun; subst. split; [reflexivity|].
      split; [right; eauto|]. exists []. split; [reflexivity|constructor].
Qed.

(** One [reload_audios] exchange: no request when the ids cannot be
    joined, else exactly one, which takes the next answer of the script. *)
Lemma reload_audios_run (ids_group : list (list pyval)) :
  forall w o t w',
    reload_audios ids_group w = (o, t, w') ->
    auth_plan w' = auth_plan w
    /\ o <> Halt OutOfFuel
    /\ ((exists e,
            audio_ids_of ids_group = Err e /\ t = [] /\ w' = w
            /\ o = Halt (Raised e))
        \/ (exists audio_ids,
               audio_ids_of ids_group = Ok audio_ids
               /\ t = [EvRequest (reload_audios_request audio_ids)]
               /\ ((pending w = [] /\ w' = w /\ o = Halt Starved)
                   \/ (exists a rest,
                          pending w = a :: rest /\ pending w' = rest
                          /\ o <> Halt Starved)))).
Proof.
  intros w o t w' Hrun. unfold reload_audios in Hrun.
  destruct (audio_ids_of ids_group) as [audio_ids|e] eqn:Eids.
  - rewrite (lift_ok _ audio_ids) in Hrun by reflexivity.
    split_run Hrun as a t1 w1 t0 Hm Hk h.
    + apply http_inv in Hm. destruct Hm as (-> & [(_ & Hc & _) | (a0 & rest & Hp & Ha & ->)]);
        [discriminate|].
      inversion Ha; subst a0.
      assert (Hgoal : auth_plan w' = auth_plan w /\ o <> Halt OutOfFuel
                      /\ t0 = [] /\ pending w' = rest /\ o <> Halt Starved).
      { clear Hp.
        destruct (json_of a) as [result|e] eqn:Ej;
          [rewrite (lift_ok _ result) in Hk by reflexivity
          |rewrite (lift_err _ e) in Hk by reflexivity; inversion Hk; subst;
           repeat split; discriminate].
        destruct (getkey result "payload") as [payload|e] eqn:Ep;
          [rewrite (lift_ok _ payload) in Hk by reflexivity
          |rewrite (lift_err _ e) in Hk by reflexivity; inversion Hk; subst;
           repeat split; discriminate].
        destruct (truthy payload);
          [|inversion Hk; subst; repeat split; discriminate].
        destruct (getidx payload 1) as [p1|e] eqn:E1;
          [rewrite (lift_ok _ p1) in Hk by reflexivity
          |rewrite (lift_err _ e) in Hk by reflexivity; inversion Hk; subst;
           repeat split; discriminate].
        destruct (getidx p1 0) as [d|e] eqn:E0;
          [rewrite (lift_ok _ d) in Hk by reflexivity
          |rewrite (lift_err _ e) in Hk by reflexivity; inversion Hk; subst;
           repeat split; discriminate].
        destruct (py_iter d) as [l|e]; cbn in Hk; inversion Hk; subst;
          repeat split; discriminate. }
      destruct Hgoal as (Ha1 & Ho1 & -> & Hp' & Ho2).
      split; [exact Ha1|]. split; [exact Ho1|]. right.
      exists audio_ids. split; [reflexivity|]. split; [reflexivity|].
      right. exists a, rest. auto.
    + apply http_inv in Hm. destruct Hm as (-> & [(Hp & Hh & ->) | (a0 & rest & _ & Hc & _)]);
        [|discriminate].
      inversion Hh; subst h.
      split; [reflexivity|]. split; [discriminate|]. right.
      exists audio_ids. split; [reflexivity|]. split; [reflexivity|]. left. auto.
  - rewrite (lift_err _ e) in Hrun by reflexivity. inversion Hrun; subst.
    split; [reflexivity|]. split; [discriminate|]. left. exists e. auto.
Qed.

Lemma scrap_tracks_groups_run (uid : pyval) (convert : bool)
  (groups : list (list (list pyval))) :
  forall w o t w',
    scrap_tracks_groups uid convert groups w = (o, t, w') ->
    auth_plan w' = auth_plan w
    /\ (List.length (pending w') <= List.length (pending w))%nat
    /\ o <> Halt OutOfFuel
    /\ Forall reload_or_yield t
    /\ (exists k,
          (k <= List.length groups)%nat
          /\ Forall2 carries (requests_of t) (firstn k groups)
          /\ (o = Done tt -> k = List.length groups))
    /\ Forall (fun x => exists audio, track_of_audio uid convert audio = Ok x)
              (yields_of t).
Proof.
  induction groups as [|g rest IH]; intros w o t w' Hrun.
  - inversion Hrun; subst. repeat split; try constructor; try discriminate.
    exists 0%nat. repeat split; [constructor|constructor].
  - cbn [scrap_tracks_groups] in Hrun.
    split_run Hrun as data_audio t1 w1 t2 Hm Hk h.
    + destruct (reload_audios_run g _ _ _ _ Hm)
        as (Ha1 & _ & [(e & _ & _ & _ & Hc) | (ids & Hids & -> & Hans)]);
        [discriminate|].
      destruct Hans as [(_ & _ & Hc) | (a & more & Hp & Hp1 & _)]; [discriminate|].
      split_run Hk as u t3 w3 t4 Hy Hk2 h.
      * destruct (yield_tracks_run _ _ _ _ _ _ _ Hy) as (-> & _ & ts & -> & Hts).
        destruct (IH _ _ _ _ Hk2) as (Ha & Hl & Ho & Hev & (k & Hk & Hreq & Hdone) & Hys).
        split; [congruence|].
        split; [rewrite Hp; rewrite Hp1 in Hl; cbn; lia|].
        split; [exact Ho|]. split.
        { constructor; [exists ids; reflexivity|].
          apply Forall_app. split; [|exact Hev].
          apply Forall_forall. intros ev Hin. apply in_map_iff in Hin.
          destruct Hin as (x & <- & _). exact I. }
        split.
        { exists (S k). split; [cbn; lia|]. split.
          - cbn [app requests_of flat_map firstn].
            fold (requests_of (map EvYield ts ++ t4)).
            rewrite requests_of_app.
            replace (requests_of (map EvYield ts)) with (@nil request)
              by (clear; induction ts; [reflexivity|assumption]).
            constructor; [exists ids; auto|exact Hreq].
          - intros Hd. cbn. f_equal. auto. }
        cbn [app yields_of flat_map]. fold (yields_of (map EvYield ts ++ t4)).
        rewrite yields_of_app. apply Forall_app. split; [|exact Hys].
        replace (yields_of (map EvYield ts)) with ts
          by (clear; induction ts as [|x ts IHts]; [reflexivity|cbn; f_equal; exact IHts]).
        eapply Forall_impl; [|exact Hts]. intros x (au & _ & Hx). eauto.
      * destruct (yield_tracks_run _ _ _ _ _ _ _ Hy) as (-> & Hoy & ts & -> & Hts).
        split; [congruence|]. split; [rewrite Hp, Hp1; cbn; lia|].
        split; [destruct Hoy as [Hoy|(e & Hoy)]; congruence|]. split.
        { constructor; [exists ids; reflexivity|].
          apply Forall_forall. intros ev Hin. apply in_map_iff in Hin.
          destruct Hin as (x & <- & _). exact I. }
        split.
        { exists 1%nat. split; [cbn; lia|]. split.
          - cbn [app requests_of flat_map firstn].
            fold (requests_of (map EvYield ts)).
            replace (requests_of (map EvYield ts)) with (@nil request)
              by (clear; induction ts; [reflexivity|assumption]).
            constructor; [exists ids; auto|constructor].
          - discriminate. }
        cbn [app yields_of flat_map]. fold (yields_of (map EvYield ts)).
        replace (yields_of (map EvYield ts)) with ts
          by (clear; induction ts as [|x ts IHts]; [reflexivity|cbn; f_equal; exact IHts]).
        eapply Forall_impl; [|exact Hts]. intros x (au & _ & Hx). eauto.
    + destruct (reload_audios_run g _ _ _ _ Hm)
        as (Ha1 & Ho1 & [(e & _ & -> & -> & _) | (ids & Hids & -> & Hans)]).
      * assert (Hh : @Halt unit h <> Halt OutOfFuel)
          by (intros Hc; inversion Hc; subst; apply Ho1; reflexivity).
        repeat split; try constructor; try assumption; try lia.
        exists 0%nat. repeat split; [cbn; lia|constructor|discriminate].
      * assert (Hh : @Halt unit h <> Halt OutOfFuel)
          by (intros Hc; inversion Hc; subst; apply Ho1; reflexivity).
        split; [exact Ha1|]. split.
        { destruct Hans as [(_ & -> & _) | (a & more & Hp & Hp1 & _)];
            [lia|rewrite Hp, Hp1; cbn; lia]. }
        split; [exact Hh|]. split; [repeat constructor; exists ids; reflexivity|].
        split; [|constructor].
        exists 1%nat. split; [cbn; lia|]. split; [|discriminate].
        cbn. constructor; [exists ids; auto|constructor].
Qed.

Lemma track_of_audio_url (uid : pyval) (convert : bool) (audio : pyval) (x : track) :
  track_of_audio uid convert audio = Ok x ->
  exists raw link,
    getidx audio 2 = Ok raw
    /\ decoded_link uid raw = Ok link
    /\ converted_link convert link = Ok (t_url x).
Proof.
  unfold track_of_audio, rbind.
  repeat match goal with
         | |- match ?r with Ok _ => _ | Err _ => _ end = _ -> _ =>
             let E := fresh "E" in destruct r eqn:E; [|discriminate]
         end.
  intros Hx. inversion Hx; subst; cbn [t_url]. eauto.
Qed.

End TrackRuns.

Lemma all_strings_PStr (ss : list string) : all_strings (map PStr ss) = Ok ss.
Proof.
  induction ss as [|s ss IH]; [reflexivity|].
  cbn [map all_strings]. rewrite IH. reflexivity.
Qed.

Lemma audio_ids_of_strings (sids : list (list string)) :
  audio_ids_of (map (map PStr) sids) = Ok (join "," (map (join "_") sids)).
Proof.
  unfold audio_ids_of.
  assert (E : map_result (py_join "_") (map (map PStr) sids)
              = Ok (map (join "_") sids)).
  { induction sids as [|i sids IH]; [reflexivity|].
    cbn [map map_result]. unfold py_join at 1.
    rewrite all_strings_PStr, IH. reflexivity. }
  rewrite E. reflexivity.
Qed.

(** C8. [scrap_tracks] cuts its [n] ids, in order, into consecutive groups:
    the groups put together give the ids back, there are [ceil(n/10)] of
    them (written [(n + 9) / 10]), none has more than 10 ids and every one
    but the last has exactly 10.  The requests a run issues are, in order,
    the [reload_audios] requests of the first groups, one for each of the
    first [k] groups and no other, each with its group joined as
    ['owner_audio_hash'] strings separated by commas in its [audio_ids]
    field; a run that reaches its end has issued one for every group,
    [ceil(n/10)] in all. *)
Theorem scrap_tracks_batching `{PyRuntime}
  (ids : list (list pyval)) (uid : pyval) (convert : bool) (w : world) :
  let groups := ids_groups ids in
  let n := List.length ids in
  List.concat groups = ids
  /\ List.length groups = ((n + 9) / 10)%nat
  /\ Forall (fun g => (List.length g <= 10)%nat) groups
  /\ (forall k, (S k < List.length groups)%nat ->
                List.length (nth k groups []) = 10%nat)
  /\ (forall sids : list (list string),
         audio_ids_of (map (map PStr) sids)
         = Ok (join "," (map (join "_") sids)))
  /\ (forall o t w',
         scrap_tracks ids uid convert w = (o, t, w') ->
         (exists k,
             (k <= List.length groups)%nat
             /\ Forall2 carries (requests_of t) (firstn k groups)
             /\ List.length (requests_of t) = k)
         /\ (o = Done tt ->
             Forall2 carries (requests_of t) groups
             /\ List.length (requests_of t) = ((n + 9) / 10)%nat)).
Proof.
  intros groups n.
  split; [apply ids_groups_concat|].
  split; [apply ids_groups_length|].
  split; [apply ids_groups_at_most_10|].
  split; [apply ids_groups_full|].
  split; [apply audio_ids_of_strings|].
  intros o t w' Hrun. unfold scrap_tracks in Hrun.
  destruct (scrap_tracks_groups_run _ _ _ _ _ _ _ Hrun)
    as (_ & _ & _ & _ & (k & Hk & Hreq & Hdone) & _).
  split.
  { exists k. split; [exact Hk|]. split; [exact Hreq|].
    rewrite (Forall2_length Hreq). apply firstn_length_le. exact Hk. }
  intros Ho. specialize (Hdone Ho). subst k.
  fold groups in Hreq. rewrite firstn_all in Hreq.
  split; [exact Hreq|].
  rewrite (Forall2_length Hreq). apply ids_groups_length.
Qed.

(** ** The matcher of [RE_M3U8_TO_MP3] *)

Section MatcherSpec.
Local Open Scope string_scope.

Lemma append_assoc (a b c : string) : (a ++ b) ++ c = a ++ (b ++ c).
Proof. induction a as [|x a IH]; cbn; [reflexivity|rewrite IH; reflexivity]. Qed.

Lemma length_append (a b : string) :
  String.length (a ++ b) = (String.length a + String.length b)%nat.
Proof. induction a as [|x a IH]; cbn; [reflexivity|rewrite IH; reflexivity]. Qed.

Lemma drop_prefix_inv (p s rest : string) :
  drop_prefix p s = Some rest -> s = p ++ rest.
Proof.
  revert s. induction p as [|a p IH]; intros s Hd; cbn in Hd.
  - inversion Hd. reflexivity.
  - destruct s as [|b s]; [discriminate|].
    destruct (Ascii.eqb_spec a b) as [->|]; [|discriminate].
    cbn. f_equal. apply IH. exact Hd.
Qed.

Lemma drop_prefix_app (p rest : string) : drop_prefix p (p ++ rest) = Some rest.
Proof.
  induction p as [|a p IH]; cbn; [reflexivity|].
  rewrite Ascii.eqb_refl. exact IH.
Qed.

Section MatcherFacts.
Context {R : Type}.

Lemma m_lit_inv (p s : string) (k : string -> option R) (r : R) :
  m_lit p s k = Some r -> exists rest, s = p ++ rest /\ k rest = Some r.
Proof.
  unfold m_lit. destruct (drop_prefix p s) as [rest|] eqn:E; [|discriminate].
  intros Hk. exists rest. split; [apply drop_prefix_inv; exact E|exact Hk].
Qed.

Lemma m_star_inv (cls : ascii -> bool) (s : string) :
  forall (k : string -> string -> option R) (r : R),
    m_star cls s k = Some r ->
    exists m rest,
      s = m ++ rest /\ string_all cls m = true /\ k m rest = Some r.
Proof.
  induction s as [|c s IH]; intros k r Hm; cbn [m_star] in Hm.
  - exists "", "". auto.
  - destruct (cls c) eqn:Ec; [|exists "", (String c s); auto].
    destruct (m_star cls s (fun m rest => k (String c m) rest)) as [r'|] eqn:E.
    + inversion Hm; subst r'.
      destruct (IH _ _ E) as (m & rest & -> & Hall & Hk).
      exists (String c m), rest. cbn. rewrite Ec, Hall. auto.
    + exists "", (String c s). auto.
Qed.

Lemma m_plus_inv (cls : ascii -> bool) (s : string)
  (k : string -> string -> option R) (r : R) :
  m_plus cls s k = Some r ->
  exists m rest,
    s = m ++ rest /\ m <> "" /\ string_all cls m = true /\ k m rest = Some r.
Proof.
  unfold m_plus. destruct s as [|c s]; [discriminate|].
  destruct (cls c) eqn:Ec; [|discriminate].
  intros Hm. destruct (m_star_inv _ _ _ _ Hm) as (m & rest & -> & Hall & Hk).
  exists (String c m), rest. cbn. rewrite Ec, Hall.
  repeat split; [discriminate|exact Hk].
Qed.

Lemma m_opt_inv (p s : string) (k : option string -> string -> option R) (r : R) :
  m_opt p s k = Some r ->
  exists g rest,
    s = group_text g ++ rest /\ (g = Some p \/ g = None) /\ k g rest = Some r.
Proof.
  unfold m_opt. destruct (drop_prefix p s) as [rest|] eqn:E.
  - destruct (k (Some p) rest) as [r'|] eqn:Ek.
    + intros Hr. inversion Hr; subst r'. exists (Some p), rest.
      split; [apply drop_prefix_inv; exact E|]. auto.
    + intros Hk. exists None, s. auto.
  - intros Hk. exists None, s. auto.
Qed.

Lemma span_continuation_inv (s g rest : string) :
  span_continuation s = (g, rest) ->
  s = g ++ rest /\ string_all is_continuation g = true.
Proof.
  revert g. induction s as [|c s IH]; intros g Hs; cbn [span_continuation] in Hs.
  - inversion Hs. auto.
  - destruct (is_continuation c) eqn:Ec.
    + destruct (span_continuation s) as [g' rest'].
      inversion Hs; subst g rest'.
      destruct (IH g' eq_refl) as (-> & Hall).
      cbn [append string_all]. rewrite Ec, Hall. auto.
    + inversion Hs. auto.
Qed.

Lemma span_continuation_app (g rest : string) :
  string_all is_continuation g = true ->
  (rest = "" \/ exists c rest', rest = String c rest' /\ is_continuation c = false) ->
  span_continuation (g ++ rest) = (g, rest).
Proof.
  intros Hall Hrest. induction g as [|b g IH].
  - cbn [append]. destruct Hrest as [->|(c & rest' & -> & Hc)]; [reflexivity|].
    cbn [span_continuation]. rewrite Hc. reflexivity.
  - cbn [string_all] in Hall. apply andb_prop in Hall. destruct Hall as [Hb Hall].
    cbn [append span_continuation]. rewrite Hb, (IH Hall). reflexivity.
Qed.

Lemma m_dot_inv (s : string) (k : string -> string -> option R) (r : R) :
  m_dot s k = Some r ->
  exists c rest,
    s = c ++ rest /\ code_point c /\ c <> newline /\ k c rest = Some r.
Proof.
  unfold m_dot, next_code_point. destruct s as [|b s]; [discriminate|].
  destruct (span_continuation s) as [g rest] eqn:Es.
  destruct (String.eqb_spec (String b g) newline) as [|Hc]; [discriminate|].
  intros Hk. destruct (span_continuation_inv _ _ _ Es) as (-> & Hall).
  exists (String b g), rest. repeat split; try assumption.
  exists b, g. auto.
Qed.

Lemma m_dot_code_point (c rest : string) (k : string -> string -> option R) :
  code_point c -> c <> newline ->
  (rest = "" \/ exists a rest', rest = String a rest' /\ is_continuation a = false) ->
  m_dot (c ++ rest) k = k c rest.
Proof.
  intros (b & g & -> & Hall) Hc Hrest. unfold m_dot, next_code_point.
  cbn [append]. rewrite (span_continuation_app g rest Hall Hrest).
  destruct (String.eqb_spec (String b g) newline); [contradiction|reflexivity].
Qed.

End MatcherFacts.

(** What [match_m3u8] finds at the start of a string is an instance of the
    pattern, followed by the rest of the string. *)
Lemma match_m3u8_sound (s : string) (m : m3u8_match) :
  match_m3u8 s = Some m ->
  exists text,
    s = text ++ after m /\ m3u8_instance text (group1 m) (group2 m).
Proof.
  unfold match_m3u8. intros Hm.
  apply m_lit_inv in Hm. destruct Hm as (s1 & -> & Hm).
  apply m_plus_inv in Hm. destruct Hm as (h1 & s2 & -> & Hh1 & Hall1 & Hm).
  apply m_opt_inv in Hm. destruct Hm as (g1 & s3 & -> & Hg1 & Hm).
  apply m_lit_inv in Hm. destruct Hm as (s4 & -> & Hm).
  apply m_plus_inv in Hm. destruct Hm as (g2 & s5 & -> & Hg2 & Hall2 & Hm).
  apply m_lit_inv in Hm. destruct Hm as (s6 & -> & Hm).
  apply m_dot_inv in Hm. destruct Hm as (c & s7 & -> & Hcp & Hc & Hm).
  apply m_lit_inv in Hm. destruct Hm as (rest & -> & Hm).
  inversion Hm; subst m; cbn [group1 group2 after].
  exists ("/" ++ h1 ++ group_text g1 ++ "/" ++ g2 ++ "/index" ++ c ++ "m3u8").
  split.
  - rewrite !append_assoc. reflexivity.
  - exists h1, c. repeat split; assumption.
Qed.

Lemma re_sub_from_skip (pre rest : string) :
  re_sub_from (String.length pre) (pre ++ rest) = re_sub_from 0 rest.
Proof.
  induction pre as [|c pre IH]; cbn [String.length append].
  - reflexivity.
  - cbn [re_sub_from]. exact IH.
Qed.

(** The three equations of a substitution that replaces, from the left,
    the matches that do not overlap. *)
Lemma RE_M3U8_TO_MP3_sub_equations :
  RE_M3U8_TO_MP3_sub "" = ""
  /\ (forall s m,
         match_m3u8 s = Some m ->
         RE_M3U8_TO_MP3_sub s = expand_mp3 m ++ RE_M3U8_TO_MP3_sub (after m))
  /\ (forall c s,
         match_m3u8 (String c s) = None ->
         RE_M3U8_TO_MP3_sub (String c s) = String c (RE_M3U8_TO_MP3_sub s)).
Proof.
  split; [reflexivity|]. split.
  - intros s m Hm. unfold RE_M3U8_TO_MP3_sub.
    destruct (match_m3u8_sound s m Hm)
      as (text & Hs & (h1 & c & _ & _ & _ & _ & _ & Ht)).
    destruct text as [|c0 text]; [cbn in Ht; discriminate|].
    subst s. cbn [append re_sub_from]. cbn [append] in Hm. rewrite Hm.
    f_equal.
    replace (String.length (String c0 (text ++ after m))
             - String.length (after m) - 1)%nat
      with (String.length text)
      by (cbn [String.length]; rewrite length_append; lia).
    apply re_sub_from_skip.
  - intros c s Hm. unfold RE_M3U8_TO_MP3_sub. cbn [re_sub_from].
    rewrite Hm. reflexivity.
Qed.

Example RE_M3U8_TO_MP3_sub_audios :
  RE_M3U8_TO_MP3_sub
    "https://psv4.vkuseraudio.net/audio/ee/0a1b2c3d4e/audios/f00dbabe/index.m3u8?extra=abc"
  = "https://psv4.vkuseraudio.net/audio/ee/audios/f00dbabe.mp3?extra=abc".
Proof. reflexivity. Qed.

Example RE_M3U8_TO_MP3_sub_plain :
  RE_M3U8_TO_MP3_sub "https://cs1.vkuseraudio.net/s/v1/ac/abc123/def456/index.m3u8?x=1"
  = "https://cs1.vkuseraudio.net/s/v1/ac/def456.mp3?x=1".
Proof. reflexivity. Qed.

Example RE_M3U8_TO_MP3_sub_no_match :
  RE_M3U8_TO_MP3_sub "https://h/ab/audios/index.m3u8" = "https://h/ab/audios/index.m3u8".
Proof. reflexivity. Qed.

(** A greedy repetition stops at the first character outside the class,
    and what follows is tried there first. *)
Lemma m_star_max {R : Type} (cls : ascii -> bool) (m rest : string) :
  forall (k : string -> string -> option R) (r : R),
    string_all cls m = true ->
    (rest = "" \/ exists c rest', rest = String c rest' /\ cls c = false) ->
    k m rest = Some r ->
    m_star cls (m ++ rest) k = Some r.
Proof.
  induction m as [|a m IH]; intros k r Hall Hrest Hk.
  - cbn [append]. destruct Hrest as [->|(c & rest' & -> & Hc)]; cbn [m_star].
    + exact Hk.
    + rewrite Hc. exact Hk.
  - cbn in Hall. apply andb_prop in Hall. destruct Hall as [Ha Hall].
    cbn [append m_star]. rewrite Ha.
    rewrite (IH (fun x y => k (String a x) y) r Hall Hrest Hk). reflexivity.
Qed.

Lemma m_plus_max {R : Type} (cls : ascii -> bool) (m rest : string)
  (k : string -> string -> option R) (r : R) :
  m <> "" ->
  string_all cls m = true ->
  (rest = "" \/ exists c rest', rest = String c rest' /\ cls c = false) ->
  k m rest = Some r ->
  m_plus cls (m ++ rest) k = Some r.
Proof.
  intros Hm Hall Hrest Hk. destruct m as [|a m]; [congruence|].
  cbn in Hall. apply andb_prop in Hall. destruct Hall as [Ha Hall].
  cbn [append m_plus]. rewrite Ha.
  apply (m_star_max cls m rest (fun x y => k (String a x) y)); assumption.
Qed.

Lemma no_audios_in_hex (g2 x : string) :
  hex_run g2 -> drop_prefix "/audios" ("/" ++ g2 ++ "/index" ++ x) = None.
Proof.
  intros [Hne Hall]. destruct g2 as [|a g2]; [congruence|].
  cbn [append drop_prefix]. rewrite Ascii.eqb_refl.
  destruct (Ascii.eqb "a" a); [|reflexivity].
  destruct g2 as [|b g2]; [reflexivity|].
  cbn [append drop_prefix].
  destruct (Ascii.eqb_spec "u"%char b) as [<-|]; [|reflexivity].
  cbn in Hall. rewrite andb_false_r in Hall. discriminate.
Qed.

(** An instance of the pattern at the start of a string is matched, with
    its groups. *)
Lemma match_m3u8_complete (text rest : string) (g1 : option string) (g2 : string) :
  m3u8_instance text g1 g2 ->
  match_m3u8 (text ++ rest)
  = Some {| group1 := g1; group2 := g2; after := rest |}.
Proof.
  intros (h1 & c & [Hh1 Hall1] & [Hg2 Hall2] & Hg1 & Hcp & Hc & ->).
  rewrite !append_assoc. unfold match_m3u8.
  unfold m_lit at 1. rewrite drop_prefix_app.
  assert (Htail : forall x,
             m_lit "/" ("/" ++ g2 ++ "/index" ++ c ++ "m3u8" ++ x)
               (fun s4 => m_plus is_hex s4 (fun g s5 =>
                  m_lit "/index" s5 (fun s6 =>
                  m_dot s6 (fun _ s7 =>
                  m_lit "m3u8" s7 (fun rest0 =>
                  Some {| group1 := g1; group2 := g; after := rest0 |})))))
             = Some {| group1 := g1; group2 := g2; after := x |}).
  { intros x. unfold m_lit at 1. rewrite drop_prefix_app.
    apply m_plus_max; try assumption.
    - right. exists "/"%char, ("index" ++ c ++ "m3u8" ++ x). auto.
    - unfold m_lit at 1. rewrite drop_prefix_app.
      rewrite m_dot_code_point; try assumption.
      + unfold m_lit. rewrite (drop_prefix_app "m3u8" x). reflexivity.
      + right. exists "m"%char, ("3u8" ++ x). auto. }
  apply m_plus_max; try assumption.
  - right. destruct Hg1 as [->| ->]; cbn [group_text append]; eauto.
  - unfold m_opt. destruct Hg1 as [->| ->]; cbn [group_text].
    + rewrite drop_prefix_app, Htail. reflexivity.
    + change ("" ++ "/" ++ g2 ++ "/index" ++ c ++ "m3u8" ++ rest)
        with ("/" ++ g2 ++ "/index" ++ c ++ "m3u8" ++ rest).
      rewrite (no_audios_in_hex g2 (c ++ "m3u8" ++ rest))
        by (split; assumption).
      apply Htail.
Qed.

End MatcherSpec.

(** ** [get_iter] *)

(** One step of a run that starts with a look-up: the look-up succeeds and
    the run goes on, or it raises and the run is over. *)
Ltac step_lift H :=
  match type of H with
  | bind (lift ?r) _ _ = _ =>
      let E := fresh "E" in
      destruct r eqn:E;
      [ rewrite (lift_ok (Ok _) _ _ _ eq_refl) in H
      | rewrite (lift_err (Err _) _ _ _ eq_refl) in H;
        inversion H; subst; clear H ]
  end.

Lemma load_sections_of_app (t1 t2 : list event) :
  load_sections_of (t1 ++ t2) = load_sections_of t1 ++ load_sections_of t2.
Proof.
  unfold load_sections_of. rewrite requests_of_app. apply filter_app.
Qed.

Lemma load_sections_of_tracks (t : list event) :
  Forall reload_or_yield t -> load_sections_of t = [].
Proof.
  induction 1 as [|e t He _ IH]; [reflexivity|].
  change (e :: t) with ([e] ++ t). rewrite load_sections_of_app, IH, app_nil_r.
  destruct e as [r| |]; try reflexivity.
  destruct He as (ids & ->). reflexivity.
Qed.

Lemma load_sections_of_page (owner_id album_id access_hash : pyval) (offset : Z) :
  load_sections_of
    [EvRequest (load_section_request owner_id album_id access_hash offset)]
  = [load_section_request owner_id album_id access_hash offset].
Proof. reflexivity. Qed.

Lemma map_seq_succ {A : Type} (f : nat -> A) (n : nat) :
  map f (seq 0 (S n)) = f 0%nat :: map (fun k => f (S k)) (seq 0 n).
Proof. cbn [seq map]. f_equal. rewrite <- seq_shift, map_map. reflexivity. Qed.

Section GetIterFacts.
Context `{PyRuntime}.
Variable self : VkAudio.
Variables owner_id album_id access_hash : pyval.
Variable offset_diff : Z.

Let page (offset : Z) : request :=
  load_section_request owner_id album_id access_hash offset.

Lemma get_iter_loop_run (fuel : nat) :
  forall offset w o t w',
    get_iter_loop self fuel owner_id album_id access_hash offset_diff offset w
    = (o, t, w') ->
    ((List.length (pending w) < fuel)%nat -> o <> Halt OutOfFuel)
    /\ exists n,
         load_sections_of t
         = map (fun k => page (offset + offset_diff * Z.of_nat k)) (seq 0 n).
Proof.
  induction fuel as [|fuel IH]; intros offset w o t w' Hrun.
  - inversion Hrun; subst. split; [lia|]. exists 0%nat. reflexivity.
  - cbn [get_iter_loop] in Hrun.
    split_run Hrun as r t1 w1 t2 Hm Hk h.
    + apply http_inv in Hm.
      destruct Hm as (-> & [(_ & Hc & _) | (a & rest & Hp & Ha & ->)]);
        [discriminate|].
      inversion Ha; subst a. clear Ha.
      assert (Hrest :
                ((List.length rest < fuel)%nat -> o <> Halt OutOfFuel)
                /\ exists n,
                     load_sections_of t2
                     = map (fun k => page (offset + offset_diff
                                           + offset_diff * Z.of_nat k))
                           (seq 0 n)).
      { assert (Hquiet : forall e : halt,
                   e <> OutOfFuel ->
                   ((List.length rest < fuel)%nat -> @Halt unit e <> Halt OutOfFuel)
                   /\ exists n,
                        load_sections_of []
                        = map (fun k => page (offset + offset_diff
                                              + offset_diff * Z.of_nat k))
                              (seq 0 n)).
        { intros e He. split; [congruence|]. exists 0%nat. reflexivity. }
        step_lift Hk; [|apply Hquiet; discriminate].
        step_lift Hk; [|apply Hquiet; discriminate].
        step_lift Hk; [|apply Hquiet; discriminate].
        destruct (truthy a1);
          [|inversion Hk; subst; apply Hquiet; discriminate].
        cbn [negb] in Hk.
        step_lift Hk; [|apply Hquiet; discriminate].
        step_lift Hk; [|apply Hquiet; discriminate].
        destruct a3 as [|id ids].
        { inversion Hk; subst. split; [discriminate|]. exists 0%nat. reflexivity. }
        split_run Hk as u t3 w3 t4 Hs Hk2 h.
        - unfold scrap_tracks in Hs.
          destruct (scrap_tracks_groups_run _ _ _ _ _ _ _ Hs)
            as (_ & Hlen & _ & Hev & _ & _).
          cbn [pending] in Hlen.
          rewrite load_sections_of_app, (load_sections_of_tracks _ Hev).
          cbn [app].
          step_lift Hk2;
            [|split; [discriminate|exists 0%nat; reflexivity]].
          destruct (truthy a3).
          + destruct (IH _ _ _ _ _ Hk2) as (Hfuel & n & Hn).
            split; [intros Hlt; apply Hfuel; lia|].
            exists n. exact Hn.
          + inversion Hk2; subst. split; [discriminate|].
            exists 0%nat. reflexivity.
        - unfold scrap_tracks in Hs.
          destruct (scrap_tracks_groups_run _ _ _ _ _ _ _ Hs)
            as (_ & _ & Ho & Hev & _ & _).
          rewrite (load_sections_of_tracks _ Hev).
          split; [intros _ Hc; inversion Hc; subst; apply Ho; reflexivity|].
          exists 0%nat. reflexivity. }
      destruct Hrest as (Hfuel & n & Hn).
      split; [intros Hlt; apply Hfuel; rewrite Hp in Hlt; cbn in Hlt; lia|].
      exists (S n). rewrite map_seq_succ.
      change (EvRequest (load_section_request owner_id album_id access_hash offset)
              :: t2)
        with ([EvRequest (page offset)] ++ t2).
      rewrite load_sections_of_app, Hn.
      unfold page. rewrite load_sections_of_page.
      rewrite Z.mul_0_r, Z.add_0_r. cbn [app]. f_equal.
      apply map_ext. intros k. f_equal. lia.
    + apply http_inv in Hm.
      destruct Hm as (-> & [(_ & Hh & ->) | (a & rest & _ & Hc & _)]);
        [|discriminate].
      inversion Hh; subst h.
      split; [discriminate|]. exists 1%nat. cbn. rewrite Z.mul_0_r, Z.add_0_r.
      reflexivity.
Qed.

End GetIterFacts.

Lemma bind_http {B : Type} (req : request) (k : response -> M B)
  (w : world) (a : response) (rest : list response) :
  pending w = a :: rest ->
  bind (http req) k w
  = let '(o, t, w') := k a {| pending := rest; auth_plan := auth_plan w |} in
    (o, EvRequest req :: t, w').
Proof.
  intros Hp. unfold bind, http. rewrite Hp. reflexivity.
Qed.

Lemma bind_http_starved {B : Type} (req : request) (k : response -> M B)
  (w : world) :
  pending w = [] ->
  bind (http req) k w = (Halt Starved, [EvRequest req], w).
Proof.
  intros Hp. unfold bind, http. rewrite Hp. reflexivity.
Qed.

(** C4. [get_iter] pages with a fixed step.  The step is
    [TRACKS_PER_ALBUM_PAGE] when [album_id] is given and
    [TRACKS_PER_USER_PAGE] otherwise, 2000 both.  In every run the
    [load_section] requests, written out below with all their fields, are
    in order those of the offsets [0, step, 2 * step, ...]: these are the
    values of their [offset] fields.  The loop never outlasts the bound on
    its turns.  One turn of the loop, on the answer it gets: it raises
    [AccessDenied] when [data[0]] is falsy; it ends without a further
    request when no ids are scraped; after the tracks of the page it ends
    when [hasMore] is falsy and goes on with [offset + step] when
    [hasMore] is truthy. *)
Theorem get_iter_pagination `{PyRuntime}
  (self : VkAudio) (owner_id album_id access_hash : pyval) :
  let owner := if is_none owner_id then user_id self else owner_id in
  let step :=
    if is_none album_id then TRACKS_PER_USER_PAGE else TRACKS_PER_ALBUM_PAGE in
  let page := fun offset =>
    {| req_method := POST;
       req_url := "https://m.vk.com/audio";
       req_data :=
         [("act", PStr "load_section");
          ("owner_id", owner);
          ("playlist_id", if truthy album_id then album_id else PInt (-1));
          ("offset", PInt offset);
          ("type", PStr "playlist");
          ("access_hash", access_hash);
          ("is_loading_all", PInt 1)];
       req_params := [];
       req_allow_redirects := false |} in
  let loop := fun fuel offset =>
    get_iter_loop self fuel owner album_id access_hash step offset in
  step = 2000%Z
  /\ (forall w o t w',
         get_iter self owner_id album_id access_hash w = (o, t, w') ->
         o <> Halt OutOfFuel
         /\ exists n,
              load_sections_of t
              = map (fun k => page (step * Z.of_nat k)%Z) (seq 0 n)
              /\ map (fun r => assoc "offset" (req_data r)) (load_sections_of t)
                 = map (fun k => Some (PInt (step * Z.of_nat k))) (seq 0 n))
  /\ (forall fuel offset w response rest data data0,
         pending w = RespJson response :: rest ->
         getkey response "data" = Ok data ->
         getidx data 0 = Ok data0 ->
         let w1 := {| pending := rest; auth_plan := auth_plan w |} in
         (truthy data0 = false ->
          loop (S fuel) offset w
          = (Halt (Raised AccessDenied), [EvRequest (page offset)], w1))
         /\ (truthy data0 = true ->
             forall audio_data ids,
               getkey data0 "list" = Ok audio_data ->
               scrap_ids audio_data = Ok ids ->
               (ids = [] ->
                loop (S fuel) offset w = (Done tt, [EvRequest (page offset)], w1))
               /\ (ids <> [] ->
                   forall t1 w2 hasMore,
                     scrap_tracks ids (user_id self) (convert_m3u8_links self) w1
                     = (Done tt, t1, w2) ->
                     getkey data0 "hasMore" = Ok hasMore ->
                     (truthy hasMore = false ->
                      loop (S fuel) offset w
                      = (Done tt, EvRequest (page offset) :: t1, w2))
                     /\ (truthy hasMore = true ->
                         loop (S fuel) offset w
                         = let '(o, t, w') := loop fuel (offset + step)%Z w2 in
                           (o, EvRequest (page offset) :: t1 ++ t, w'))))).
Proof.
  intros owner step page loop.
  split; [unfold step; destruct (is_none album_id); reflexivity|].
  split.
  - intros w o t w' Hrun. unfold get_iter in Hrun.
    replace (if negb (is_none album_id)
             then TRACKS_PER_ALBUM_PAGE else TRACKS_PER_USER_PAGE)
      with step in Hrun by (unfold step; destruct (is_none album_id); reflexivity).
    destruct (get_iter_loop_run self owner album_id access_hash step _ _ _ _ _ _ Hrun)
      as (Hfuel & n & Hn).
    split; [apply Hfuel; lia|].
    exists n. rewrite Hn. split; [apply map_ext; intros k; reflexivity|].
    rewrite map_map. apply map_ext. intros k. reflexivity.
  - intros fuel offset w response rest data data0 Hp Hdata Hdata0 w1.
    assert (Hturn :
              loop (S fuel) offset w
              = let '(o, t, w') :=
                  (if negb (truthy data0) then raise AccessDenied
                   else
                     bind (lift (getkey data0 "list")) (fun audio_data =>
                     bind (lift (scrap_ids audio_data)) (fun ids =>
                     match ids with
                     | [] => ret tt
                     | _ :: _ =>
                         bind (scrap_tracks ids (user_id self)
                                 (convert_m3u8_links self)) (fun _ =>
                         bind (lift (getkey data0 "hasMore")) (fun hasMore =>
                         if truthy hasMore
                         then loop fuel (offset + step)%Z
                         else ret tt))
                     end))) w1 in
                (o, EvRequest (page offset) :: t, w')).
    { unfold loop. cbn [get_iter_loop].
      rewrite (bind_http _ _ _ _ _ Hp).
      rewrite (lift_ok (json_of (RespJson response)) response) by reflexivity.
      rewrite (lift_ok _ _ _ _ Hdata), (lift_ok _ _ _ _ Hdata0). reflexivity. }
    split.
    + intros Hfalsy. rewrite Hturn, Hfalsy. reflexivity.
    + intros Htruthy audio_data ids Hlist Hids. rewrite Hturn, Htruthy.
      cbn [negb]. rewrite (lift_ok _ _ _ _ Hlist), (lift_ok _ _ _ _ Hids).
      split.
      * intros ->. reflexivity.
      * intros Hne t1 w2 hasMore Htracks Hmore.
        destruct ids as [|id ids]; [congruence|].
        rewrite (bind_done _ _ _ _ _ _ Htracks), (lift_ok _ _ _ _ Hmore).
        split; intros ->.
        -- cbn. rewrite app_nil_r. reflexivity.
        -- destruct (loop fuel (offset + step)%Z w2) as [[o t] w'].
           reflexivity.
Qed.

(** ** [get_updates_iter] *)



Section UpdatesFacts.
Context `{PyRuntime}.
Variable self : VkAudio.


End UpdatesFacts.


(** ** [get_target_playlist_from_json] and the retry *)

Lemma getkey_not_retry (v : pyval) (k : string) :
  getkey v k <> Err RetryAudioRequest.
Proof.
  destruct v; cbn; try discriminate. destruct (assoc k d); discriminate.
Qed.

Lemma getidx_not_retry (v : pyval) (i : nat) :
  getidx v i <> Err RetryAudioRequest.
Proof.
  destruct v; cbn [getidx]; try discriminate.
  - destruct (nth_error (code_points s) i); discriminate.
  - destruct (nth_error l i); discriminate.
Qed.

Lemma py_iter_not_retry (v : pyval) : py_iter v <> Err RetryAudioRequest.
Proof. destruct v; cbn; discriminate. Qed.

Lemma find_target_not_retry (playlists : list pyval) (targets : list string) :
  find_target playlists targets <> Err RetryAudioRequest.
Proof.
  induction playlists as [|p rest IH]; cbn; [discriminate|].
  destruct (getkey p "title") as [title|e] eqn:E.
  - destruct (in_targets title targets); [discriminate|exact IH].
  - intros Hc. inversion Hc; subst. exact (getkey_not_retry _ _ E).
Qed.

Lemma exists_lists_not_retry (playlists : list pyval) :
  exists_lists playlists <> Err RetryAudioRequest.
Proof.
  induction playlists as [|p rest IH]; cbn; [discriminate|].
  destruct (getkey p "list") as [l|e] eqn:El.
  - destruct (truthy l); [|exact IH].
    destruct (getkey p "title") as [title|e] eqn:Et.
    + destruct (exists_lists rest); [discriminate|].
      intros Hc. inversion Hc; subst. apply IH. reflexivity.
    + intros Hc. inversion Hc; subst. exact (getkey_not_retry _ _ Et).
  - intros Hc. inversion Hc; subst. exact (getkey_not_retry _ _ El).
Qed.

Lemma no_auth_tracks (t : list event) : Forall reload_or_yield t -> no_auth t.
Proof.
  unfold no_auth. intros Ht. eapply Forall_impl; [|exact Ht].
  intros e He ->. exact He.
Qed.

Lemma auth_is_last_app {A B : Type} (o : outcome A) (o' : outcome B)
  (ta tb : list event) :
  no_auth ta ->
  auth_is_last o tb ->
  ((exists h, o = Halt h) -> exists h, o' = Halt h) ->
  auth_is_last o' (ta ++ tb).
Proof.
  intros Ha [Hb|(t0 & -> & Hb & Hh)] Ho.
  - left. apply Forall_app. split; assumption.
  - right. exists (ta ++ t0). rewrite app_assoc. split; [reflexivity|].
    split; [apply Forall_app; split; assumption|auto].
Qed.

(** What a call of [get_target_playlist_from_json] does: with a string at
    [payload[1][1]] it re-authenticates and, if that goes through, raises
    [RetryAudioRequest]; with anything else it touches nothing and does not
    raise [RetryAudioRequest]. *)
Lemma get_target_playlist_run (json_data : pyval) (targets : list string) :
  forall w o t w',
    get_target_playlist_from_json json_data targets w = (o, t, w') ->
    ((exists s, payload_1_1 json_data = Ok (PStr s))
     /\ t = [EvAuth]
     /\ pending w' = pending w
     /\ ((auth_plan w = [] /\ o = Halt Starved)
         \/ (exists rest,
                auth_plan w = None :: rest
                /\ o = Halt (Raised RetryAudioRequest))
         \/ (exists e rest,
                auth_plan w = Some e :: rest /\ o = Halt (Raised e))))
    \/ ((forall s, payload_1_1 json_data <> Ok (PStr s))
        /\ t = [] /\ w' = w
        /\ ((exists p, o = Done p)
            \/ (exists e, o = Halt (Raised e) /\ e <> RetryAudioRequest))).
Proof.
  intros w o t w' Hrun. unfold get_target_playlist_from_json in Hrun.
  unfold payload_1_1.
  assert (Hquiet : forall e : exn,
             e <> RetryAudioRequest ->
             (exists p : pyval, @Halt pyval (Raised e) = Done p)
             \/ (exists e0, @Halt pyval (Raised e) = Halt (Raised e0)
                            /\ e0 <> RetryAudioRequest)).
  { intros e He. right. exists e. auto. }
  step_lift Hrun;
    [|right; repeat split; try discriminate; apply Hquiet;
      intros ->; exact (getkey_not_retry _ _ E)].
  step_lift Hrun;
    [|right; repeat split; try discriminate; apply Hquiet;
      intros ->; exact (getidx_not_retry _ _ E0)].
  step_lift Hrun;
    [|right; repeat split; try discriminate; apply Hquiet;
      intros ->; exact (getidx_not_retry _ _ E1)].
  destruct a1 as [| | |s| |]; cbn [is_string] in Hrun.
  4: { left. split; [exists s; reflexivity|].
       unfold bind, vk_auth, raise in Hrun.
       destruct (auth_plan w) as [|[e|] rest] eqn:Ea;
         inversion Hrun; subst; cbn [pending]; repeat split.
       - left. auto.
       - right. right. exists e, rest. auto.
       - right. left. exists rest. auto. }
  all: right; split; [intros s; discriminate|].
  all: step_lift Hrun;
    [|repeat split; apply Hquiet; intros ->; exact (getkey_not_retry _ _ E2)].
  all: step_lift Hrun;
    [|repeat split; apply Hquiet; intros ->; exact (py_iter_not_retry _ E3)].
  all: step_lift Hrun;
    [|repeat split; apply Hquiet; intros ->;
      exact (find_target_not_retry _ _ E4)].
  all: destruct (is_none a3);
    [|inversion Hrun; subst; repeat split; left; eauto].
  all: step_lift Hrun;
    [inversion Hrun; subst; repeat split; left; eauto
    |repeat split; apply Hquiet; intros ->;
     exact (exists_lists_not_retry _ E5)].
Qed.

Lemma auth_is_last_quiet {A : Type} (o : outcome A) (t : list event) :
  no_auth t -> auth_is_last o t.
Proof. intros Ht. left. exact Ht. Qed.

Lemma auth_is_last_prefix {A : Type} (o : outcome A) (ta tb : list event) :
  no_auth ta -> auth_is_last o tb -> auth_is_last o (ta ++ tb).
Proof. intros Ha Hb. apply (auth_is_last_app o o ta tb Ha Hb). auto. Qed.

Lemma no_auth_request (r : request) : no_auth [EvRequest r].
Proof. repeat constructor. discriminate. Qed.

Lemma auth_is_last_target (json_data : pyval) (targets : list string)
  (w w' : world) (o : outcome pyval) (t : list event) :
  get_target_playlist_from_json json_data targets w = (o, t, w') ->
  (forall p, o = Done p -> t = [] /\ w' = w)
  /\ (forall h : halt, o = Halt h ->
      h <> OutOfFuel /\ auth_is_last (@Halt unit h) t).
Proof.
  intros Hrun.
  destruct (get_target_playlist_run _ _ _ _ _ _ Hrun)
    as [(_ & -> & _ & Ho) | (_ & -> & -> & Ho)].
  - split.
    + intros p ->.
      destruct Ho as [(_ & Hc) | [(r & _ & Hc) | (e & r & _ & Hc)]]; discriminate.
    + intros h ->. split.
      * destruct Ho as [(_ & Hc) | [(r & _ & Hc) | (e & r & _ & Hc)]];
          inversion Hc; discriminate.
      * right. exists []. repeat split; [constructor|eauto].
  - split; [auto|]. intros h ->. split.
    + destruct Ho as [(p & Hc) | (e & Hc & _)]; inversion Hc; discriminate.
    + left. constructor.
Qed.

Section PlaylistFacts.
Context `{PyRuntime}.
Variable self : VkAudio.
Variable targets : list string.
Variable offset : Z.

Lemma iter_playlist_loop_run (fuel : nat) :
  forall offset_left playlist w o t w',
    iter_playlist_loop self fuel targets offset offset_left playlist w
    = (o, t, w') ->
    ((List.length (pending w) < fuel)%nat -> o <> Halt OutOfFuel)
    /\ auth_is_last o t.
Proof.
  induction fuel as [|fuel IH]; intros offset_left playlist w o t w' Hrun.
  - inversion Hrun; subst. split; [lia|]. left. constructor.
  - cbn [iter_playlist_loop] in Hrun.
    assert (Hnil : forall A (x : outcome A), auth_is_last x [])
      by (intros; left; constructor).
    destruct (truthy playlist); cbn [negb] in Hrun;
      [|inversion Hrun; subst; split; [discriminate|apply Hnil]].
    step_lift Hrun; [|split; [discriminate|apply Hnil]].
    step_lift Hrun; [|split; [discriminate|apply Hnil]].
    destruct a0 as [|id ids];
      [inversion Hrun; subst; split; [discriminate|apply Hnil]|].
    destruct (page_ids offset offset_left (id :: ids)) as [wanted ids'].
    split_run Hrun as u t1 w1 t2 Hs Hk h.
    + assert (Hs' : (List.length (pending w1) <= List.length (pending w))%nat
                    /\ no_auth t1).
      { destruct wanted as [wanted|].
        - unfold scrap_tracks in Hs.
          destruct (scrap_tracks_groups_run _ _ _ _ _ _ _ Hs)
            as (_ & Hlen & _ & Hev & _).
          split; [exact Hlen|apply no_auth_tracks; exact Hev].
        - inversion Hs; subst. split; [lia|constructor]. }
      destruct Hs' as (Hlen & Hna).
      assert (Hrest : ((List.length (pending w1) < S fuel)%nat ->
                       o <> Halt OutOfFuel)
                      /\ auth_is_last o t2).
      { step_lift Hk; [|split; [discriminate|apply Hnil]].
        destruct (truthy a0); cbn [negb] in Hk;
          [|inversion Hk; subst; split; [discriminate|apply Hnil]].
        step_lift Hk; [|split; [discriminate|apply Hnil]].
        step_lift Hk; [|split; [discriminate|apply Hnil]].
        split_run Hk as r t3 w3 t4 Hh Hk2 h.
        - apply http_inv in Hh.
          destruct Hh as (-> & [(_ & Hc & _) | (a3 & rest & Hp & _ & ->)]);
            [discriminate|].
          step_lift Hk2;
            [|split; [discriminate
                     |apply auth_is_last_quiet, no_auth_request]].
          split_run Hk2 as p t5 w5 t6 Ht Hk3 h.
          + destruct (auth_is_last_target _ _ _ _ _ _ Ht) as (Hd & _).
            destruct (Hd p eq_refl) as (-> & ->).
            destruct (IH _ _ _ _ _ _ Hk3) as (Hf & Hal).
            split.
            * intros Hlt. apply Hf. cbn [pending]. rewrite Hp in Hlt.
              cbn in Hlt. lia.
            * apply (auth_is_last_prefix _ [EvRequest _]);
                [apply no_auth_request|exact Hal].
          + destruct (auth_is_last_target _ _ _ _ _ _ Ht) as (_ & Hh).
            destruct (Hh h eq_refl) as (Hne & Hal).
            split; [congruence|].
            apply (auth_is_last_prefix _ [EvRequest _]);
              [apply no_auth_request|exact Hal].
        - apply http_inv in Hh.
          destruct Hh as (-> & [(_ & Hh & ->) | (a3 & rest & _ & Hc & _)]);
            [|discriminate].
          inversion Hh; subst h. split; [discriminate|].
          apply auth_is_last_quiet, no_auth_request. }
      destruct Hrest as (Hf & Hal).
      split; [intros Hlt; apply Hf; lia|].
      apply auth_is_last_prefix; assumption.
    + destruct wanted as [wanted|]; [|inversion Hs].
      unfold scrap_tracks in Hs.
      destruct (scrap_tracks_groups_run _ _ _ _ _ _ _ Hs)
        as (_ & _ & Ho & Hev & _).
      split; [intros _ Hc; inversion Hc; subst; apply Ho; reflexivity|].
      apply auth_is_last_quiet, no_auth_tracks. exact Hev.
Qed.

End PlaylistFacts.

Tactic Notation "split_done" hyp(H) "as"
  ident(a) ident(t1) ident(w1) ident(t2) ident(Hm) ident(Hk) :=
  apply bind_inv in H;
  destruct H as [(a & t1 & w1 & t2 & Hm & Hk & ->) | (? & _ & ?)];
  [|discriminate].

Lemma first_playlist_run (data : list (string * pyval)) (targets : list string) :
  forall w o t w',
    first_playlist data targets w = (o, t, w') ->
    requests_of t = [al_audio_request data]
    /\ (o = Halt (Raised RetryAudioRequest) ->
        t = [EvRequest (al_audio_request data); EvAuth]
        /\ exists json_data s rest,
             pending w = RespJson json_data :: rest
             /\ payload_1_1 json_data = Ok (PStr s)).
Proof.
  intros w o t w' Hrun. unfold first_playlist in Hrun.
  split_run Hrun as r t1 w1 t2 Hh Hk h.
  - apply http_inv in Hh.
    destruct Hh as (-> & [(_ & Hc & _) | (a & rest & Hp & Ha & ->)]);
      [discriminate|].
    inversion Ha; subst a. clear Ha.
    destruct r as [json_data|text]; cbn [json_of] in Hk.
    + rewrite (lift_ok (Ok json_data) json_data) in Hk by reflexivity.
      destruct (get_target_playlist_run _ _ _ _ _ _ Hk)
        as [((s & Hs) & -> & _ & _) | (_ & -> & -> & Ho)].
      * split; [reflexivity|]. intros _. split; [reflexivity|].
        exists json_data, s, rest. auto.
      * split; [reflexivity|]. intros ->.
        destruct Ho as [(p & Hc) | (e & Hc & Hne)]; [discriminate|].
        inversion Hc; subst. congruence.
    + rewrite (lift_err (Err JSONDecodeError) JSONDecodeError) in Hk
        by reflexivity.
      inversion Hk; subst. split; [reflexivity|discriminate].
  - apply http_inv in Hh.
    destruct Hh as (-> & [(_ & Hh & ->) | (a & rest & _ & Hc & _)]);
      [|discriminate].
    inversion Hh; subst h. split; [reflexivity|discriminate].
Qed.

Section PopularFacts.
Context `{PyRuntime}.
Variable self : VkAudio.

Lemma get_popular_iter_run (offset : Z) :
  forall w o t w',
    get_popular_iter self offset w = (o, t, w') -> auth_is_last o t.
Proof.
  intros w o t w' Hrun. unfold get_popular_iter in Hrun.
  assert (Hnil : forall A (x : outcome A), auth_is_last x [])
    by (intros; left; constructor).
  split_run Hrun as r t1 w1 t2 Hh Hk h.
  - apply http_inv in Hh.
    destruct Hh as (-> & [(_ & Hc & _) | (a & rest & Hp & _ & ->)]);
      [discriminate|].
    apply (auth_is_last_prefix _ [EvRequest _]); [apply no_auth_request|].
    step_lift Hk; [|apply Hnil].
    step_lift Hk; [|apply Hnil].
    step_lift Hk; [|apply Hnil].
    step_lift Hk; [|apply Hnil].
    split_run Hk as playlist t3 w3 t4 Hp2 Hk2 h.
    + assert (Hquiet : no_auth t3).
      { destruct (truthy a3); cbn [negb] in Hp2;
          [inversion Hp2; subst; constructor|].
        step_lift Hp2.
        split_done Hp2 as r2 t5 w5 t6 Hh2 Hk3.
        apply http_inv in Hh2. destruct Hh2 as (-> & _).
        step_lift Hk3.
        destruct (auth_is_last_target _ _ _ _ _ _ Hk3) as (Hd & _).
        destruct (Hd playlist eq_refl) as (-> & _).
        apply no_auth_request. }
      apply auth_is_last_prefix; [exact Hquiet|].
      step_lift Hk2; [|apply Hnil].
      step_lift Hk2; [|apply Hnil].
      unfold scrap_tracks in Hk2.
      destruct (scrap_tracks_groups_run _ _ _ _ _ _ _ Hk2) as (_ & _ & _ & Hev & _).
      apply auth_is_last_quiet, no_auth_tracks. exact Hev.
    + destruct (truthy a3); cbn [negb] in Hp2; [inversion Hp2|].
      step_lift Hp2; [|apply Hnil].
      apply bind_inv in Hp2.
      destruct Hp2 as [(r2 & t5 & w5 & t6 & Hh2 & Hk3 & ->) | (h2 & Hh2 & _)].
      * apply http_inv in Hh2. destruct Hh2 as (-> & _).
        apply (auth_is_last_prefix _ [EvRequest _]); [apply no_auth_request|].
        step_lift Hk3; [|apply Hnil].
        destruct (auth_is_last_target _ _ _ _ _ _ Hk3) as (_ & Hh').
        destruct (Hh' h eq_refl) as (_ & Hal).
        destruct Hal as [Hq | (t0 & -> & Hq & _)]; [left; exact Hq|].
        right. exists t0. repeat split; eauto.
      * apply http_inv in Hh2. destruct Hh2 as (-> & _).
        apply auth_is_last_quiet, no_auth_request.
  - apply http_inv in Hh. destruct Hh as (-> & _).
    apply auth_is_last_quiet, no_auth_request.
Qed.

End PopularFacts.

(** C3. The one retry.  [get_target_playlist_from_json] raises
    [RetryAudioRequest] only on an answer whose [payload[1][1]] is a string,
    after it has re-authenticated, and it does raise it on such an answer
    when the re-authentication goes through; an answer on which
    [payload[1][1]] itself raises, as [IndexError] does where [payload[1]]
    is a string of one character, ends the call with that error and
    without re-authentication.  In
    [_iter_playlist_by_response]: a first fetch that succeeds or fails in
    another way is not repeated; a first fetch that raises
    [RetryAudioRequest] is followed by the same request once more, and
    whatever the second fetch raises, [RetryAudioRequest] too, ends the
    run.  Elsewhere nothing is retried: in the loop over the later pages
    and in [get_popular_iter] a re-authentication is the last event of the
    run, which halts there. *)
Theorem single_retry `{PyRuntime}
  (self : VkAudio) (data : list (string * pyval)) (targets : list string)
  (offset : Z) :
  let request :=
    {| req_method := POST;
       req_url := "https://vk.com/al_audio.php";
       req_data := data;
       req_params := [];
       req_allow_redirects := true |} in
  let first := first_playlist data targets in
  let run := _iter_playlist_by_response self data targets offset in
  let loop := fun playlist w =>
    iter_playlist_loop self (S (List.length (pending w))) targets offset 0
      playlist w in
  (forall json_data w o t w',
      get_target_playlist_from_json json_data targets w = (o, t, w') ->
      (o = Halt (Raised RetryAudioRequest) ->
       (exists s, payload_1_1 json_data = Ok (PStr s)) /\ t = [EvAuth])
      /\ (forall s rest,
             payload_1_1 json_data = Ok (PStr s) ->
             auth_plan w = None :: rest ->
             o = Halt (Raised RetryAudioRequest) /\ t = [EvAuth])
      /\ (forall e,
             payload_1_1 json_data = Err e ->
             o = Halt (Raised e) /\ t = [] /\ w' = w))
  /\ (forall w p t1 w1,
         first w = (Done p, t1, w1) ->
         requests_of t1 = [request]
         /\ run w = let '(o, t, w') := loop p w1 in (o, t1 ++ t, w'))
  /\ (forall w h t1 w1,
         first w = (Halt h, t1, w1) ->
         h <> Raised RetryAudioRequest ->
         requests_of t1 = [request] /\ run w = (Halt h, t1, w1))
  /\ (forall w t1 w1,
         first w = (Halt (Raised RetryAudioRequest), t1, w1) ->
         t1 = [EvRequest request; EvAuth]
         /\ (forall h t2 w2,
                first w1 = (Halt h, t2, w2) ->
                requests_of (t1 ++ t2) = [request; request]
                /\ run w = (Halt h, t1 ++ t2, w2))
         /\ (forall p t2 w2,
                first w1 = (Done p, t2, w2) ->
                requests_of (t1 ++ t2) = [request; request]
                /\ run w = let '(o, t, w') := loop p w2 in
                           (o, (t1 ++ t2) ++ t, w')))
  /\ (forall fuel offset_left playlist w o t w',
         iter_playlist_loop self fuel targets offset offset_left playlist w
         = (o, t, w') ->
         auth_is_last o t)
  /\ (forall popular_offset w o t w',
         get_popular_iter self popular_offset w = (o, t, w') ->
         auth_is_last o t).
Proof.
  intros request first run loop.
  change request with (al_audio_request data) in *. clear request.
  set (request := al_audio_request data).
  split.
  { intros json_data w o t w' Hrun.
    assert (Herr : forall e,
               payload_1_1 json_data = Err e ->
               o = Halt (Raised e) /\ t = [] /\ w' = w).
    { intros e He. unfold payload_1_1 in He.
      unfold get_target_playlist_from_json in Hrun.
      destruct (getkey json_data "payload") as [payload|e0].
      - rewrite (lift_ok _ payload) in Hrun by reflexivity.
        destruct (getidx payload 1) as [p1|e1].
        + rewrite (lift_ok _ p1) in Hrun by reflexivity.
          rewrite (lift_err _ e) in Hrun by exact He.
          inversion Hrun. auto.
        + rewrite (lift_err _ e1) in Hrun by reflexivity.
          inversion He; subst e1. inversion Hrun. auto.
      - rewrite (lift_err _ e0) in Hrun by reflexivity.
        inversion He; subst e0. inversion Hrun. auto. }
    destruct (get_target_playlist_run _ _ _ _ _ _ Hrun)
      as [(Hs & -> & _ & Ho) | (Hs & -> & -> & Ho)].
    - split; [auto|]. split; [|exact Herr].
      intros s rest _ Ha. split; [|reflexivity].
      destruct Ho as [(Hc & _) | [(r & _ & Ho) | (e & r & Hc & _)]];
        [congruence|exact Ho|congruence].
    - split; [|split; [|exact Herr]].
      + intros ->. destruct Ho as [(p & Hc) | (e & Hc & Hne)]; [discriminate|].
        inversion Hc; subst. congruence.
      + intros s rest Hp. destruct (Hs s Hp). }
  split.
  { intros w p t1 w1 Hfirst.
    split; [apply (first_playlist_run _ _ _ _ _ _ Hfirst)|].
    unfold run, _iter_playlist_by_response, bind at 1, except_retry.
    fold first. rewrite Hfirst. reflexivity. }
  split.
  { intros w h t1 w1 Hfirst Hne.
    split; [apply (first_playlist_run _ _ _ _ _ _ Hfirst)|].
    unfold run, _iter_playlist_by_response, bind at 1, except_retry.
    fold first. rewrite Hfirst.
    destruct h as [e| |]; try reflexivity.
    destruct e; try reflexivity. congruence. }
  split.
  { intros w t1 w1 Hfirst.
    destruct (first_playlist_run _ _ _ _ _ _ Hfirst) as (_ & Ht1).
    destruct (Ht1 eq_refl) as (-> & _).
    split; [reflexivity|]. split.
    - intros h t2 w2 Hsecond.
      destruct (first_playlist_run _ _ _ _ _ _ Hsecond) as (Hr2 & _).
      split.
      + rewrite requests_of_app, Hr2. reflexivity.
      + unfold run, _iter_playlist_by_response, bind at 1, except_retry.
        fold first. rewrite Hfirst, Hsecond. reflexivity.
    - intros p t2 w2 Hsecond.
      destruct (first_playlist_run _ _ _ _ _ _ Hsecond) as (Hr2 & _).
      split.
      + rewrite requests_of_app, Hr2. reflexivity.
      + unfold run, _iter_playlist_by_response, bind at 1, except_retry.
        fold first. rewrite Hfirst, Hsecond. reflexivity. }
  split.
  { intros fuel offset_left playlist w o t w' Hrun.
    apply (iter_playlist_loop_run self targets offset _ _ _ _ _ _ _ Hrun). }
  intros popular_offset w o t w' Hrun.
  apply (get_popular_iter_run self _ _ _ _ _ Hrun).
Qed.

(** ** The links of the tracks *)

(** C6. Every track [scrap_tracks] yields comes from an audio of an answer;
    with [link] the audio's link after the decoding step, the yielded url
    is [link] itself when [convert_m3u8_links] is false, and when it is
    true the url of a string link is its image under
    [RE_M3U8_TO_MP3.sub(r'\1/\2.mp3', link)] if the link contains ['m3u8']
    and the link itself if not.  The substitution goes through its subject
    from the left: where an instance of
    [/[0-9a-f]+(/audios)?/([0-9a-f]+)/index.m3u8] starts, the instance is
    replaced by its first group (empty when [/audios] is absent), [/], its
    second group and [.mp3], and the scan goes on after the instance; where
    none starts the character is kept. *)
Theorem scrap_tracks_m3u8_links `{PyRuntime}
  (ids : list (list pyval)) (uid : pyval) (convert : bool) (w : world) :
  (forall o t w' x,
      scrap_tracks ids uid convert w = (o, t, w') ->
      In x (yields_of t) ->
      exists audio raw link,
        track_of_audio uid convert audio = Ok x
        /\ getidx audio 2 = Ok raw
        /\ decoded_link uid raw = Ok link
        /\ (convert = false -> t_url x = link)
        /\ (convert = true ->
            forall s, link = PStr s ->
                      t_url x = PStr (if substringb "m3u8" s
                                      then RE_M3U8_TO_MP3_sub s
                                      else s)))
  /\ RE_M3U8_TO_MP3_sub "" = ""
  /\ (forall text g1 g2 rest,
         m3u8_instance text g1 g2 ->
         RE_M3U8_TO_MP3_sub (text ++ rest)
         = ((group_text g1 ++ "/" ++ g2 ++ ".mp3")
            ++ RE_M3U8_TO_MP3_sub rest)%string)
  /\ (forall c s,
         (forall text g1 g2 rest,
             String c s = (text ++ rest)%string -> ~ m3u8_instance text g1 g2) ->
         RE_M3U8_TO_MP3_sub (String c s) = String c (RE_M3U8_TO_MP3_sub s)).
Proof.
  destruct RE_M3U8_TO_MP3_sub_equations as (Hnil & Hmatch & Hkeep).
  split; [|split; [exact Hnil|split]].
  - intros o t w' x Hrun Hin. unfold scrap_tracks in Hrun.
    destruct (scrap_tracks_groups_run _ _ _ _ _ _ _ Hrun)
      as (_ & _ & _ & _ & _ & Hys).
    rewrite Forall_forall in Hys. destruct (Hys x Hin) as (audio & Hx).
    destruct (track_of_audio_url _ _ _ _ Hx) as (raw & link & Hraw & Hlink & Hconv).
    exists audio, raw, link. repeat split; try assumption.
    + intros ->. cbn in Hconv. congruence.
    + intros -> s ->. cbn in Hconv.
      destruct (substringb "m3u8" s); cbn in Hconv; congruence.
  - intros text g1 g2 rest Hinst.
    rewrite (Hmatch _ _ (match_m3u8_complete text rest g1 g2 Hinst)).
    reflexivity.
  - intros c s Hnone. apply Hkeep.
    destruct (match_m3u8 (String c s)) as [m|] eqn:Em; [|reflexivity].
    destruct (match_m3u8_sound _ _ Em) as (text & Hs & Hinst).
    destruct (Hnone _ _ _ _ Hs Hinst).
Qed.

Lemma scrap_tracks_m3u8_links_witness :
  let x :=
    {| t_id := PInt 1; t_owner_id := PInt 7; t_track_covers := PList [];
       t_url := PStr "https://h/audio/ee/audios/f00dbabe.mp3?extra=abc";
       t_artist := PStr "x"; t_title := PStr "a"; t_duration := PInt 10 |} in
  (exists audio raw link,
      @track_of_audio plain_runtime (PInt 1) true audio = Ok x
      /\ getidx audio 2 = Ok raw
      /\ @decoded_link plain_runtime (PInt 1) raw = Ok link
      /\ (true = false -> t_url x = link)
      /\ (true = true ->
          forall s, link = PStr s ->
                    t_url x = PStr (if substringb "m3u8" s
                                    then RE_M3U8_TO_MP3_sub s
                                    else s)))
  /\ RE_M3U8_TO_MP3_sub "/0a/audios/1b/index.m3u8?x"
     = ("/audios/1b.mp3" ++ RE_M3U8_TO_MP3_sub "?x")%string
  /\ RE_M3U8_TO_MP3_sub "/0a/1b/indexяm3u8"
     = ("/1b.mp3" ++ RE_M3U8_TO_MP3_sub "")%string.
Proof.
  intros x.
  destruct (@scrap_tracks_m3u8_links plain_runtime
              [[PStr "7"; PStr "1"; PStr "ha"]] (PInt 1) true m3u8_world)
    as (Hrun & _ & Hsub & _).
  split; [|split].
  - apply (Hrun (Done tt)
             [EvRequest (reload_audios_request "7_1_ha"); EvYield x]
             {| pending := []; auth_plan := [] |} x).
    + reflexivity.
    + cbn. left. reflexivity.
  - apply (Hsub "/0a/audios/1b/index.m3u8" (Some "/audios") "1b" "?x").
    exists "0a", ".".
    split; [split; [discriminate|reflexivity]|].
    split; [split; [discriminate|reflexivity]|].
    split; [left; reflexivity|].
    split; [exists "."%char, ""; split; reflexivity|].
    split; [discriminate|reflexivity].
  - apply (Hsub "/0a/1b/indexяm3u8" None "1b" "").
    exists "0a", "я".
    split; [split; [discriminate|reflexivity]|].
    split; [split; [discriminate|reflexivity]|].
    split; [right; reflexivity|].
    split; [eexists _, _; split; reflexivity|].
    split; [discriminate|reflexivity].
Defined.

(** ** Runs on the example answers *)

Lemma single_retry_witness :
  let request := al_audio_request search_data in
  let t1 := [EvRequest request; EvAuth] in
  let one_character := PDict [("payload", PList [PInt 0; PStr "я"])] in
  (requests_of (t1 ++ t1) = [request; request]
   /\ @_iter_playlist_by_response plain_runtime example_self search_data ["T"]
        0%Z retry_world
      = (Halt (Raised RetryAudioRequest), t1 ++ t1,
         {| pending := []; auth_plan := [] |}))
  /\ get_target_playlist_from_json one_character ["T"] retry_world
     = (Halt (Raised IndexError), [], retry_world).
Proof.
  intros request t1 one_character.
  pose proof (@single_retry plain_runtime example_self search_data ["T"] 0%Z)
    as Hall.
  cbv zeta in Hall. destruct Hall as (Hjson & _ & _ & Hretry & _).
  split.
  - destruct (Hretry retry_world t1
                {| pending := [expired_answer]; auth_plan := [None] |} eq_refl)
      as (_ & Hhalt & _).
    apply (Hhalt (Raised RetryAudioRequest) t1
             {| pending := []; auth_plan := [] |}).
    reflexivity.
  - destruct (get_target_playlist_from_json one_character ["T"] retry_world)
      as [[o t] w'] eqn:Hrun.
    destruct (Hjson one_character retry_world o t w' Hrun) as (_ & _ & Herr).
    destruct (Herr IndexError eq_refl) as (-> & -> & ->).
    reflexivity.
Defined.

Lemma get_iter_pagination_witness :
  let page := load_section_request (PInt 1) PNone PNone in
  let run := @get_iter plain_runtime example_self PNone PNone PNone album_world in
  let track :=
    {| t_id := PInt 1; t_owner_id := PInt 7; t_track_covers := PList [];
       t_url := PStr "https://h/a.mp3";
       t_artist := PStr "x"; t_title := PStr "a"; t_duration := PInt 10 |} in
  let t1 := [EvRequest (reload_audios_request "7_1_ha"); EvYield track] in
  let w2 := {| pending := [mk_section_answer [] false]; auth_plan := [] |} in
  map (fun r => assoc "offset" (req_data r)) (load_sections_of (snd (fst run)))
  = [Some (PInt 0); Some (PInt 2000)]
  /\ @get_iter_loop plain_runtime example_self 4 (PInt 1) PNone PNone 2000 0
       album_world
     = let '(o, t, w') :=
         @get_iter_loop plain_runtime example_self 3 (PInt 1) PNone PNone
           2000 (0 + 2000) w2 in
       (o, EvRequest (page 0%Z) :: t1 ++ t, w').
Proof.
  intros page run track t1 w2.
  pose proof (@get_iter_pagination plain_runtime example_self PNone PNone PNone)
    as Hall.
  cbv zeta in Hall. destruct Hall as (_ & Hrun & Hturn).
  split.
  - destruct (Hrun album_world (fst (fst run)) (snd (fst run)) (snd run) eq_refl)
      as (_ & n & _ & Hoff).
    assert (Hn : n = 2%nat).
    { apply (f_equal (@List.length _)) in Hoff.
      rewrite (length_map _ (seq 0 n)), length_seq in Hoff.
      rewrite <- Hoff. reflexivity. }
    subst n. exact Hoff.
  - edestruct (Hturn 3%nat 0%Z album_world) as (_ & Hgo);
      [reflexivity | reflexivity | reflexivity |].
    edestruct (Hgo eq_refl) as (_ & Hids); [reflexivity | reflexivity |].
    edestruct (Hids ltac:(discriminate) t1 w2) as (_ & Hmore);
      [reflexivity | reflexivity |].
    exact (Hmore eq_refl).
Defined.


Lemma scrap_tracks_batching_witness :
  let groups := ids_groups eleven_ids in
  let run := @scrap_tracks plain_runtime eleven_ids (PInt 1) true eleven_world in
  List.length groups = 2%nat
  /\ List.length (nth 0 groups []) = 10%nat
  /\ Forall2 carries (requests_of (snd (fst run))) groups
  /\ List.length (requests_of (snd (fst run))) = 2%nat
  /\ map req_data (requests_of (snd (fst run)))
     = [[("al", PInt 1);
         ("audio_ids",
          PStr "7_1_h,7_2_h,7_3_h,7_4_h,7_5_h,7_6_h,7_7_h,7_8_h,7_9_h,7_10_h")];
        [("al", PInt 1); ("audio_ids", PStr "7_11_h")]].
Proof.
  intros groups run.
  pose proof (@scrap_tracks_batching plain_runtime eleven_ids (PInt 1) true
                eleven_world) as Hall.
  cbv zeta in Hall. destruct Hall as (_ & Hlen & _ & Hfull & _ & Hrun).
  split; [exact Hlen|].
  split; [apply (Hfull 0%nat); vm_compute; lia|].
  destruct (Hrun (Done tt) (snd (fst run)) (snd run) eq_refl) as (_ & Hdone).
  destruct (Hdone eq_refl) as (Hcarries & Hcount).
  split; [exact Hcarries|]. split; [exact Hcount|].
  reflexivity.
Defined.

(** ** The offset of [_iter_playlist_by_response] *)

(** C1. The offset is not honoured.  On two pages of three tracks each
    the run without an offset asks for the six tracks, page after page.
    With [offset = 2] the run ends normally and asks for the third track,
    then for the fifth and the sixth: the fourth track, which the
    concatenation of the pages without its first two ids holds, is never
    asked for and never yielded.  After the first page is cut to one id,
    [offset_left] is raised by the length of the cut list, so the second
    page is cut again. *)
Theorem iter_playlist_offset_drops_a_track :
  let run := fun offset =>
    @_iter_playlist_by_response plain_runtime example_self search_data ["T"]
      offset two_pages_world in
  let trace := fun offset => snd (fst (run offset)) in
  fst (fst (run 0%Z)) = Done tt
  /\ requested_audio_ids (trace 0%Z) = List.concat two_pages_ids
  /\ fst (fst (run 2%Z)) = Done tt
  /\ requested_audio_ids (trace 2%Z) = ["7_3_hc"; "7_5_he"; "7_6_hf"]
  /\ map t_id (yields_of (trace 2%Z)) = [PInt 3; PInt 5; PInt 6]
  /\ ids_after_offset 2 two_pages_ids = ["7_3_hc"; "7_4_hd"; "7_5_he"; "7_6_hf"]
  /\ requested_audio_ids (trace 2%Z) <> ids_after_offset 2 two_pages_ids
  /\ ~ In "7_4_hd" (requested_audio_ids (trace 2%Z)).
Proof.
  intros run trace.
  assert (E0 : requested_audio_ids (trace 0%Z) = List.concat two_pages_ids)
    by (vm_compute; reflexivity).
  assert (E2 : requested_audio_ids (trace 2%Z) = ["7_3_hc"; "7_5_he"; "7_6_hf"])
    by (vm_compute; reflexivity).
  repeat split; try (vm_compute; reflexivity); try assumption.
  - rewrite E2. vm_compute. discriminate.
  - rewrite E2. cbn. intros [Hc | [Hc | [Hc | []]]]; discriminate.
Qed.

(** ** [get_audio_by_id] *)

(** C9. [get_audio_by_id] never returns the empty list.  A generator
    object is truthy, so in no run is the outcome the empty list.  When
    the ids scraped from the page are none, which is so when every audio
    item under the root element is disabled, the run makes its one request
    and ends with [StopIteration], raised by [next]. *)
Theorem get_audio_by_id_never_empty `{PyRuntime}
  (self : VkAudio) (owner_id audio_id : pyval) (w : world) :
  (forall g, truthy_generator g = true)
  /\ (forall o t w',
         get_audio_by_id self owner_id audio_id w = (o, t, w') ->
         o <> Done AEmptyList)
  /\ (forall response rest,
         pending w = response :: rest ->
         scrap_ids_from_html response "class" "basisDefault" = Ok [] ->
         get_audio_by_id self owner_id audio_id w
         = (Halt (Raised StopIteration),
            [EvRequest
               {| req_method := GET;
                  req_url :=
                    "https://m.vk.com/audio" ++ py_str owner_id ++ "_"
                    ++ py_str audio_id;
                  req_data := [];
                  req_params := [];
                  req_allow_redirects := false |}],
            {| pending := rest; auth_plan := auth_plan w |}))
  /\ (forall response items,
         soup_audio_items "class" "basisDefault" response = Some items ->
         Forall (fun audio => In "audio_item_disabled" (item_class audio)) items ->
         scrap_ids_from_html response "class" "basisDefault" = Ok []).
Proof.
  split; [reflexivity|]. split; [|split].
  - intros o t w' Hrun. unfold get_audio_by_id in Hrun.
    split_run Hrun as r t1 w1 t2 Hh Hk h; [|discriminate].
    step_lift Hk; [|discriminate].
    cbn [truthy_generator] in Hk.
    split_run Hk as x t3 w3 t4 Hn Hr h; [|discriminate].
    inversion Hr. discriminate.
  - intros response rest Hp Hids. unfold get_audio_by_id.
    rewrite (bind_http _ _ _ _ _ Hp).
    rewrite (lift_ok _ [] _ _ Hids).
    reflexivity.
  - intros response items Hitems Hall. unfold scrap_ids_from_html.
    rewrite Hitems. clear Hitems.
    induction Hall as [|audio rest Hd _ IH]; [reflexivity|].
    cbn [scrap_ids_from_html_loop].
    replace (existsb (String.eqb "audio_item_disabled") (item_class audio))
      with true; [exact IH|].
    symmetry. apply existsb_exists.
    exists "audio_item_disabled". split; [exact Hd|apply String.eqb_refl].
Qed.

Lemma get_audio_by_id_never_empty_witness :
  @scrap_ids_from_html disabled_runtime
    (RespText "<div class='basisDefault'></div>") "class" "basisDefault"
  = Ok []
  /\ @get_audio_by_id disabled_runtime example_self (PInt 7) (PInt 1) page_world
     = (Halt (Raised StopIteration),
        [EvRequest (@audio_page_request disabled_runtime (PInt 7) (PInt 1))],
        {| pending := []; auth_plan := [] |}).
Proof.
  destruct (@get_audio_by_id_never_empty disabled_runtime example_self
              (PInt 7) (PInt 1) page_world) as (_ & _ & Hstop & Hnone).
  assert (Hids : @scrap_ids_from_html disabled_runtime
                   (RespText "<div class='basisDefault'></div>")
                   "class" "basisDefault" = Ok []).
  { eapply Hnone; [reflexivity|].
    constructor; [|constructor]. cbn. right. left. reflexivity. }
  split; [exact Hids|].
  apply (Hstop (RespText "<div class='basisDefault'></div>") []);
    [reflexivity|exact Hids].
Defined.

(** ** The delay between two [reload_audios] requests *)

Section ClockFacts.
Local Open Scope Q_scope.

Let nonneg (script : list Q) : Prop := Forall (fun d => 0 <= d) script.

Lemma pass_facts (c : clock) :
  nonneg (elapse c) ->
  nonneg (elapse (pass c))
  /\ now c <= now (pass c)
  /\ clock_log (pass c) = clock_log c.
Proof.
  unfold nonneg, pass. intros Hn. destruct (elapse c) as [|d rest] eqn:E.
  - rewrite E. repeat split; [constructor|lra].
  - inversion Hn; subst. cbn [now elapse clock_log].
    repeat split; [assumption|lra].
Qed.

Lemma sent_times_app (l1 l2 : list clock_event) :
  sent_times (l1 ++ l2) = (sent_times l1 ++ sent_times l2)%list.
Proof. apply flat_map_app. Qed.

Lemma answer_times_app (l1 l2 : list clock_event) :
  answer_times (l1 ++ l2) = (answer_times l1 ++ answer_times l2)%list.
Proof. apply flat_map_app. Qed.

(** a log cut after a request that is not its last event *)
Lemma snoc_split (log : list clock_event) (e : clock_event)
  (front : list clock_event) (s : Q) (after : list clock_event) :
  (log ++ [e] = front ++ Sent s :: after)%list ->
  (after = [] /\ log = front /\ e = Sent s)
  \/ exists after', after = (after' ++ [e])%list
                    /\ log = (front ++ Sent s :: after')%list.
Proof.
  intros Hlog. destruct after as [|x after] using rev_ind.
  - left. apply app_inj_tail in Hlog. destruct Hlog as (-> & ->). auto.
  - right. clear IHafter. exists after.
    replace (front ++ Sent s :: after ++ [x])%list
      with ((front ++ Sent s :: after) ++ [x])%list in Hlog
      by (rewrite <- app_assoc; reflexivity).
    apply app_inj_tail in Hlog. destruct Hlog as (-> & ->). auto.
Qed.

Lemma spaced_quiet (gap : Q) (log : list clock_event) (e : clock_event) :
  spaced gap log -> (forall s, e <> Sent s) -> spaced gap (log ++ [e]).
Proof.
  intros Hs He before a between s after Hlog.
  replace (before ++ Answered a :: between ++ Sent s :: after)%list
    with ((before ++ Answered a :: between) ++ Sent s :: after)%list in Hlog
    by (rewrite <- app_assoc; reflexivity).
  destruct (snoc_split _ _ _ _ _ Hlog) as [(_ & _ & Hc) | (after' & _ & ->)].
  - destruct (He s Hc).
  - apply (Hs before a between s after'). rewrite <- app_assoc. reflexivity.
Qed.

Lemma spaced_sent (gap : Q) (log : list clock_event) (s : Q) :
  spaced gap log ->
  (forall a, In a (answer_times log) -> a + gap <= s) ->
  spaced gap (log ++ [Sent s]).
Proof.
  intros Hs Ha before a between s' after Hlog.
  replace (before ++ Answered a :: between ++ Sent s' :: after)%list
    with ((before ++ Answered a :: between) ++ Sent s' :: after)%list in Hlog
    by (rewrite <- app_assoc; reflexivity).
  destruct (snoc_split _ _ _ _ _ Hlog) as [(_ & -> & Hc) | (after' & _ & ->)].
  - inversion Hc; subst s'. apply Ha.
    rewrite answer_times_app. apply in_or_app. right. cbn. auto.
  - apply (Hs before a between s' after'). rewrite <- app_assoc. reflexivity.
Qed.

Lemma apart_quiet (gap : Q) (log : list clock_event) (e : clock_event) :
  apart gap log -> (forall s, e <> Sent s) -> apart gap (log ++ [e]).
Proof.
  intros Hs He before a between s after Hlog.
  replace (before ++ Sent a :: between ++ Sent s :: after)%list
    with ((before ++ Sent a :: between) ++ Sent s :: after)%list in Hlog
    by (rewrite <- app_assoc; reflexivity).
  destruct (snoc_split _ _ _ _ _ Hlog) as [(_ & _ & Hc) | (after' & _ & ->)].
  - destruct (He s Hc).
  - apply (Hs before a between s after'). rewrite <- app_assoc. reflexivity.
Qed.

Lemma apart_sent (gap : Q) (log : list clock_event) (s : Q) :
  apart gap log ->
  (forall a, In a (sent_times log) -> a + gap <= s) ->
  apart gap (log ++ [Sent s]).
Proof.
  intros Hs Ha before a between s' after Hlog.
  replace (before ++ Sent a :: between ++ Sent s' :: after)%list
    with ((before ++ Sent a :: between) ++ Sent s' :: after)%list in Hlog
    by (rewrite <- app_assoc; reflexivity).
  destruct (snoc_split _ _ _ _ _ Hlog) as [(_ & -> & Hc) | (after' & _ & ->)].
  - inversion Hc; subst s'. apply Ha.
    rewrite sent_times_app. apply in_or_app. right. cbn. auto.
  - apply (Hs before a between s' after'). rewrite <- app_assoc. reflexivity.
Qed.

(** both spacings, and the times of a log *)
Let paced (log : list clock_event) : Prop :=
  spaced RPS_DELAY_RELOAD_AUDIO log /\ apart RPS_DELAY_RELOAD_AUDIO log.

Let times (log : list clock_event) : list Q :=
  (answer_times log ++ sent_times log)%list.

Lemma paced_quiet (log : list clock_event) (e : clock_event) :
  paced log -> (forall s, e <> Sent s) -> paced (log ++ [e]).
Proof.
  intros (Hs & Ha) He. split; [apply spaced_quiet|apply apart_quiet]; assumption.
Qed.

Lemma paced_sent (log : list clock_event) (s : Q) :
  paced log ->
  (forall x, In x (times log) -> x + RPS_DELAY_RELOAD_AUDIO <= s) ->
  paced (log ++ [Sent s]).
Proof.
  intros (Hs & Ha) Hx. split; [apply spaced_sent|apply apart_sent];
    try assumption; intros x Hin; apply Hx; unfold times; apply in_or_app;
    auto.
Qed.

(** *** The steps of a run with a clock *)

Lemma tbind_time_time {B : Type} (k : Q -> T B) (c : clock) (w : world) :
  tbind time_time k c w = k (now (pass c)) (pass c) w.
Proof.
  unfold tbind, time_time.
  destruct (k (now (pass c)) (pass c) w) as [[[o t] w'] c']. reflexivity.
Qed.

Lemma tbind_time_sleep {B : Type} (d : Q) (k : unit -> T B) (c : clock)
  (w : world) :
  tbind (time_sleep d) k c w
  = k tt (record (Slept d)
            {| now := now (pass c) + d; elapse := elapse (pass c);
               clock_log := clock_log (pass c) |}) w.
Proof.
  unfold tbind, time_sleep.
  match goal with
  | |- _ = ?r => destruct r as [[[o t] w'] c']
  end.
  reflexivity.
Qed.

Lemma tbind_tret {A B : Type} (a : A) (k : A -> T B) (c : clock) (w : world) :
  tbind (tret a) k c w = k a c w.
Proof.
  unfold tbind, tret. destruct (k a c w) as [[[o t] w'] c']. reflexivity.
Qed.

Lemma tbind_lift_ok {A B : Type} (r : result A) (a : A) (k : A -> T B)
  (c : clock) (w : world) :
  r = Ok a -> tbind (untimed (lift r)) k c w = k a c w.
Proof.
  intros ->. unfold tbind, untimed, lift, ret.
  destruct (k a c w) as [[[o t] w'] c']. reflexivity.
Qed.

Lemma tbind_lift_err {A B : Type} (r : result A) (e : exn) (k : A -> T B)
  (c : clock) (w : world) :
  r = Err e -> tbind (untimed (lift r)) k c w = (Halt (Raised e), [], w, c).
Proof. intros ->. reflexivity. Qed.

Lemma tbind_http {B : Type} (req : request) (k : response -> T B)
  (c : clock) (w : world) (a : response) (rest : list response) :
  pending w = a :: rest ->
  tbind (timed_http req) k c w
  = let sent := record (Sent (now (pass c))) (pass c) in
    let '(o, t, w', c') :=
      k a (record (Answered (now (pass sent))) (pass sent))
        {| pending := rest; auth_plan := auth_plan w |} in
    (o, EvRequest req :: t, w', c').
Proof.
  intros Hp. unfold tbind, timed_http, http. rewrite Hp. reflexivity.
Qed.

Lemma tbind_http_starved {B : Type} (req : request) (k : response -> T B)
  (c : clock) (w : world) :
  pending w = [] ->
  tbind (timed_http req) k c w
  = (Halt Starved, [EvRequest req], w, record (Sent (now (pass c))) (pass c)).
Proof.
  intros Hp. unfold tbind, timed_http, http. rewrite Hp. reflexivity.
Qed.

(** *** One turn of the loop *)

(** what holds of the clock and of [last_request] at the start of a turn
    of the loop *)
Let turn_start (c : clock) (last_request : Q) : Prop :=
  nonneg (elapse c)
  /\ paced (clock_log c)
  /\ forall x, In x (times (clock_log c)) ->
               x <= last_request /\ x <= now c.

(** and of the clock [c'] and the trace when the run is over *)
Let turn_end (c c' : clock) (t : list event) : Prop :=
  paced (clock_log c')
  /\ List.length (sent_times (clock_log c'))
     = (List.length (sent_times (clock_log c))
        + List.length (requests_of t))%nat.

(** the clock when the request of the turn is about to go out *)
Let ready (c : clock) (last_request : Q) : clock :=
  let c1 := pass c in
  let delay := RPS_DELAY_RELOAD_AUDIO - (now c1 - last_request) in
  if negb (Qle_bool delay 0)
  then record (Slept delay)
         {| now := now (pass c1) + delay; elapse := elapse (pass c1);
            clock_log := clock_log (pass c1) |}
  else c1.

Lemma ready_facts (c : clock) (last_request : Q) :
  turn_start c last_request ->
  nonneg (elapse (ready c last_request))
  /\ paced (clock_log (ready c last_request))
  /\ sent_times (clock_log (ready c last_request)) = sent_times (clock_log c)
  /\ answer_times (clock_log (ready c last_request))
     = answer_times (clock_log c)
  /\ now c <= now (ready c last_request)
  /\ last_request + RPS_DELAY_RELOAD_AUDIO <= now (ready c last_request).
Proof.
  intros (Hn & Hs & Ha). unfold ready. cbv zeta.
  destruct (pass_facts c Hn) as (Hn1 & Hnow1 & Hlog1).
  destruct (Qle_bool (RPS_DELAY_RELOAD_AUDIO - (now (pass c) - last_request)) 0)
    eqn:Ed; cbn [negb].
  - apply Qle_bool_iff in Ed. rewrite Hlog1.
    split; [assumption|]. split; [assumption|]. repeat split; lra.
  - destruct (pass_facts (pass c) Hn1) as (Hn2 & Hnow2 & Hlog2).
    assert (Hpos : ~ RPS_DELAY_RELOAD_AUDIO - (now (pass c) - last_request) <= 0)
      by (intros Hc; apply Qle_bool_iff in Hc; congruence).
    cbn [record now elapse clock_log]. rewrite Hlog2, Hlog1.
    rewrite sent_times_app, answer_times_app, !app_nil_r.
    split; [assumption|].
    split; [apply paced_quiet; [assumption|discriminate]|].
    repeat split; lra.
Qed.

Lemma turn_clock (c : clock) (last_request : Q) (r : request) :
  turn_start c last_request ->
  let c2 := ready c last_request in
  let sent := record (Sent (now (pass c2))) (pass c2) in
  let answered := record (Answered (now (pass sent))) (pass sent) in
  let t := [EvRequest r] in
  turn_end c c2 []
  /\ turn_end c sent t
  /\ turn_end c answered t
  /\ turn_end c (pass answered) t
  /\ turn_start (pass answered) (now (pass answered)).
Proof.
  intros Hstart c2 sent answered t.
  destruct (ready_facts c last_request Hstart)
    as (Hn2 & Hs2 & Hsent2 & Hans2 & Hnow2 & Hgap).
  destruct Hstart as (Hn & Hs & Ha). fold c2 in Hn2, Hs2, Hsent2, Hans2, Hnow2, Hgap.
  destruct (pass_facts c2 Hn2) as (Hn3 & Hnow3 & Hlog3).
  assert (Hs4 : paced (clock_log sent)).
  { unfold sent. cbn [record clock_log]. rewrite Hlog3.
    apply paced_sent; [exact Hs2|].
    intros a Hin. unfold times in Hin. rewrite Hans2, Hsent2 in Hin.
    destruct (Ha a Hin) as (Hal & _). lra. }
  assert (Hn4 : nonneg (elapse sent)) by exact Hn3.
  destruct (pass_facts sent Hn4) as (Hn5 & Hnow5 & Hlog5).
  assert (Hs6 : paced (clock_log answered)).
  { unfold answered. cbn [record clock_log]. rewrite Hlog5.
    apply paced_quiet; [exact Hs4|discriminate]. }
  assert (Hn6 : nonneg (elapse answered)) by exact Hn5.
  destruct (pass_facts answered Hn6) as (Hn7 & Hnow7 & Hlog7).
  assert (Hsent4 : sent_times (clock_log sent)
                   = (sent_times (clock_log c) ++ [now (pass c2)])%list).
  { unfold sent. cbn [record clock_log].
    rewrite Hlog3, sent_times_app, Hsent2. reflexivity. }
  assert (Hsent6 : sent_times (clock_log answered) = sent_times (clock_log sent)).
  { unfold answered. cbn [record clock_log].
    rewrite Hlog5, sent_times_app. apply app_nil_r. }
  assert (Hcount : List.length (sent_times (clock_log sent))
                   = (List.length (sent_times (clock_log c))
                      + List.length (requests_of t))%nat).
  { rewrite Hsent4, length_app. reflexivity. }
  unfold turn_end.
  split; [split; [exact Hs2|rewrite Hsent2; cbn; lia]|].
  split; [split; [exact Hs4|exact Hcount]|].
  split; [split; [exact Hs6|rewrite Hsent6; exact Hcount]|].
  split; [split; [rewrite Hlog7; exact Hs6
                 |rewrite Hlog7, Hsent6; exact Hcount]|].
  split; [exact Hn7|]. split; [rewrite Hlog7; exact Hs6|].
  intros a Hin. rewrite Hlog7 in Hin. unfold times in Hin.
  rewrite Hsent6, Hsent4 in Hin. unfold answered in Hin.
  cbn [record clock_log] in Hin.
  rewrite Hlog5, answer_times_app in Hin. unfold sent in Hin.
  cbn [record clock_log] in Hin.
  rewrite Hlog3, answer_times_app, app_nil_r, Hans2 in Hin.
  assert (Hle : a <= now answered).
  { unfold answered, sent in *. cbn [record now] in *.
    apply in_app_or in Hin. destruct Hin as [Hin|Hin];
      apply in_app_or in Hin; destruct Hin as [Hin|Hin].
    - destruct (Ha a ltac:(unfold times; apply in_or_app; auto)) as (_ & Hac).
      lra.
    - cbn in Hin. destruct Hin as [<-|[]]. lra.
    - destruct (Ha a ltac:(unfold times; apply in_or_app; auto)) as (_ & Hac).
      lra.
    - cbn in Hin. destruct Hin as [<-|[]]. lra. }
  lra.
Qed.

Context `{PyRuntime}.

Lemma reload_audios_timed_run (ids_group : list (list pyval))
  (last_request : Q) (c : clock) (w : world) :
  turn_start c last_request ->
  forall o t w' c',
    reload_audios_timed ids_group last_request c w = (o, t, w', c') ->
    turn_end c c' t
    /\ (match o with
        | Done turn => Done (fst turn)
        | Halt h => Halt h
        end, t, w') = reload_audios ids_group w
    /\ forall turn, o = Done turn -> turn_start c' (snd turn).
Proof.
  intros Hstart o t w' c' Hrun.
  unfold reload_audios_timed in Hrun. rewrite tbind_time_time in Hrun.
  assert (Hdelay : forall (B : Type) (k : unit -> T B) d,
             d = RPS_DELAY_RELOAD_AUDIO - (now (pass c) - last_request) ->
             tbind (if negb (Qle_bool d 0) then time_sleep d else tret tt) k
               (pass c) w
             = k tt (ready c last_request) w).
  { intros B k d ->. unfold ready. cbv zeta.
    destruct (negb (Qle_bool _ 0));
      [apply tbind_time_sleep|apply tbind_tret]. }
  rewrite (Hdelay _ _ _ eq_refl) in Hrun. clear Hdelay.
  unfold reload_audios.
  destruct (audio_ids_of ids_group) as [audio_ids|e] eqn:Eids.
  2: { rewrite (tbind_lift_err _ e) in Hrun by reflexivity.
       rewrite (lift_err _ e) by reflexivity.
       inversion Hrun; subst.
       destruct (turn_clock c last_request (reload_audios_request "") Hstart)
         as (E2 & _).
       split; [exact E2|]. split; [reflexivity|discriminate]. }
  rewrite (tbind_lift_ok _ audio_ids) in Hrun by reflexivity.
  rewrite (lift_ok _ audio_ids) by reflexivity.
  destruct (turn_clock c last_request (reload_audios_request audio_ids) Hstart)
    as (_ & E4 & E6 & E7 & S7).
  destruct (pending w) as [|a rest] eqn:Ep.
  { rewrite (tbind_http_starved _ _ _ _ Ep) in Hrun.
    rewrite (bind_http_starved _ _ _ Ep).
    inversion Hrun; subst.
    split; [exact E4|]. split; [reflexivity|discriminate]. }
  rewrite (tbind_http _ _ _ _ _ _ Ep) in Hrun.
  rewrite (bind_http _ _ _ _ _ Ep). cbv zeta in Hrun.
  destruct (json_of a) as [result|e] eqn:Ej.
  2: { rewrite (tbind_lift_err _ e) in Hrun by reflexivity.
       rewrite (lift_err _ e) by reflexivity.
       inversion Hrun; subst.
       split; [exact E6|]. split; [reflexivity|discriminate]. }
  rewrite (tbind_lift_ok _ result) in Hrun by reflexivity.
  rewrite (lift_ok _ result) by reflexivity.
  rewrite tbind_time_time in Hrun.
  destruct (getkey result "payload") as [payload|e] eqn:Epl.
  2: { rewrite (tbind_lift_err _ e) in Hrun by reflexivity.
       rewrite (lift_err _ e) by reflexivity.
       inversion Hrun; subst.
       split; [exact E7|]. split; [reflexivity|discriminate]. }
  rewrite (tbind_lift_ok _ payload) in Hrun by reflexivity.
  rewrite (lift_ok _ payload) by reflexivity.
  destruct (truthy payload).
  2: { inversion Hrun; subst.
       split; [exact E7|]. split; [reflexivity|].
       intros turn Ht. inversion Ht; subst turn. exact S7. }
  destruct (getidx payload 1) as [p1|e] eqn:E1.
  2: { rewrite (tbind_lift_err _ e) in Hrun by reflexivity.
       rewrite (lift_err _ e) by reflexivity.
       inversion Hrun; subst.
       split; [exact E7|]. split; [reflexivity|discriminate]. }
  rewrite (tbind_lift_ok _ p1) in Hrun by reflexivity.
  rewrite (lift_ok _ p1) by reflexivity.
  destruct (getidx p1 0) as [data_audio|e] eqn:E0.
  2: { rewrite (tbind_lift_err _ e) in Hrun by reflexivity.
       rewrite (lift_err _ e) by reflexivity.
       inversion Hrun; subst.
       split; [exact E7|]. split; [reflexivity|discriminate]. }
  rewrite (tbind_lift_ok _ data_audio) in Hrun by reflexivity.
  rewrite (lift_ok _ data_audio) by reflexivity.
  destruct (py_iter data_audio) as [audios|e] eqn:Ei.
  2: { rewrite (tbind_lift_err _ e) in Hrun by reflexivity.
       inversion Hrun; subst.
       split; [exact E7|]. split; [reflexivity|discriminate]. }
  rewrite (tbind_lift_ok _ audios) in Hrun by reflexivity.
  inversion Hrun; subst.
  split; [exact E7|]. split; [reflexivity|].
  intros turn Ht. inversion Ht; subst turn. exact S7.
Qed.

Lemma requests_of_yields (ts : list track) : requests_of (map EvYield ts) = [].
Proof. induction ts as [|x ts IH]; [reflexivity|exact IH]. Qed.

Lemma scrap_tracks_timed_groups_run (uid : pyval) (convert : bool)
  (groups : list (list (list pyval))) :
  forall last_request c w o t w' c',
    turn_start c last_request ->
    scrap_tracks_timed_groups uid convert groups last_request c w
    = (o, t, w', c') ->
    turn_end c c' t
    /\ (o, t, w') = scrap_tracks_groups uid convert groups w.
Proof.
  induction groups as [|g rest IH];
    intros last_request c w o t w' c' Hstart Hrun.
  - inversion Hrun; subst. split; [|reflexivity].
    destruct Hstart as (_ & Hs & _). split; [exact Hs|cbn; lia].
  - cbn [scrap_tracks_timed_groups] in Hrun. unfold tbind at 1 in Hrun.
    destruct (reload_audios_timed g last_request c w) as [[[o1 t1] w1] c1]
      eqn:Er.
    destruct (reload_audios_timed_run g last_request c w Hstart _ _ _ _ Er)
      as ((Hs1 & Hcount1) & Herase & Hnext).
    cbn [scrap_tracks_groups]. unfold bind at 1. rewrite <- Herase.
    destruct o1 as [turn|h].
    2: { inversion Hrun; subst. split; [|reflexivity].
         split; assumption. }
    unfold tbind, untimed in Hrun. unfold bind.
    destruct (yield_tracks uid convert (fst turn) w1) as [[o2 t2] w2] eqn:Ey.
    destruct (yield_tracks_run _ _ _ _ _ _ _ Ey) as (_ & _ & ts & -> & _).
    destruct o2 as [u|h].
    2: { inversion Hrun; subst. split; [|reflexivity].
         split; [exact Hs1|].
         rewrite requests_of_app, length_app, requests_of_yields.
         cbn [List.length]. lia. }
    destruct (scrap_tracks_timed_groups uid convert rest (snd turn) c1 w2)
      as [[[o3 t3] w3] c3] eqn:El.
    destruct (IH _ _ _ _ _ _ _ (Hnext turn eq_refl) El)
      as ((Hs3 & Hcount3) & Herase3).
    rewrite <- Herase3. inversion Hrun; subst. split; [|reflexivity].
    split; [exact Hs3|].
    rewrite !requests_of_app, !length_app, requests_of_yields.
    cbn [List.length]. lia.
Qed.

End ClockFacts.

(** C2. The delay between two requests of [scrap_tracks].  On a clock that
    does not run backwards, on which a [time.sleep(d)] lasts [d] at the
    least, every [reload_audios] request goes out [RPS_DELAY_RELOAD_AUDIO],
    one second and a half, or more after the answer to each request
    before it has come, and so that long or more after each request
    before it: this for every list of ids, however the server answers and
    wherever the run ends.  The log has one sending for every
    request of the run, and the run with its clock taken away is the run
    of [scrap_tracks]. *)
Theorem scrap_tracks_delay `{PyRuntime}
  (ids : list (list pyval)) (uid : pyval) (convert : bool)
  (start : Q) (script : list Q) (w : world) :
  Forall (fun d => (0 <= d)%Q) script ->
  let run := scrap_tracks_timed ids uid convert (clock_at start script) w in
  let log := clock_log (snd run) in
  (RPS_DELAY_RELOAD_AUDIO == 1.5)%Q
  /\ (forall before a between s after,
         log = before ++ Answered a :: between ++ Sent s :: after ->
         (a + 1.5 <= s)%Q)
  /\ (forall before s1 between s2 after,
         log = before ++ Sent s1 :: between ++ Sent s2 :: after ->
         (s1 + 1.5 <= s2)%Q)
  /\ List.length (sent_times log)
     = List.length (requests_of (snd (fst (without_clock run))))
  /\ without_clock run = scrap_tracks ids uid convert w.
Proof.
  intros Hscript run log.
  destruct run as [[[o t] w'] c'] eqn:Hrun. unfold run in Hrun.
  unfold scrap_tracks_timed in Hrun.
  destruct (scrap_tracks_timed_groups_run uid convert (ids_groups ids)
              0%Q (clock_at start script) w o t w' c')
    as (((Hs & Ha) & Hcount) & Herase).
  { split; [exact Hscript|]. split.
    - split; intros before a between s after Hlog; cbn in Hlog;
        destruct before; discriminate.
    - intros a [].  }
  { exact Hrun. }
  split; [reflexivity|]. split; [|split; [|split]].
  - intros before a between s after Hlog.
    pose proof (Hs before a between s after Hlog) as Hgap.
    unfold RPS_DELAY_RELOAD_AUDIO in Hgap. lra.
  - intros before s1 between s2 after Hlog.
    pose proof (Ha before s1 between s2 after Hlog) as Hgap.
    unfold RPS_DELAY_RELOAD_AUDIO in Hgap. lra.
  - exact Hcount.
  - unfold without_clock, scrap_tracks. cbn [fst]. exact Herase.
Qed.

Lemma scrap_tracks_delay_witness :
  let script := repeat (1 # 10)%Q 20 in
  let run :=
    @scrap_tracks_timed plain_runtime eleven_ids (PInt 1) true
      (clock_at 100 script) eleven_world in
  let s1 := 100.20%Q in
  let a1 := 100.300%Q in
  let d := (2800000000 # 2000000000)%Q in
  let s2 := (2042000000000000000 # 20000000000000000)%Q in
  let a2 := (20440000000000000000 # 200000000000000000)%Q in
  clock_log (snd run) = [Sent s1; Answered a1; Slept d; Sent s2; Answered a2]
  /\ (a1 == 100.3)%Q /\ (d == 1.4)%Q /\ (s2 == 102.1)%Q
  /\ (a1 + 1.5 <= s2)%Q.
Proof.
  intros script run s1 a1 d s2 a2.
  assert (Hlog : clock_log (snd run)
                 = [Sent s1; Answered a1; Slept d; Sent s2; Answered a2])
    by (vm_compute; reflexivity).
  split; [exact Hlog|].
  split; [reflexivity|]. split; [reflexivity|]. split; [reflexivity|].
  assert (Hscript : Forall (fun x => (0 <= x)%Q) script).
  { apply Forall_forall. intros x Hx. apply repeat_spec in Hx. subst x.
    discriminate. }
  pose proof (@scrap_tracks_delay plain_runtime eleven_ids (PInt 1) true
                100%Q script eleven_world Hscript) as Hall.
  cbv zeta in Hall. destruct Hall as (_ & Hgap & _).
  apply (Hgap [Sent s1] a1 [Slept d] s2 [Answered a2]).
  exact Hlog.
Defined.

(* ================================================================== *)
(** * Part III: more properties of the module *)
(* ================================================================== *)

(** ** [get_target_playlist_from_json]: which playlist it returns *)

Lemma in_targets_In (title : string) (targets : list string) :
  In title targets -> in_targets (PStr title) targets = true.
Proof.
  intros Hin. unfold in_targets. apply existsb_exists.
  exists title. split; [exact Hin|]. cbn. apply String.eqb_refl.
Qed.

Lemma find_target_first (pre post : list pyval) (p : pyval) (title : string)
  (targets : list string) :
  Forall (fun q => exists t, getkey q "title" = Ok t
                             /\ in_targets t targets = false) pre ->
  getkey p "title" = Ok (PStr title) ->
  In title targets ->
  find_target (pre ++ p :: post) targets = Ok p.
Proof.
  intros Hpre Hp Hin. induction Hpre as [|q pre (t & Ht & Hno) _ IH].
  - cbn [app find_target]. rewrite Hp, (in_targets_In _ _ Hin). reflexivity.
  - cbn [app find_target]. rewrite Ht, Hno. exact IH.
Qed.

Lemma find_target_none (items : list pyval) (targets : list string) :
  Forall (fun q => exists t, getkey q "title" = Ok t
                             /\ in_targets t targets = false) items ->
  find_target items targets = Ok PNone.
Proof.
  intros Hall. induction Hall as [|q items (t & Ht & Hno) _ IH];
    [reflexivity|].
  cbn [find_target]. rewrite Ht, Hno. exact IH.
Qed.

Lemma exists_lists_total (items : list pyval) :
  Forall (fun q => (exists t, getkey q "title" = Ok t)
                   /\ exists l, getkey q "list" = Ok l) items ->
  exists titles, exists_lists items = Ok titles.
Proof.
  intros Hall.
  induction Hall as [|q items ((t & Ht) & (l & Hl)) _ (titles & IH)];
    [exists []; reflexivity|].
  cbn [exists_lists]. rewrite Hl, Ht, IH.
  destruct (truthy l); eauto.
Qed.

Lemma exists_lists_missing (pre post : list pyval) (q : pyval) (e : exn) :
  Forall (fun q => (exists t, getkey q "title" = Ok t)
                   /\ exists l, getkey q "list" = Ok l) pre ->
  getkey q "list" = Err e ->
  exists_lists (pre ++ q :: post) = Err e.
Proof.
  intros Hpre Hq. induction Hpre as [|r pre ((t & Ht) & (l & Hl)) _ IH].
  - cbn [app exists_lists]. rewrite Hq. reflexivity.
  - cbn [app exists_lists]. rewrite Hl, Ht, IH.
    destruct (truthy l); reflexivity.
Qed.

(** the function on an answer that holds a list of playlists *)
Lemma get_target_playlist_on_list (json_data : pyval)
  (d : list (string * pyval)) (items : list pyval) (targets : list string)
  (w : world) :
  payload_1_1 json_data = Ok (PDict d) ->
  getkey (PDict d) "playlists" = Ok (PList items) ->
  get_target_playlist_from_json json_data targets w
  = match find_target items targets with
    | Ok target =>
        if is_none target then
          match exists_lists items with
          | Ok _ => (Done target, [], w)
          | Err e => (Halt (Raised e), [], w)
          end
        else (Done target, [], w)
    | Err e => (Halt (Raised e), [], w)
    end.
Proof.
  unfold payload_1_1, get_target_playlist_from_json. intros Hp Hl.
  destruct (getkey json_data "payload") as [payload|] eqn:E1; [|discriminate].
  rewrite (lift_ok _ payload) by reflexivity.
  destruct (getidx payload 1) as [p1|] eqn:E2; [|discriminate].
  rewrite (lift_ok _ p1) by reflexivity.
  rewrite (lift_ok _ _ _ _ Hp). cbn [is_string].
  rewrite (lift_ok _ _ _ _ Hl).
  rewrite (lift_ok (py_iter (PList items)) items) by reflexivity.
  destruct (find_target items targets) as [target|e] eqn:Ef.
  - rewrite (lift_ok _ target) by reflexivity.
    destruct (is_none target); [|reflexivity].
    destruct (exists_lists items) as [titles|e] eqn:Ee.
    + rewrite (lift_ok _ titles) by reflexivity. reflexivity.
    + rewrite (lift_err _ e) by reflexivity. reflexivity.
  - rewrite (lift_err _ e) by reflexivity. reflexivity.
Qed.

(** X1. [get_target_playlist_from_json] returns the first playlist, in the
    order of the answer, whose title is one of the targets: playlists
    after it are not looked at (they may lack a title), and the run makes
    no request and no re-authentication. *)
Theorem target_playlist_first_match (json_data : pyval)
  (d : list (string * pyval)) (pre post : list pyval) (p : pyval)
  (title : string) (targets : list string) (w : world) :
  payload_1_1 json_data = Ok (PDict d) ->
  getkey (PDict d) "playlists" = Ok (PList (pre ++ p :: post)) ->
  Forall (fun q => exists t, getkey q "title" = Ok t
                             /\ in_targets t targets = false) pre ->
  getkey p "title" = Ok (PStr title) ->
  In title targets ->
  get_target_playlist_from_json json_data targets w = (Done p, [], w).
Proof.
  intros Hp Hl Hpre Ht Hin.
  rewrite (get_target_playlist_on_list _ _ _ _ _ Hp Hl).
  rewrite (find_target_first pre post p title targets Hpre Ht Hin).
  destruct p; try discriminate; reflexivity.
Qed.

Lemma target_playlist_first_match_witness :
  get_target_playlist_from_json
    (PDict [("payload",
       PList [PInt 0;
              PList [PStr "";
                     PDict [("playlists",
                       PList [PDict [("title", PStr "A")];
                              PDict [("title", PStr "T"); ("n", PInt 1)];
                              PDict [("title", PStr "T"); ("n", PInt 2)];
                              PDict []])]]])])
    ["S"; "T"] {| pending := []; auth_plan := [] |}
  = (Done (PDict [("title", PStr "T"); ("n", PInt 1)]), [],
     {| pending := []; auth_plan := [] |}).
Proof.
  eapply (target_playlist_first_match _ _ [PDict [("title", PStr "A")]]
            [PDict [("title", PStr "T"); ("n", PInt 2)]; PDict []]
            (PDict [("title", PStr "T"); ("n", PInt 1)]) "T").
  - reflexivity.
  - reflexivity.
  - constructor; [|constructor]. exists (PStr "A"). split; reflexivity.
  - reflexivity.
  - cbn. right. left. reflexivity.
Defined.

(** X2. When no playlist of the answer has a title among the targets,
    [get_target_playlist_from_json] returns [None], without a request,
    provided every playlist has a [list]; the titles it collects for its
    warning make it raise [KeyError] at the first playlist without a
    [list]. *)
Theorem target_playlist_not_found (json_data : pyval)
  (d : list (string * pyval)) (items : list pyval) (targets : list string)
  (w : world) :
  payload_1_1 json_data = Ok (PDict d) ->
  getkey (PDict d) "playlists" = Ok (PList items) ->
  Forall (fun q => exists t, getkey q "title" = Ok t
                             /\ in_targets t targets = false) items ->
  (Forall (fun q => exists l, getkey q "list" = Ok l) items ->
   get_target_playlist_from_json json_data targets w = (Done PNone, [], w))
  /\ (forall pre q post,
         items = pre ++ q :: post ->
         Forall (fun q => exists l, getkey q "list" = Ok l) pre ->
         getkey q "list" = Err KeyError ->
         get_target_playlist_from_json json_data targets w
         = (Halt (Raised KeyError), [], w)).
Proof.
  intros Hp Hl Hno.
  rewrite (get_target_playlist_on_list _ _ _ _ _ Hp Hl).
  rewrite (find_target_none _ _ Hno). cbn [is_none].
  assert (Hboth : forall l : list pyval,
             Forall (fun q => exists t, getkey q "title" = Ok t
                                        /\ in_targets t targets = false) l ->
             Forall (fun q => exists x, getkey q "list" = Ok x) l ->
             Forall (fun q => (exists t, getkey q "title" = Ok t)
                              /\ exists x, getkey q "list" = Ok x) l).
  { intros l H1 H2. rewrite Forall_forall in *. intros q Hq.
    destruct (H1 q Hq) as (t & Ht & _). split; [eauto|auto]. }
  split.
  - intros Hlists.
    destruct (exists_lists_total items (Hboth _ Hno Hlists)) as (titles & ->).
    reflexivity.
  - intros pre q post -> Hpre Hq.
    apply Forall_app in Hno. destruct Hno as (Hno & _).
    rewrite (exists_lists_missing pre post q KeyError (Hboth _ Hno Hpre) Hq).
    reflexivity.
Qed.

Lemma target_playlist_not_found_witness :
  let w := {| pending := []; auth_plan := [] |} in
  let answer := fun items =>
    PDict [("payload",
      PList [PInt 0; PList [PStr ""; PDict [("playlists", PList items)]]])] in
  get_target_playlist_from_json
    (answer [PDict [("title", PStr "A"); ("list", PList [])]]) ["T"] w
  = (Done PNone, [], w)
  /\ get_target_playlist_from_json
       (answer [PDict [("title", PStr "A"); ("list", PList [])];
                PDict [("title", PStr "B")]]) ["T"] w
     = (Halt (Raised KeyError), [], w).
Proof.
  intros w answer.
  set (a := PDict [("title", PStr "A"); ("list", PList [])]).
  set (b := PDict [("title", PStr "B")]).
  assert (Ha : exists t, getkey a "title" = Ok t /\ in_targets t ["T"] = false)
    by (exists (PStr "A"); split; reflexivity).
  assert (Hb : exists t, getkey b "title" = Ok t /\ in_targets t ["T"] = false)
    by (exists (PStr "B"); split; reflexivity).
  assert (Hl : exists l, getkey a "list" = Ok l)
    by (exists (PList []); reflexivity).
  split.
  - destruct (target_playlist_not_found (answer [a])
                [("playlists", PList [a])] [a] ["T"] w eq_refl eq_refl)
      as (Hnone & _).
    + constructor; [exact Ha|constructor].
    + apply Hnone. constructor; [exact Hl|constructor].
  - destruct (target_playlist_not_found (answer [a; b])
                [("playlists", PList [a; b])] [a; b] ["T"] w eq_refl eq_refl)
      as (_ & Hmiss).
    + constructor; [exact Ha|constructor; [exact Hb|constructor]].
    + apply (Hmiss [a] b []); [reflexivity| |reflexivity].
      constructor; [exact Hl|constructor].
Defined.

(** ** A playlist that is not in the answer *)

Lemma get_target_playlist_none (json_data : pyval)
  (d : list (string * pyval)) (items : list pyval) (targets : list string)
  (w : world) :
  payload_1_1 json_data = Ok (PDict d) ->
  getkey (PDict d) "playlists" = Ok (PList items) ->
  Forall (fun q => exists t, getkey q "title" = Ok t
                             /\ in_targets t targets = false) items ->
  Forall (fun q => exists l, getkey q "list" = Ok l) items ->
  get_target_playlist_from_json json_data targets w = (Done PNone, [], w).
Proof.
  intros Hp Hl Hno Hlists.
  rewrite (get_target_playlist_on_list _ _ _ _ _ Hp Hl).
  rewrite (find_target_none _ _ Hno). cbn [is_none].
  destruct (exists_lists_total items) as (titles & ->); [|reflexivity].
  rewrite Forall_forall in *. intros q Hq.
  destruct (Hno q Hq) as (t & Ht & _). split; [eauto|auto].
Qed.

(** X3. When the first answer holds playlists but none with a title among
    the targets, [_iter_playlist_by_response] ends normally after its one
    request: nothing is yielded and nothing is raised, whatever the offset.
    So do [search_iter] on an answer without ['Все треки'] and
    [get_news_iter] on an answer without ['Новинки']. *)
Theorem iter_playlist_target_missing `{PyRuntime} (self : VkAudio)
  (json_data : pyval) (d : list (string * pyval)) (items : list pyval)
  (rest : list response) (w : world) :
  pending w = RespJson json_data :: rest ->
  payload_1_1 json_data = Ok (PDict d) ->
  getkey (PDict d) "playlists" = Ok (PList items) ->
  Forall (fun q => exists l, getkey q "list" = Ok l) items ->
  let w' := {| pending := rest; auth_plan := auth_plan w |} in
  let no_title := fun targets =>
    Forall (fun q => exists t, getkey q "title" = Ok t
                               /\ in_targets t targets = false) items in
  let post := fun data =>
    {| req_method := POST;
       req_url := "https://vk.com/al_audio.php";
       req_data := data;
       req_params := [];
       req_allow_redirects := true |} in
  (forall data targets offset,
      no_title targets ->
      _iter_playlist_by_response self data targets offset w
      = (Done tt, [EvRequest (post data)], w'))
  /\ (forall q offset,
         no_title ["Все треки"] ->
         search_iter self q offset w
         = (Done tt,
            [EvRequest
               (post [("al", PInt 1); ("act", PStr "section");
                      ("claim", PInt 0); ("is_layer", PInt 0);
                      ("owner_id", user_id self); ("section", PStr "search");
                      ("q", q)])], w'))
  /\ (forall offset,
         no_title ["Новинки"] ->
         exists data,
           get_news_iter self offset w
           = (Done tt, [EvRequest (post data)], w')
           /\ assoc "block" data = Some (PStr "new_songs")).
Proof.
  intros Hp H11 Hl Hlists w' no_title post.
  change post with al_audio_request. clear post.
  assert (Hgen : forall data targets offset,
             no_title targets ->
             _iter_playlist_by_response self data targets offset w
             = (Done tt, [EvRequest (al_audio_request data)], w')).
  { intros data targets offset Hno.
    assert (Hfirst : first_playlist data targets w
                     = (Done PNone, [EvRequest (al_audio_request data)], w')).
    { unfold first_playlist. rewrite (bind_http _ _ _ _ _ Hp).
      cbn [json_of]. rewrite (lift_ok _ json_data) by reflexivity.
      fold w'.
      rewrite (get_target_playlist_none _ _ _ _ w' H11 Hl Hno Hlists).
      reflexivity. }
    unfold _iter_playlist_by_response, bind, except_retry.
    rewrite Hfirst. cbn. reflexivity. }
  split; [exact Hgen|]. split.
  - intros q offset Hno. apply (Hgen _ _ offset Hno).
  - intros offset Hno. eexists. split; [apply (Hgen _ _ offset Hno)|].
    reflexivity.
Qed.

Lemma iter_playlist_target_missing_witness :
  let answer :=
    PDict [("payload",
      PList [PInt 0;
             PList [PStr "";
                    PDict [("playlists",
                      PList [PDict [("title", PStr "Albums");
                                    ("list", PList [])]])]]])] in
  let w := {| pending := [RespJson answer]; auth_plan := [] |} in
  @search_iter plain_runtime example_self (PStr "song") 5 w
  = (Done tt, [EvRequest (search_user_request (PInt 1) (PStr "song"))],
     {| pending := []; auth_plan := [] |}).
Proof.
  intros answer w.
  pose proof (@iter_playlist_target_missing plain_runtime example_self answer
                _ _ [] w eq_refl eq_refl eq_refl) as Hall.
  cbv zeta in Hall. destruct Hall as (_ & Hsearch & _).
  - repeat constructor. exists (PList []). reflexivity.
  - apply Hsearch. repeat constructor.
    exists (PStr "Albums"). split; reflexivity.
Defined.

(** ** What a complete run of [scrap_tracks] yields *)

Lemma map_result_app {A B : Type} (f : A -> result B) (l1 l2 : list A)
  (r : list B) :
  map_result f (l1 ++ l2) = Ok r ->
  exists r1 r2,
    map_result f l1 = Ok r1 /\ map_result f l2 = Ok r2 /\ r = r1 ++ r2.
Proof.
  revert r. induction l1 as [|a l1 IH]; intros r Hr.
  - exists [], r. auto.
  - cbn [app map_result] in Hr |- *.
    destruct (f a) as [b|]; [|discriminate].
    destruct (map_result f (l1 ++ l2)) as [bs|] eqn:E; [|discriminate].
    inversion Hr; subst r.
    destruct (IH bs eq_refl) as (r1 & r2 & -> & -> & ->).
    exists (b :: r1), r2. auto.
Qed.

Lemma map_result_app_ok {A B : Type} (f : A -> result B) (l1 l2 : list A)
  (r1 r2 : list B) :
  map_result f l1 = Ok r1 -> map_result f l2 = Ok r2 ->
  map_result f (l1 ++ l2) = Ok (r1 ++ r2).
Proof.
  revert r1. induction l1 as [|a l1 IH]; intros r1 H1 H2.
  - inversion H1. exact H2.
  - cbn [app map_result] in H1 |- *.
    destruct (f a) as [b|]; [|discriminate].
    destruct (map_result f l1) as [bs|] eqn:E; [|discriminate].
    inversion H1; subst r1. rewrite (IH bs eq_refl H2). reflexivity.
Qed.

Lemma world_eta (w : world) :
  {| pending := pending w; auth_plan := auth_plan w |} = w.
Proof. destruct w. reflexivity. Qed.

Section CompleteRuns.
Context `{PyRuntime}.
Variable uid : pyval.
Variable convert : bool.

Lemma yield_tracks_ok (data_audio : list pyval) (ts : list track) (w : world) :
  map_result (track_of_audio uid convert) data_audio = Ok ts ->
  yield_tracks uid convert data_audio w = (Done tt, map EvYield ts, w).
Proof.
  revert ts. induction data_audio as [|audio rest IH]; intros ts Hts.
  - inversion Hts. reflexivity.
  - cbn [map_result] in Hts. cbn [yield_tracks].
    destruct (track_of_audio uid convert audio) as [x|] eqn:Ex; [|discriminate].
    destruct (map_result (track_of_audio uid convert) rest) as [xs|] eqn:Er;
      [|discriminate].
    inversion Hts; subst ts.
    rewrite (lift_ok _ x) by reflexivity.
    unfold bind at 1, yield. unfold bind. rewrite (IH xs eq_refl).
    reflexivity.
Qed.

Lemma yield_tracks_done (data_audio : list pyval) :
  forall w t w',
    yield_tracks uid convert data_audio w = (Done tt, t, w') ->
    w' = w
    /\ exists ts,
         t = map EvYield ts
         /\ map_result (track_of_audio uid convert) data_audio = Ok ts.
Proof.
  induction data_audio as [|audio rest IH]; intros w t w' Hrun.
  - inversion Hrun; subst. split; [reflexivity|]. exists []. auto.
  - cbn [yield_tracks] in Hrun.
    step_lift Hrun.
    split_done Hrun as u t1 w1 t2 Hy Hk.
    inversion Hy; subst t1 w1. clear Hy.
    destruct (IH _ _ _ Hk) as (-> & ts & -> & Hts).
    split; [reflexivity|]. exists (a :: ts). cbn [map_result].
    rewrite E, Hts. auto.
Qed.

Lemma reload_audios_ok (ids_group : list (list pyval)) (audio_ids : string)
  (a : response) (rest : list response) (audios : list pyval) (w : world) :
  audio_ids_of ids_group = Ok audio_ids ->
  pending w = a :: rest ->
  answer_audios a = Ok audios ->
  reload_audios ids_group w
  = (Done audios, [EvRequest (reload_audios_request audio_ids)],
     {| pending := rest; auth_plan := auth_plan w |}).
Proof.
  intros Hids Hp Ha. unfold reload_audios.
  rewrite (lift_ok _ _ _ _ Hids). rewrite (bind_http _ _ _ _ _ Hp).
  unfold answer_audios, rbind in Ha.
  destruct (json_of a) as [result|] eqn:E1; [|discriminate].
  rewrite (lift_ok _ result) by reflexivity.
  destruct (getkey result "payload") as [payload|] eqn:E2; [|discriminate].
  rewrite (lift_ok _ payload) by reflexivity.
  destruct (truthy payload).
  - destruct (getidx payload 1) as [p1|] eqn:E3; [|discriminate].
    rewrite (lift_ok _ p1) by reflexivity.
    destruct (getidx p1 0) as [d|] eqn:E4; [|discriminate].
    rewrite (lift_ok _ d) by reflexivity.
    rewrite Ha. reflexivity.
  - inversion Ha. reflexivity.
Qed.

Lemma reload_audios_done (ids_group : list (list pyval)) :
  forall w audios t w',
    reload_audios ids_group w = (Done audios, t, w') ->
    exists audio_ids a rest,
      audio_ids_of ids_group = Ok audio_ids
      /\ pending w = a :: rest
      /\ answer_audios a = Ok audios
      /\ t = [EvRequest (reload_audios_request audio_ids)]
      /\ w' = {| pending := rest; auth_plan := auth_plan w |}.
Proof.
  intros w audios t w' Hrun. unfold reload_audios in Hrun.
  step_lift Hrun.
  split_done Hrun as r t1 w1 t2 Hh Hk.
  apply http_inv in Hh.
  destruct Hh as (-> & [(_ & Hc & _) | (a0 & rest & Hp & Ha & ->)]);
    [discriminate|].
  inversion Ha; subst a0. clear Ha.
  exists a, r, rest. split; [reflexivity|]. split; [exact Hp|].
  unfold answer_audios, rbind.
  step_lift Hk. step_lift Hk.
  destruct (truthy a1).
  - step_lift Hk. step_lift Hk.
    destruct (py_iter a3) as [l|] eqn:Ei; cbn in Hk; inversion Hk; subst.
    auto.
  - inversion Hk; subst. auto.
Qed.

Lemma scrap_tracks_groups_ok (groups : list (list (list pyval))) :
  forall w answers rest audios tracks,
    Forall (fun g => exists s, audio_ids_of g = Ok s) groups ->
    pending w = answers ++ rest ->
    List.length answers = List.length groups ->
    map_result answer_audios answers = Ok audios ->
    map_result (track_of_audio uid convert) (List.concat audios) = Ok tracks ->
    exists t,
      scrap_tracks_groups uid convert groups w
      = (Done tt, t, {| pending := rest; auth_plan := auth_plan w |})
      /\ yields_of t = tracks
      /\ Forall2 carries (requests_of t) groups.
Proof.
  induction groups as [|g groups IH];
    intros w answers rest audios tracks Hids Hp Hlen Ha Ht.
  - destruct answers; [|discriminate]. inversion Ha; subst audios.
    inversion Ht; subst tracks. cbn [app] in Hp.
    exists []. cbn [scrap_tracks_groups]. unfold ret.
    rewrite <- Hp, world_eta. repeat split. constructor.
  - destruct answers as [|a answers]; [discriminate|].
    cbn [map_result] in Ha.
    destruct (answer_audios a) as [au|] eqn:Ea; [|discriminate].
    destruct (map_result answer_audios answers) as [aus|] eqn:Eas;
      [|discriminate].
    inversion Ha; subst audios. cbn [List.concat] in Ht.
    destruct (map_result_app _ _ _ _ Ht) as (ts1 & ts2 & Hts1 & Hts2 & ->).
    inversion Hids as [|g' gs' (s & Hs) Hids']; subst.
    set (w1 := {| pending := answers ++ rest; auth_plan := auth_plan w |}).
    destruct (IH w1 answers rest aus ts2 Hids' eq_refl
                ltac:(cbn in Hlen; lia) Eas Hts2) as (t & Hrun & Hy & Hreq).
    exists (EvRequest (reload_audios_request s) :: map EvYield ts1 ++ t).
    split; [|split].
    + cbn [scrap_tracks_groups]. unfold bind at 1.
      rewrite (reload_audios_ok g s a (answers ++ rest) au w Hs Hp Ea).
      fold w1. unfold bind at 1. rewrite (yield_tracks_ok au ts1 w1 Hts1).
      rewrite Hrun. reflexivity.
    + cbn [yields_of flat_map app].
      change (flat_map _ (map EvYield ts1 ++ t))
        with (yields_of (map EvYield ts1 ++ t)).
      rewrite yields_of_app, Hy. f_equal.
      clear. induction ts1 as [|x ts1 IH]; [reflexivity|].
      cbn. f_equal. exact IH.
    + cbn [requests_of flat_map app].
      change (flat_map _ (map EvYield ts1 ++ t))
        with (requests_of (map EvYield ts1 ++ t)).
      rewrite requests_of_app.
      replace (requests_of (map EvYield ts1)) with (@nil request)
        by (clear; induction ts1 as [|x ts1 IH]; [reflexivity|exact IH]).
      constructor; [|exact Hreq]. exists s. auto.
Qed.

Lemma scrap_tracks_groups_done (groups : list (list (list pyval))) :
  forall w t w',
    scrap_tracks_groups uid convert groups w = (Done tt, t, w') ->
    exists answers audios,
      pending w = answers ++ pending w'
      /\ List.length answers = List.length groups
      /\ map_result answer_audios answers = Ok audios
      /\ map_result (track_of_audio uid convert) (List.concat audios)
         = Ok (yields_of t).
Proof.
  induction groups as [|g groups IH]; intros w t w' Hrun.
  - inversion Hrun; subst. exists [], []. auto.
  - cbn [scrap_tracks_groups] in Hrun.
    split_done Hrun as au t1 w1 t2 Hr Hk.
    destruct (reload_audios_done _ _ _ _ _ Hr)
      as (s & a & rest & _ & Hp & Ha & -> & ->).
    split_done Hk as u t3 w3 t4 Hy Hk2.
    destruct u.
    destruct (yield_tracks_done _ _ _ _ Hy) as (-> & ts & -> & Hts).
    destruct (IH _ _ _ Hk2) as (answers & audios & Hp2 & Hlen & Has & Hys).
    cbn [pending] in Hp2.
    exists (a :: answers), (au :: audios).
    split; [rewrite Hp, Hp2; reflexivity|].
    split; [cbn; lia|].
    split; [cbn [map_result]; rewrite Ha, Has; reflexivity|].
    cbn [List.concat app yields_of flat_map].
    change (flat_map _ (map EvYield ts ++ t4))
      with (yields_of (map EvYield ts ++ t4)).
    rewrite yields_of_app.
    replace (yields_of (map EvYield ts)) with ts
      by (clear; induction ts as [|x ts IH]; [reflexivity|cbn; f_equal; exact IH]).
    apply map_result_app_ok; assumption.
Qed.

End CompleteRuns.

Lemma Forall_firstn {A : Type} (P : A -> Prop) (n : nat) (l : list A) :
  Forall P l -> Forall P (firstn n l).
Proof.
  intros Hl. revert n. induction Hl as [|a l Ha _ IH]; intros [|n]; cbn;
    constructor; auto.
Qed.

Lemma Forall_skipn {A : Type} (P : A -> Prop) (n : nat) (l : list A) :
  Forall P l -> Forall P (skipn n l).
Proof.
  intros Hl. revert n. induction Hl as [|a l Ha Hl IH]; intros [|n]; cbn;
    auto.
Qed.

Lemma ids_groups_Forall {A : Type} (P : A -> Prop) (ids : list A) :
  Forall P ids -> Forall (Forall P) (ids_groups ids).
Proof.
  intros Hids. unfold ids_groups. apply Forall_map, Forall_forall.
  intros i _. unfold py_slice. apply Forall_firstn, Forall_skipn, Hids.
Qed.

Lemma audio_ids_of_total (ids_group : list (list pyval)) :
  Forall (fun id => exists ss, id = map PStr ss) ids_group ->
  exists audio_ids, audio_ids_of ids_group = Ok audio_ids.
Proof.
  intros Hg.
  assert (Hs : exists sids, ids_group = map (map PStr) sids).
  { induction Hg as [|id g (ss & ->) _ (sids & ->)].
    - exists []. reflexivity.
    - exists (ss :: sids). reflexivity. }
  destruct Hs as (sids & ->). rewrite audio_ids_of_strings. eauto.
Qed.

(** X4. A run of [scrap_tracks] to its end, told by the answers.  When the
    components of the ids are strings and the server answers every group,
    the run ends normally, takes one answer per group and yields, in
    order, the tracks of all the audios of all the answers: an answer is
    not compared with the ids it was asked for, and an answer with a falsy
    payload adds nothing.  Conversely a run that ends normally has taken one
    answer per group and has yielded exactly those tracks. *)
Theorem scrap_tracks_yields_the_answers `{PyRuntime}
  (ids : list (list pyval)) (uid : pyval) (convert : bool) (w : world) :
  (forall answers rest audios tracks,
      Forall (fun id => exists ss, id = map PStr ss) ids ->
      pending w = answers ++ rest ->
      List.length answers = List.length (ids_groups ids) ->
      map_result answer_audios answers = Ok audios ->
      map_result (track_of_audio uid convert) (List.concat audios) = Ok tracks ->
      exists t,
        scrap_tracks ids uid convert w
        = (Done tt, t, {| pending := rest; auth_plan := auth_plan w |})
        /\ yields_of t = tracks
        /\ Forall2 carries (requests_of t) (ids_groups ids))
  /\ (forall t w',
         scrap_tracks ids uid convert w = (Done tt, t, w') ->
         exists answers audios,
           pending w = answers ++ pending w'
           /\ List.length answers = List.length (ids_groups ids)
           /\ map_result answer_audios answers = Ok audios
           /\ map_result (track_of_audio uid convert) (List.concat audios)
              = Ok (yields_of t)).
Proof.
  split.
  - intros answers rest audios tracks Hids Hp Hlen Ha Ht.
    unfold scrap_tracks.
    apply (scrap_tracks_groups_ok uid convert _ w answers rest audios tracks);
      try assumption.
    apply Forall_forall. intros g Hg.
    apply audio_ids_of_total.
    pose proof (ids_groups_Forall _ ids Hids) as Hall.
    rewrite Forall_forall in Hall. apply Hall, Hg.
  - intros t w' Hrun. unfold scrap_tracks in Hrun.
    apply (scrap_tracks_groups_done uid convert _ _ _ _ Hrun).
Qed.

Lemma scrap_tracks_yields_the_answers_witness :
  let ids := map (map PStr) [["7"; "1"; "ha"]; ["7"; "2"; "hb"]] in
  let w :=
    {| pending :=
         [mk_reload_answer [mk_audio 9 7 "https://h/z.mp3" "z" "x" 10;
                            mk_audio 2 7 "https://h/b.mp3" "b" "x" 20];
          mk_reload_answer []];
       auth_plan := [] |} in
  exists t,
    @scrap_tracks plain_runtime ids (PInt 1) true w
    = (Done tt, t, {| pending := [mk_reload_answer []]; auth_plan := [] |})
    /\ map t_id (yields_of t) = [PInt 9; PInt 2].
Proof.
  intros ids w.
  destruct (@scrap_tracks_yields_the_answers plain_runtime ids (PInt 1) true w)
    as (Hok & _).
  edestruct (Hok [mk_reload_answer [mk_audio 9 7 "https://h/z.mp3" "z" "x" 10;
                                    mk_audio 2 7 "https://h/b.mp3" "b" "x" 20]]
               [mk_reload_answer []]) as (t & Hrun & Hy & _).
  - repeat constructor; eexists; reflexivity.
  - reflexivity.
  - reflexivity.
  - reflexivity.
  - reflexivity.
  - exists t. split; [exact Hrun|]. rewrite Hy. reflexivity.
Defined.

(** ** [get_popular_iter]: the offset, and a chart that is not there *)

Lemma py_slice_from_Z_skipn {A : Type} (l : list A) (offset : Z) :
  (if (offset =? 0)%Z then l else py_slice_from_Z l offset)
  = if (offset <? 0)%Z
    then skipn (List.length l - Z.to_nat (- offset)) l
    else skipn (Z.to_nat offset) l.
Proof.
  unfold py_slice_from_Z.
  destruct (Z.eqb_spec offset 0) as [->|Hne]; [reflexivity|reflexivity].
Qed.

Section PopularRuns.
Context `{PyRuntime}.
Variable self : VkAudio.

(** the run once the page of the chart has given a playlist *)
Lemma get_popular_iter_embedded (offset : Z) (w : world) (page : response)
  (rest : list response) (json_response section_data explore playlist
   audio_data : pyval) (ids : list (list pyval)) :
  pending w = page :: rest ->
  audio_page_json page = Ok json_response ->
  getkey json_response "sectionData" = Ok section_data ->
  getkey section_data "explore" = Ok explore ->
  getkey explore "playlist" = Ok playlist ->
  truthy playlist = true ->
  getkey playlist "list" = Ok audio_data ->
  scrap_ids audio_data = Ok ids ->
  get_popular_iter self offset w
  = let '(o, t, w') :=
      scrap_tracks
        (if (offset <? 0)%Z
         then skipn (List.length ids - Z.to_nat (- offset)) ids
         else skipn (Z.to_nat offset) ids)
        (user_id self) (convert_m3u8_links self)
        {| pending := rest; auth_plan := auth_plan w |} in
    (o, EvRequest tracks_chart_request :: t, w').
Proof.
  intros Hp Hj Hs He Hpl Htr Hl Hids. unfold get_popular_iter.
  rewrite (bind_http _ _ _ _ _ Hp).
  rewrite (lift_ok _ _ _ _ Hj), (lift_ok _ _ _ _ Hs), (lift_ok _ _ _ _ He),
    (lift_ok _ _ _ _ Hpl).
  rewrite Htr. cbn [negb].
  unfold bind at 1, ret.
  rewrite (lift_ok _ _ _ _ Hl), (lift_ok _ _ _ _ Hids).
  rewrite py_slice_from_Z_skipn.
  destruct (scrap_tracks _ _ _ _) as [[o t] w']. reflexivity.
Qed.

End PopularRuns.

(** X5. [get_popular_iter] honours its offset.  When the page of the chart
    holds a playlist, the run asks for the page and then only for the ids
    [ids[offset:]] of that playlist, in groups of ten ([offset < 0] counts
    from the end, as a Python slice does); a complete run has asked for
    all of them, and an offset at or past the number of ids gives a run of
    the one request that yields nothing. *)
Theorem get_popular_iter_offset `{PyRuntime} (self : VkAudio) (offset : Z)
  (w : world) (page : response) (rest : list response)
  (json_response section_data explore playlist audio_data : pyval)
  (ids : list (list pyval)) :
  pending w = page :: rest ->
  audio_page_json page = Ok json_response ->
  getkey json_response "sectionData" = Ok section_data ->
  getkey section_data "explore" = Ok explore ->
  getkey explore "playlist" = Ok playlist ->
  truthy playlist = true ->
  getkey playlist "list" = Ok audio_data ->
  scrap_ids audio_data = Ok ids ->
  let wanted :=
    if (offset <? 0)%Z
    then skipn (List.length ids - Z.to_nat (- offset)) ids
    else skipn (Z.to_nat offset) ids in
  let w1 := {| pending := rest; auth_plan := auth_plan w |} in
  let chart :=
    {| req_method := POST;
       req_url := "https://vk.com/audio";
       req_data := [("block", PStr "tracks_chart"); ("section", PStr "explore")];
       req_params := [];
       req_allow_redirects := true |} in
  (forall o t w',
      get_popular_iter self offset w = (o, t, w') ->
      exists t' k,
        t = EvRequest chart :: t'
        /\ (k <= List.length (ids_groups wanted))%nat
        /\ Forall2 carries (requests_of t') (firstn k (ids_groups wanted))
        /\ (o = Done tt -> k = List.length (ids_groups wanted)))
  /\ ((Z.of_nat (List.length ids) <= offset)%Z ->
      get_popular_iter self offset w
      = (Done tt, [EvRequest chart], w1)).
Proof.
  intros Hp Hj Hs He Hpl Htr Hl Hids wanted w1 chart.
  change chart with tracks_chart_request. clear chart.
  pose proof (get_popular_iter_embedded self offset w page rest _ _ _ _ _ _
                Hp Hj Hs He Hpl Htr Hl Hids) as Hrun.
  fold wanted w1 in Hrun. split.
  - intros o t w' Ho. rewrite Hrun in Ho.
    destruct (scrap_tracks wanted (user_id self) (convert_m3u8_links self) w1)
      as [[o1 t1] w2] eqn:Es.
    inversion Ho; subst o t w'. clear Ho.
    unfold scrap_tracks in Es.
    destruct (scrap_tracks_groups_run _ _ _ _ _ _ _ Es)
      as (_ & _ & _ & _ & (k & Hk & Hreq & Hdone) & _).
    exists t1, k. auto.
  - intros Hge. rewrite Hrun.
    replace wanted with (@nil (list pyval)); [reflexivity|].
    unfold wanted. destruct (Z.ltb_spec offset 0) as [Hlt|_]; [lia|].
    symmetry. apply skipn_all2. lia.
Qed.

Lemma get_popular_iter_offset_witness :
  let tracks := [mk_track 1 7 "ha"; mk_track 2 7 "hb"; mk_track 3 7 "hc"] in
  let page :=
    RespJson (PDict [("sectionData",
      PDict [("explore",
        PDict [("playlist", PDict [("list", PList tracks)])])])]) in
  let w :=
    {| pending := [page; mk_reload_answer []]; auth_plan := [] |} in
  let run := @get_popular_iter plain_runtime example_self 1 w in
  (exists t' k,
      snd (fst run) = EvRequest tracks_chart_request :: t'
      /\ (k <= 1)%nat
      /\ Forall2 carries (requests_of t')
           (firstn k [[[PStr "7"; PStr "2"; PStr "hb"];
                       [PStr "7"; PStr "3"; PStr "hc"]]])
      /\ (fst (fst run) = Done tt -> k = 1%nat))
  /\ @get_popular_iter plain_runtime example_self 3 w
     = (Done tt, [EvRequest tracks_chart_request],
        {| pending := [mk_reload_answer []]; auth_plan := [] |}).
Proof.
  intros tracks page w run.
  pose proof (fun offset =>
    @get_popular_iter_offset plain_runtime example_self offset w page
      [mk_reload_answer []] _ _ _ _ _ _
      eq_refl eq_refl eq_refl eq_refl eq_refl eq_refl eq_refl eq_refl) as Hall.
  cbv zeta in Hall. split.
  - destruct (Hall 1%Z) as (Hrun & _).
    apply (Hrun (fst (fst run)) (snd (fst run)) (snd run)). reflexivity.
  - destruct (Hall 3%Z) as (_ & Hpast). apply Hpast. cbn. lia.
Defined.

(** X6. [get_popular_iter] without a chart.  When the page holds no
    playlist, the catalog section named by the page is asked for; when its
    answer holds playlists but none titled ['Чарт треков'], the run ends
    with [TypeError], raised by [playlist['list']] on [None], after these
    two requests and nothing else. *)
Theorem get_popular_iter_chart_missing `{PyRuntime} (self : VkAudio)
  (offset : Z) (w : world) (page : response) (json_data : pyval)
  (rest : list response)
  (json_response section_data explore playlist section_id : pyval)
  (d : list (string * pyval)) (items : list pyval) :
  pending w = page :: RespJson json_data :: rest ->
  audio_page_json page = Ok json_response ->
  getkey json_response "sectionData" = Ok section_data ->
  getkey section_data "explore" = Ok explore ->
  getkey explore "playlist" = Ok playlist ->
  truthy playlist = false ->
  getkey explore "sectionId" = Ok section_id ->
  payload_1_1 json_data = Ok (PDict d) ->
  getkey (PDict d) "playlists" = Ok (PList items) ->
  Forall (fun q => exists t, getkey q "title" = Ok t
                             /\ in_targets t ["Чарт треков"] = false) items ->
  Forall (fun q => exists l, getkey q "list" = Ok l) items ->
  get_popular_iter self offset w
  = (Halt (Raised TypeError),
     [EvRequest
        {| req_method := POST;
           req_url := "https://vk.com/audio";
           req_data :=
             [("block", PStr "tracks_chart"); ("section", PStr "explore")];
           req_params := [];
           req_allow_redirects := true |};
      EvRequest
        {| req_method := POST;
           req_url := "https://vk.com/al_audio.php";
           req_data :=
             [("al", PInt 1); ("act", PStr "load_catalog_section");
              ("section_id", section_id)];
           req_params := [];
           req_allow_redirects := true |}],
     {| pending := rest; auth_plan := auth_plan w |}).
Proof.
  intros Hp Hj Hs He Hpl Htr Hsec H11 Hl Hno Hlists. unfold get_popular_iter.
  rewrite (bind_http _ _ _ _ _ Hp).
  rewrite (lift_ok _ _ _ _ Hj), (lift_ok _ _ _ _ Hs), (lift_ok _ _ _ _ He),
    (lift_ok _ _ _ _ Hpl).
  rewrite Htr. cbn [negb].
  unfold bind at 1.
  rewrite (lift_ok _ _ _ _ Hsec).
  set (w1 := {| pending := RespJson json_data :: rest;
                auth_plan := auth_plan w |}).
  rewrite (bind_http _ _ w1 (RespJson json_data) rest eq_refl).
  cbn [json_of]. rewrite (lift_ok _ json_data) by reflexivity.
  rewrite (get_target_playlist_none _ _ _ _ _ H11 Hl Hno Hlists).
  reflexivity.
Qed.

Lemma get_popular_iter_chart_missing_witness :
  let page :=
    RespJson (PDict [("sectionData",
      PDict [("explore",
        PDict [("playlist", PNone); ("sectionId", PStr "sec")])])]) in
  let answer :=
    PDict [("payload",
      PList [PInt 0;
             PList [PStr "";
                    PDict [("playlists",
                      PList [PDict [("title", PStr "Other");
                                    ("list", PList [])]])]]])] in
  @get_popular_iter plain_runtime example_self 0
    {| pending := [page; RespJson answer]; auth_plan := [] |}
  = (Halt (Raised TypeError),
     [EvRequest tracks_chart_request;
      EvRequest (al_audio_request
                   [("al", PInt 1); ("act", PStr "load_catalog_section");
                    ("section_id", PStr "sec")])],
     {| pending := []; auth_plan := [] |}).
Proof.
  intros page answer.
  eapply (@get_popular_iter_chart_missing plain_runtime example_self 0%Z
            {| pending := [page; RespJson answer]; auth_plan := [] |}
            page answer []);
    try reflexivity.
  - repeat constructor. exists (PStr "Other"). split; reflexivity.
  - repeat constructor. exists (PList []). reflexivity.
Defined.

(** ** [scrap_ids_from_html] *)

Section HtmlFacts.
Context `{PyRuntime}.

Lemma scrap_ids_from_html_loop_spec (items : list audio_item) :
  forall ids,
    scrap_ids_from_html_loop items ids
    = match map_result item_full_id (filter item_enabled items) with
      | Ok full_ids => Ok (ids ++ filter py_all full_ids)
      | Err e => Err e
      end.
Proof.
  induction items as [|audio items IH]; intros ids.
  - cbn. rewrite app_nil_r. reflexivity.
  - cbn [scrap_ids_from_html_loop filter]. unfold item_enabled at 1.
    destruct (existsb (String.eqb "audio_item_disabled") (item_class audio));
      cbn [negb]; [apply IH|].
    cbn [map_result]. unfold item_full_id at 1, rbind.
    destruct (item_data_audio audio) as [data_audio|e]; [|reflexivity].
    destruct (full_id_of_html data_audio) as [full_id|e]; [|reflexivity].
    rewrite IH.
    destruct (map_result item_full_id (filter item_enabled items))
      as [full_ids|e]; [|reflexivity].
    cbn [filter]. destruct (py_all full_id); [|reflexivity].
    rewrite <- app_assoc. reflexivity.
Qed.

Lemma full_id_of_html_strings (data_audio : pyval) (full_id : list pyval) :
  full_id_of_html data_audio = Ok full_id ->
  exists a b c d, full_id = map PStr [a; b; c; d].
Proof.
  unfold full_id_of_html, rbind.
  destruct (getidx data_audio 13) as [d13|]; [|discriminate].
  destruct d13 as [| | |s| |]; try discriminate. cbn [py_split].
  destruct (getidx data_audio 1) as [d1|]; [|discriminate].
  destruct (getidx data_audio 0) as [d0|]; [|discriminate].
  cbn [getidx].
  destruct (nth_error (map PStr (split_on "/" s)) 2) as [h2|] eqn:E2;
    [|discriminate].
  destruct (nth_error (map PStr (split_on "/" s)) 5) as [h5|] eqn:E5;
    [|discriminate].
  intros Hid. inversion Hid; subst full_id.
  rewrite nth_error_map in E2, E5.
  destruct (nth_error (split_on "/" s) 2) as [c|]; [|discriminate].
  destruct (nth_error (split_on "/" s) 5) as [d|]; [|discriminate].
  inversion E2; inversion E5. exists (py_str d1), (py_str d0), c, d.
  reflexivity.
Qed.

Lemma map_result_Forall {A B : Type} (f : A -> result B) (P : B -> Prop)
  (l : list A) (r : list B) :
  (forall a b, f a = Ok b -> P b) ->
  map_result f l = Ok r -> Forall P r.
Proof.
  intros Hf. revert r. induction l as [|a l IH]; intros r Hr.
  - inversion Hr. constructor.
  - cbn [map_result] in Hr.
    destruct (f a) as [b|] eqn:Eb; [|discriminate].
    destruct (map_result f l) as [bs|]; [|discriminate].
    inversion Hr; subst r. constructor; [apply (Hf a b Eb)|apply IH; reflexivity].
Qed.

Lemma scrap_ids_from_html_strings (html : response) (attr value : string)
  (ids : list (list pyval)) :
  scrap_ids_from_html html attr value = Ok ids ->
  Forall (fun id => exists ss, id = map PStr ss) ids.
Proof.
  unfold scrap_ids_from_html.
  destruct (soup_audio_items attr value html) as [items|]; [|discriminate].
  rewrite scrap_ids_from_html_loop_spec.
  destruct (map_result item_full_id (filter item_enabled items))
    as [full_ids|] eqn:Em; [|discriminate].
  intros Hids. inversion Hids; subst ids. cbn [app].
  apply Forall_forall. intros id Hin. apply filter_In in Hin.
  destruct Hin as (Hin & _).
  pose proof (map_result_Forall item_full_id
                (fun id => exists ss, id = map PStr ss)
                (filter item_enabled items) full_ids) as Hall.
  rewrite Forall_forall in Hall. apply (fun Hf => Hall Hf Em); [|exact Hin].
  intros a b Hb. unfold item_full_id, rbind in Hb.
  destruct (item_data_audio a) as [data_audio|]; [|discriminate].
  destruct (full_id_of_html_strings _ _ Hb) as (x & y & z & u & ->).
  eauto.
Qed.

End HtmlFacts.

(** X7. [scrap_ids_from_html] raises [ValueError] on a page without the
    root element.  Otherwise it goes through the audio items under the
    root in page order: a disabled item is passed over without a look at
    its [data-audio]; the first of the other items whose tuple cannot be
    built ends the call with that error; if there is none, the result is
    the tuples with no falsy component, in order.  Every tuple returned has
    four components and all of them are strings, the third and the sixth
    field of [data_audio[13]] cut at ['/'] being the last two. *)
Theorem scrap_ids_from_html_items `{PyRuntime}
  (html : response) (attr value : string) :
  (soup_audio_items attr value html = None ->
   scrap_ids_from_html html attr value = Err ValueError)
  /\ (forall items,
         soup_audio_items attr value html = Some items ->
         scrap_ids_from_html html attr value
         = match map_result item_full_id (filter item_enabled items) with
           | Ok full_ids => Ok (filter py_all full_ids)
           | Err e => Err e
           end)
  /\ (forall ids,
         scrap_ids_from_html html attr value = Ok ids ->
         Forall (fun id => exists a b c d, id = map PStr [a; b; c; d]
                                           /\ a <> "" /\ b <> ""
                                           /\ c <> "" /\ d <> "") ids)
  /\ (forall (l : list pyval) (s : string) (d0 d1 : pyval) (c d : string),
         nth_error l 13 = Some (PStr s) ->
         nth_error l 0 = Some d0 ->
         nth_error l 1 = Some d1 ->
         nth_error (split_on "/" s) 2 = Some c ->
         nth_error (split_on "/" s) 5 = Some d ->
         full_id_of_html (PList l)
         = Ok [PStr (py_str d1); PStr (py_str d0); PStr c; PStr d]).
Proof.
  split; [|split; [|split]].
  - intros Hnone. unfold scrap_ids_from_html. rewrite Hnone. reflexivity.
  - intros items Hitems. unfold scrap_ids_from_html. rewrite Hitems.
    rewrite scrap_ids_from_html_loop_spec. reflexivity.
  - intros ids Hids. unfold scrap_ids_from_html in Hids.
    destruct (soup_audio_items attr value html) as [items|]; [|discriminate].
    rewrite scrap_ids_from_html_loop_spec in Hids.
    destruct (map_result item_full_id (filter item_enabled items))
      as [full_ids|] eqn:Em; [|discriminate].
    inversion Hids; subst ids. cbn [app].
    apply Forall_forall. intros id Hin. apply filter_In in Hin.
    destruct Hin as (Hin & Hall).
    pose proof (map_result_Forall item_full_id
                  (fun id => exists a b c d, id = map PStr [a; b; c; d])
                  (filter item_enabled items) full_ids) as Hshape.
    rewrite Forall_forall in Hshape.
    destruct (fun Hf => Hshape Hf Em id Hin) as (a & b & c & d & ->).
    { intros x y Hy. unfold item_full_id, rbind in Hy.
      destruct (item_data_audio x) as [data_audio|]; [|discriminate].
      apply (full_id_of_html_strings _ _ Hy). }
    exists a, b, c, d. split; [reflexivity|].
    cbn in Hall.
    repeat match type of Hall with
           | context [String.eqb ?x ""] =>
               destruct (String.eqb_spec x ""); cbn in Hall;
               [discriminate|]
           end.
    auto.
  - intros l s d0 d1 c d H13 H0 H1 Hc Hd.
    unfold full_id_of_html, rbind. cbn [getidx]. rewrite H13. cbn [py_split].
    rewrite H1, H0. cbn [getidx]. rewrite !nth_error_map, Hc, Hd.
    reflexivity.
Qed.

Lemma scrap_ids_from_html_items_witness :
  @scrap_ids_from_html disabled_runtime
    (RespText "<div class='basisDefault'></div>") "class" "basisDefault"
  = Ok []
  /\ @full_id_of_html plain_runtime
       (PList ([PInt 5; PInt 7] ++ repeat PNone 11 ++ [PStr "a/b/c/d/e/f/g"]))
     = Ok [PStr "7"; PStr "5"; PStr "c"; PStr "f"].
Proof.
  split.
  - destruct (@scrap_ids_from_html_items disabled_runtime
                (RespText "<div class='basisDefault'></div>")
                "class" "basisDefault") as (_ & Hitems & _).
    rewrite (Hitems _ eq_refl). reflexivity.
  - destruct (@scrap_ids_from_html_items plain_runtime
                (RespText "") "class" "basisDefault") as (_ & _ & _ & Hid).
    apply (Hid _ "a/b/c/d/e/f/g" (PInt 5) (PInt 7) "c" "f"); reflexivity.
Defined.

(** ** The methods that read a page: [get_post_audio], [get_audio_by_id] *)

Lemma ids_groups_head {A : Type} (id : A) (ids : list A) :
  exists groups,
    ids_groups (id :: ids) = firstn 10 (id :: ids) :: groups
    /\ (List.length (id :: ids) <= 10 -> groups = [])%nat.
Proof.
  rewrite ids_groups_eq.
  destruct ((List.length (id :: ids) + 9) / 10)%nat as [|m] eqn:Em.
  - exfalso. cbn [List.length] in Em.
    pose proof (Nat.div_str_pos (S (List.length ids) + 9) 10) as Hpos. lia.
  - cbn [seq map]. eexists. split; [reflexivity|].
    intros Hle. destruct m as [|m]; [reflexivity|]. exfalso.
    assert (Hlt : ((List.length (id :: ids) + 9) / 10 < 2)%nat)
      by (apply Nat.Div0.div_lt_upper_bound; lia).
    lia.
Qed.

(** X8. [get_post_audio] makes its one request when it is called and
    raises [ValueError] there when the page has no element of class
    ['audios_list'].  The generator it returns, consumed on answers to
    every group of the ids of the page, ends normally and yields the
    tracks of the answers in order: ids scraped from a page are tuples of
    strings, so joining them never fails. *)
Theorem get_post_audio_tracks `{PyRuntime} (self : VkAudio)
  (owner_id post_id : pyval) (w : world) (page : response)
  (later : list response) :
  pending w = page :: later ->
  let request :=
    {| req_method := GET;
       req_url :=
         "https://m.vk.com/wall" ++ py_str owner_id ++ "_" ++ py_str post_id;
       req_data := [];
       req_params := [];
       req_allow_redirects := true |} in
  let w1 := {| pending := later; auth_plan := auth_plan w |} in
  (soup_audio_items "class" "audios_list" page = None ->
   get_post_audio self owner_id post_id w
   = (Halt (Raised ValueError), [EvRequest request], w1))
  /\ (forall ids answers rest audios tracks,
         scrap_ids_from_html page "class" "audios_list" = Ok ids ->
         later = answers ++ rest ->
         List.length answers = List.length (ids_groups ids) ->
         map_result answer_audios answers = Ok audios ->
         map_result (track_of_audio (user_id self) (convert_m3u8_links self))
           (List.concat audios) = Ok tracks ->
         exists g t,
           get_post_audio self owner_id post_id w
           = (Done g, [EvRequest request], w1)
           /\ consume g w1
              = (Done tt, t, {| pending := rest; auth_plan := auth_plan w |})
           /\ yields_of t = tracks
           /\ Forall2 carries (requests_of t) (ids_groups ids)).
Proof.
  intros Hp request w1.
  change request with (wall_post_request owner_id post_id). clear request.
  split.
  - intros Hnone. unfold get_post_audio.
    rewrite (bind_http _ _ _ _ _ Hp).
    unfold scrap_ids_from_html. rewrite Hnone.
    rewrite (lift_err _ ValueError) by reflexivity. reflexivity.
  - intros ids answers rest audios tracks Hids -> Hlen Ha Ht.
    destruct (scrap_tracks_groups_ok (user_id self) (convert_m3u8_links self)
                (ids_groups ids) w1 answers rest audios tracks)
      as (t & Hrun & Hy & Hreq); try assumption; try reflexivity.
    { apply Forall_forall. intros g Hg. apply audio_ids_of_total.
      pose proof (ids_groups_Forall _ ids
                    (scrap_ids_from_html_strings _ _ _ _ Hids)) as Hall.
      rewrite Forall_forall in Hall. apply Hall, Hg. }
    eexists. exists t. split; [|split; [|split]].
    + unfold get_post_audio. rewrite (bind_http _ _ _ _ _ Hp).
      rewrite (lift_ok _ _ _ _ Hids). reflexivity.
    + exact Hrun.
    + exact Hy.
    + exact Hreq.
Qed.

Lemma get_post_audio_tracks_witness :
  let answer := mk_reload_answer [mk_audio 3 7 "https://h/c.mp3" "c" "x" 10] in
  let w := {| pending := [RespText post_page; answer]; auth_plan := [] |} in
  let w1 := {| pending := [answer]; auth_plan := [] |} in
  let empty := {| pending := [RespText "<div></div>"]; auth_plan := [] |} in
  let request :=
    {| req_method := GET;
       req_url := "https://m.vk.com/wall-5_9";
       req_data := [];
       req_params := [];
       req_allow_redirects := true |} in
  let track :=
    {| t_id := PInt 3; t_owner_id := PInt 7; t_track_covers := PList [];
       t_url := PStr "https://h/c.mp3";
       t_artist := PStr "x"; t_title := PStr "c"; t_duration := PInt 10 |} in
  (exists g t,
      @get_post_audio plain_runtime example_self (PInt (-5)) (PInt 9) w
      = (Done g, [EvRequest request], w1)
      /\ @consume plain_runtime g w1
         = (Done tt, t, {| pending := []; auth_plan := [] |})
      /\ yields_of t = [track]
      /\ map req_data (requests_of t)
         = [[("al", PInt 1); ("audio_ids", PStr "7_3_hc_hf")]])
  /\ @get_post_audio plain_runtime example_self (PInt (-5)) (PInt 9) empty
     = (Halt (Raised ValueError), [EvRequest request],
        {| pending := []; auth_plan := [] |}).
Proof.
  intros answer w w1 empty request track. split.
  - pose proof (@get_post_audio_tracks plain_runtime example_self (PInt (-5))
                  (PInt 9) w (RespText post_page) [answer] eq_refl) as Hall.
    cbv zeta in Hall. destruct Hall as (_ & Hrun).
    destruct (Hrun [[PStr "7"; PStr "3"; PStr "hc"; PStr "hf"]] [answer] []
                [[mk_audio 3 7 "https://h/c.mp3" "c" "x" 10]] [track])
      as (g & t & Hcall & Hconsume & Hy & Hreq); try reflexivity.
    exists g, t. split; [exact Hcall|]. split; [exact Hconsume|].
    split; [exact Hy|].
    inversion Hcall; subst g. vm_compute in Hconsume.
    inversion Hconsume; subst t. reflexivity.
  - pose proof (@get_post_audio_tracks plain_runtime example_self (PInt (-5))
                  (PInt 9) empty (RespText "<div></div>") [] eq_refl) as Hall.
    cbv zeta in Hall. destruct Hall as (Hnone & _).
    apply Hnone. reflexivity.
Defined.

(** X9. [get_audio_by_id] on a page with ids: it asks for the first group
    of at most ten ids only.  When the answer holds audios the call
    returns the track of the first of them after these two requests,
    whatever the other audios and the other ids are; when the answer
    holds none and the ids are no more than ten, the call ends with
    [StopIteration] after the same two requests. *)
Theorem get_audio_by_id_first_track `{PyRuntime} (self : VkAudio)
  (owner_id audio_id : pyval) (w : world) (page a : response)
  (rest : list response) (id : list pyval) (ids : list (list pyval)) :
  pending w = page :: a :: rest ->
  scrap_ids_from_html page "class" "basisDefault" = Ok (id :: ids) ->
  exists audio_ids,
    audio_ids_of (firstn 10 (id :: ids)) = Ok audio_ids
    /\ let t :=
         [EvRequest
            {| req_method := GET;
               req_url :=
                 "https://m.vk.com/audio" ++ py_str owner_id ++ "_"
                 ++ py_str audio_id;
               req_data := [];
               req_params := [];
               req_allow_redirects := false |};
          EvRequest
            {| req_method := POST;
               req_url := "https://vk.com/al_audio.php";
               req_data := [("al", PInt 1); ("audio_ids", PStr audio_ids)];
               req_params := [("act", PStr "reload_audios")];
               req_allow_redirects := true |}] in
       let w2 := {| pending := rest; auth_plan := auth_plan w |} in
       (forall audio more x,
           answer_audios a = Ok (audio :: more) ->
           track_of_audio (user_id self) (convert_m3u8_links self) audio = Ok x ->
           get_audio_by_id self owner_id audio_id w = (Done (ATrack x), t, w2))
       /\ (answer_audios a = Ok [] ->
           (List.length (id :: ids) <= 10)%nat ->
           get_audio_by_id self owner_id audio_id w
           = (Halt (Raised StopIteration), t, w2)).
Proof.
  intros Hp Hids.
  destruct (audio_ids_of_total (firstn 10 (id :: ids))) as (audio_ids & Hs).
  { apply Forall_firstn. apply (scrap_ids_from_html_strings _ _ _ _ Hids). }
  exists audio_ids. split; [exact Hs|]. intros t w2.
  change t with [EvRequest (audio_page_request owner_id audio_id);
                 EvRequest (reload_audios_request audio_ids)] in *.
  clear t.
  set (t := [EvRequest (audio_page_request owner_id audio_id);
             EvRequest (reload_audios_request audio_ids)]).
  destruct (ids_groups_head id ids) as (groups & Hg & Hone).
  assert (Hrun : forall audios,
             answer_audios a = Ok audios ->
             get_audio_by_id self owner_id audio_id w
             = let '(o, t', w') :=
                 match audios with
                 | audio :: _ =>
                     lift (track_of_audio (user_id self)
                             (convert_m3u8_links self) audio) w2
                 | [] =>
                     next_groups (user_id self) (convert_m3u8_links self)
                       groups w2
                 end in
               (match o with
                | Done x => Done (ATrack x)
                | Halt h => Halt h
                end, t ++ t', w')).
  { intros audios Ha. unfold get_audio_by_id.
    rewrite (bind_http _ _ _ _ _ Hp). rewrite (lift_ok _ _ _ _ Hids).
    cbn [truthy_generator]. unfold next.
    cbn [gen_ids gen_user_id gen_convert]. rewrite Hg.
    cbn [next_groups].
    unfold bind at 1. unfold bind at 1.
    rewrite (reload_audios_ok _ _ _ _ _
               {| pending := a :: rest; auth_plan := auth_plan w |}
               Hs eq_refl Ha).
    cbn [auth_plan]. fold w2.
    destruct audios as [|audio more].
    - destruct (next_groups _ _ groups w2) as [[[x|h] t'] w'];
        unfold ret, t; cbn [app]; rewrite ?app_nil_r; reflexivity.
    - destruct (lift _ w2) as [[[x|h] t'] w'];
        unfold ret, t; cbn [app]; rewrite ?app_nil_r; reflexivity. }
  split.
  - intros audio more x Ha Hx. rewrite (Hrun _ Ha).
    rewrite Hx. reflexivity.
  - intros Ha Hle. rewrite (Hrun _ Ha). rewrite (Hone Hle). reflexivity.
Qed.

Lemma get_audio_by_id_first_track_witness :
  let item :=
    {| item_class := ["audio_item"];
       item_data_audio :=
         Ok (PList ([PInt 5; PInt 7] ++ repeat PNone 11
                    ++ [PStr "a/b/c/d/e/f/g"])) |} in
  let runtime :=
    {| repr_items := fun _ => "...";
       repr_pairs := fun _ => "...";
       decode_audio_url := fun _ _ => Err (ExternalError "decode_audio_url");
       soup_text := fun markup => Ok markup;
       str_strip := fun s => s;
       audio_page_json := json_of;
       soup_audio_items := fun _ _ _ => Some [item] |} in
  let w :=
    {| pending := [RespText "<div class='basisDefault'></div>";
                   mk_reload_answer [mk_audio 5 7 "https://h/e.mp3" "e" "x" 10]];
       auth_plan := [] |} in
  exists x,
    @get_audio_by_id runtime example_self (PInt 7) (PInt 5) w
    = (Done (ATrack x),
       [EvRequest (@audio_page_request runtime (PInt 7) (PInt 5));
        EvRequest (reload_audios_request "7_5_c_f")],
       {| pending := []; auth_plan := [] |})
    /\ t_url x = PStr "https://h/e.mp3".
Proof.
  intros item runtime w.
  destruct (@get_audio_by_id_first_track runtime example_self (PInt 7)
              (PInt 5) w (RespText "<div class='basisDefault'></div>")
              (mk_reload_answer [mk_audio 5 7 "https://h/e.mp3" "e" "x" 10])
              [] [PStr "7"; PStr "5"; PStr "c"; PStr "f"] [] eq_refl eq_refl)
    as (audio_ids & Hs & Hfirst & _).
  inversion Hs; subst audio_ids.
  eexists. split.
  - eapply Hfirst; reflexivity.
  - reflexivity.
Defined.

(** ** [search_user] *)

(** X10. [search_user] makes one request for the search section of the
    owner ([self.user_id] when no owner is given).  It raises
    [AccessDenied] when [payload[1]] of the answer is falsy, and returns
    the empty list, with no further request, when the answer has no
    playlists.  Otherwise it reads the first playlist only and returns the
    tracks [scrap_tracks] yields for its ids, in order, made with
    [self.user_id] whoever the owner is; what [scrap_tracks] raises, it
    raises. *)
Theorem search_user_cases `{PyRuntime} (self : VkAudio)
  (owner_id q : pyval) (w : world) (json_data : pyval)
  (rest : list response) (payload p1 : pyval) :
  pending w = RespJson json_data :: rest ->
  getkey json_data "payload" = Ok payload ->
  getidx payload 1 = Ok p1 ->
  let owner := if is_none owner_id then user_id self else owner_id in
  let request :=
    {| req_method := POST;
       req_url := "https://vk.com/al_audio.php";
       req_data :=
         [("al", PInt 1); ("act", PStr "section"); ("claim", PInt 0);
          ("is_layer", PInt 0); ("owner_id", owner);
          ("section", PStr "search"); ("q", q)];
       req_params := [];
       req_allow_redirects := true |} in
  let w1 := {| pending := rest; auth_plan := auth_plan w |} in
  (truthy p1 = false ->
   search_user self owner_id q w
   = (Halt (Raised AccessDenied), [EvRequest request], w1))
  /\ (forall p11 playlists,
         truthy p1 = true ->
         getidx p1 1 = Ok p11 ->
         getkey p11 "playlists" = Ok playlists ->
         (truthy playlists = false ->
          search_user self owner_id q w = (Done [], [EvRequest request], w1))
         /\ (forall first others audio_data ids o t w',
                playlists = PList (first :: others) ->
                getkey first "list" = Ok audio_data ->
                scrap_ids audio_data = Ok ids ->
                scrap_tracks ids (user_id self) (convert_m3u8_links self) w1
                = (o, t, w') ->
                search_user self owner_id q w
                = (match o with
                   | Done _ => Done (yields_of t)
                   | Halt h => Halt h
                   end, EvRequest request :: t, w'))).
Proof.
  intros Hp Hpay H1 owner request w1.
  change request with (search_user_request owner q) in *. clear request.
  set (request := search_user_request owner q).
  assert (Hstart : forall k : pyval -> M (list track),
             bind (http request)
               (fun response =>
                  bind (lift (json_of response))
                    (fun json_response =>
                       bind (lift (getkey json_response "payload"))
                         (fun payload =>
                            bind (lift (getidx payload 1)) k))) w
             = let '(o, t, w') := k p1 w1 in (o, EvRequest request :: t, w')).
  { intros k. rewrite (bind_http _ _ _ _ _ Hp). cbn [json_of].
    rewrite (lift_ok _ json_data) by reflexivity.
    rewrite (lift_ok _ _ _ _ Hpay), (lift_ok _ _ _ _ H1). reflexivity. }
  split.
  - intros Hfalse. unfold search_user. fold owner request.
    rewrite Hstart. rewrite Hfalse. reflexivity.
  - intros p11 playlists Htrue H11 Hpl. split.
    + intros Hnone. unfold search_user. fold owner request.
      rewrite Hstart. rewrite Htrue. cbn [negb].
      rewrite (lift_ok _ _ _ _ H11), (lift_ok _ _ _ _ Hpl).
      rewrite Hnone. reflexivity.
    + intros first others audio_data ids o t w' -> Hl Hids Hrun.
      unfold search_user. fold owner request.
      rewrite Hstart. rewrite Htrue. cbn [negb].
      rewrite (lift_ok _ _ _ _ H11), (lift_ok _ _ _ _ Hpl).
      cbn [truthy].
      rewrite (lift_ok (getidx (PList (first :: others)) 0) first)
        by reflexivity.
      rewrite (lift_ok _ _ _ _ Hl), (lift_ok _ _ _ _ Hids).
      unfold py_list. rewrite Hrun. reflexivity.
Qed.

Lemma search_user_cases_witness :
  let denied := PDict [("payload", PList [PInt 0; PList []])] in
  let found :=
    PDict [("payload",
      PList [PInt 0;
             PList [PStr "";
                    PDict [("playlists",
                      PList [PDict [("list", PList [mk_track 1 7 "ha"])];
                             PDict [("list", PList [mk_track 2 7 "hb"])]])]]])] in
  let request := search_user_request (PInt 7) (PStr "song") in
  let found_track :=
    {| t_id := PInt 1; t_owner_id := PInt 7; t_track_covers := PList [];
       t_url := PStr "https://h/a.mp3";
       t_artist := PStr "x"; t_title := PStr "a"; t_duration := PInt 10 |} in
  @search_user plain_runtime example_self (PInt 7) (PStr "song")
    {| pending := [RespJson denied]; auth_plan := [] |}
  = (Halt (Raised AccessDenied), [EvRequest request],
     {| pending := []; auth_plan := [] |})
  /\ @search_user plain_runtime example_self (PInt 7) (PStr "song")
       {| pending :=
            [RespJson found;
             mk_reload_answer [mk_audio 1 7 "https://h/a.mp3" "a" "x" 10]];
          auth_plan := [] |}
     = (Done [found_track],
        [EvRequest request; EvRequest (reload_audios_request "7_1_ha");
         EvYield found_track],
        {| pending := []; auth_plan := [] |}).
Proof.
  intros denied found request found_track. split.
  - pose proof (@search_user_cases plain_runtime example_self (PInt 7)
                  (PStr "song") {| pending := [RespJson denied]; auth_plan := [] |}
                  denied [] _ _ eq_refl eq_refl eq_refl) as Hall.
    cbv zeta in Hall. destruct Hall as (Hdenied & _).
    apply Hdenied. reflexivity.
  - pose proof (@search_user_cases plain_runtime example_self (PInt 7)
                  (PStr "song")
                  {| pending :=
                       [RespJson found;
                        mk_reload_answer
                          [mk_audio 1 7 "https://h/a.mp3" "a" "x" 10]];
                     auth_plan := [] |}
                  found _ _ _ eq_refl eq_refl eq_refl) as Hall.
    cbv zeta in Hall. destruct Hall as (_ & Hfound).
    edestruct Hfound as (_ & Hrun); [reflexivity|reflexivity|reflexivity|].
    apply (Hrun (PDict [("list", PList [mk_track 1 7 "ha"])])
             [PDict [("list", PList [mk_track 2 7 "hb"])]]
             (PList [mk_track 1 7 "ha"])
             [[PStr "7"; PStr "1"; PStr "ha"]]
             (Done tt)
             [EvRequest (reload_audios_request "7_1_ha"); EvYield found_track]
             {| pending := []; auth_plan := [] |});
      reflexivity.
Defined.

(** ** [_iter_playlist_by_response]: from one page to the next *)

Section PlaylistTurns.
Context `{PyRuntime}.
Variable self : VkAudio.
Variable targets : list string.
Variable offset : Z.

(** the end of a turn of the loop, after the tracks of the page *)
Lemma iter_playlist_page_end (fuel : nat) (offset_left : Z)
  (playlist hasMore : pyval) (w : world) :
  getkey playlist "hasMore" = Ok hasMore ->
  (truthy hasMore = false ->
   bind (lift (getkey playlist "hasMore"))
     (fun hasMore =>
        if negb (truthy hasMore) then ret tt
        else
          bind (lift (getkey playlist "id"))
            (fun section_id =>
               bind (lift (getkey playlist "nextOffset"))
                 (fun start_from =>
                    bind (http (load_catalog_section_request section_id
                                  start_from))
                      (fun response =>
                         bind (lift (json_of response))
                           (fun json_response =>
                              bind (get_target_playlist_from_json
                                      json_response targets)
                                (fun playlist' =>
                                   iter_playlist_loop self fuel targets offset
                                     offset_left playlist')))))) w
   = (Done tt, [], w))
  /\ (forall section_id start_from json_data rest playlist',
         truthy hasMore = true ->
         getkey playlist "id" = Ok section_id ->
         getkey playlist "nextOffset" = Ok start_from ->
         pending w = RespJson json_data :: rest ->
         let w1 := {| pending := rest; auth_plan := auth_plan w |} in
         get_target_playlist_from_json json_data targets w1
         = (Done playlist', [], w1) ->
         bind (lift (getkey playlist "hasMore"))
           (fun hasMore =>
              if negb (truthy hasMore) then ret tt
              else
                bind (lift (getkey playlist "id"))
                  (fun section_id =>
                     bind (lift (getkey playlist "nextOffset"))
                       (fun start_from =>
                          bind (http (load_catalog_section_request section_id
                                        start_from))
                            (fun response =>
                               bind (lift (json_of response))
                                 (fun json_response =>
                                    bind (get_target_playlist_from_json
                                            json_response targets)
                                      (fun playlist' =>
                                         iter_playlist_loop self fuel targets
                                           offset offset_left playlist')))))) w
         = let '(o, t, w') :=
             iter_playlist_loop self fuel targets offset offset_left
               playlist' w1 in
           (o, EvRequest (load_catalog_section_request section_id start_from)
               :: t, w')).
Proof.
  intros Hm. rewrite (lift_ok _ _ _ _ Hm). split.
  - intros ->. reflexivity.
  - intros section_id start_from json_data rest playlist' -> Hid Hnext Hp w1
      Htarget.
    cbn [negb].
    rewrite (lift_ok _ _ _ _ Hid), (lift_ok _ _ _ _ Hnext).
    rewrite (bind_http _ _ _ _ _ Hp). cbn [json_of].
    rewrite (lift_ok _ json_data) by reflexivity.
    fold w1. unfold bind at 1. rewrite Htarget.
    destruct (iter_playlist_loop self fuel targets offset offset_left
                playlist' w1) as [[o t] w']. reflexivity.
Qed.

End PlaylistTurns.

(** X11. One turn of the loop of [_iter_playlist_by_response], on a page
    with ids.  A page that ends before the offset costs no request for
    audios; a page that starts at or after the offset (any page when the
    offset is 0) has all its ids handed to [scrap_tracks].  In both cases
    [offset_left] grows by the number of ids of the page; the run ends
    there when [hasMore] is falsy, and else asks for a catalog section, with
    the [id] of the page in the [section_id] field of the request and its
    [nextOffset] in the [start_from] field, and goes on with the target
    playlist of the answer.  A falsy playlist or a page without ids ends
    the run at once. *)
Theorem iter_playlist_continuation `{PyRuntime} (self : VkAudio)
  (targets : list string) (offset offset_left : Z) (fuel : nat)
  (playlist : pyval) (w : world) :
  let loop := iter_playlist_loop self in
  (truthy playlist = false ->
   loop (S fuel) targets offset offset_left playlist w = (Done tt, [], w))
  /\ (forall audio_data,
         truthy playlist = true ->
         getkey playlist "list" = Ok audio_data ->
         scrap_ids audio_data = Ok [] ->
         loop (S fuel) targets offset offset_left playlist w = (Done tt, [], w))
  /\ (forall audio_data id ids hasMore t1 w1,
         truthy playlist = true ->
         getkey playlist "list" = Ok audio_data ->
         scrap_ids audio_data = Ok (id :: ids) ->
         getkey playlist "hasMore" = Ok hasMore ->
         let n := Z.of_nat (List.length (id :: ids)) in
         ((offset_left + n < offset)%Z /\ t1 = [] /\ w1 = w
          \/ (offset <= offset_left)%Z
             /\ scrap_tracks (id :: ids) (user_id self)
                  (convert_m3u8_links self) w
                = (Done tt, t1, w1)) ->
         (truthy hasMore = false ->
          loop (S fuel) targets offset offset_left playlist w
          = (Done tt, t1, w1))
         /\ (forall section_id start_from json_data rest playlist',
                truthy hasMore = true ->
                getkey playlist "id" = Ok section_id ->
                getkey playlist "nextOffset" = Ok start_from ->
                pending w1 = RespJson json_data :: rest ->
                let w2 := {| pending := rest; auth_plan := auth_plan w1 |} in
                get_target_playlist_from_json json_data targets w2
                = (Done playlist', [], w2) ->
                let next :=
                  {| req_method := POST;
                     req_url := "https://vk.com/al_audio.php";
                     req_data :=
                       [("al", PInt 1); ("act", PStr "load_catalog_section");
                        ("section_id", section_id);
                        ("start_from", start_from)];
                     req_params := [];
                     req_allow_redirects := true |} in
                loop (S fuel) targets offset offset_left playlist w
                = let '(o, t, w') :=
                    loop fuel targets offset (offset_left + n)%Z playlist' w2 in
                  (o, t1 ++ EvRequest next :: t, w'))).
Proof.
  intros loop. split; [|split].
  - intros Hf. unfold loop. cbn [iter_playlist_loop]. rewrite Hf. reflexivity.
  - intros audio_data Ht Hl Hids. unfold loop. cbn [iter_playlist_loop].
    rewrite Ht. cbn [negb].
    rewrite (lift_ok _ _ _ _ Hl), (lift_ok _ _ _ _ Hids). reflexivity.
  - intros audio_data id ids hasMore t1 w1 Ht Hl Hids Hm n Hpage.
    assert (Hturn :
              loop (S fuel) targets offset offset_left playlist w
              = let '(o, t, w') :=
                  bind (lift (getkey playlist "hasMore"))
                    (fun hasMore =>
                       if negb (truthy hasMore) then ret tt
                       else
                         bind (lift (getkey playlist "id"))
                           (fun section_id =>
                              bind (lift (getkey playlist "nextOffset"))
                                (fun start_from =>
                                   bind (http (load_catalog_section_request
                                                 section_id start_from))
                                     (fun response =>
                                        bind (lift (json_of response))
                                          (fun json_response =>
                                             bind (get_target_playlist_from_json
                                                     json_response targets)
                                               (fun playlist' =>
                                                  iter_playlist_loop self fuel
                                                    targets offset
                                                    (offset_left + n)%Z
                                                    playlist')))))) w1 in
                (o, t1 ++ t, w')).
    { unfold loop. cbn [iter_playlist_loop]. rewrite Ht. cbn [negb].
      rewrite (lift_ok _ _ _ _ Hl), (lift_ok _ _ _ _ Hids).
      unfold page_ids. fold n.
      destruct Hpage as [(Hlt & -> & ->) | (Hle & Hrun)].
      - destruct (Z.leb_spec offset (offset_left + n)) as [Hc|_]; [lia|].
        unfold bind at 1, ret. cbn [app]. fold n.
        reflexivity.
      - destruct (Z.leb_spec offset (offset_left + n)) as [_|Hc]; [|lia].
        destruct (Z.ltb_spec offset_left offset) as [Hc|_]; [lia|].
        unfold bind at 1. rewrite Hrun. fold n. reflexivity. }
    destruct (iter_playlist_page_end self targets offset fuel
                (offset_left + n)%Z playlist hasMore w1 Hm) as (Hend & Hnext).
    split.
    + intros Hfalse. rewrite Hturn, (Hend Hfalse), app_nil_r. reflexivity.
    + intros section_id start_from json_data rest playlist' Htrue Hid Hnx Hp
        w2 Htarget.
      rewrite Hturn.
      rewrite (Hnext section_id start_from json_data rest playlist' Htrue Hid
                 Hnx Hp Htarget).
      fold w2. unfold loop.
      destruct (iter_playlist_loop self fuel targets offset (offset_left + n)
                  playlist' w2) as [[o t] w'].
      reflexivity.
Qed.

Lemma iter_playlist_continuation_witness :
  let page1 :=
    mk_playlist "T" [mk_track 1 7 "ha"; mk_track 2 7 "hb"] true "sec" "2" in
  let page2 := mk_playlist "T" [] false "sec" "4" in
  let second_json :=
    PDict [("payload",
      PList [PInt 0;
             PList [PStr ""; PDict [("playlists", PList [page2])]]])] in
  let second := RespJson second_json in
  let w := {| pending := [mk_reload_answer []; second]; auth_plan := [] |} in
  let w2 := {| pending := []; auth_plan := [] |} in
  let next :=
    {| req_method := POST;
       req_url := "https://vk.com/al_audio.php";
       req_data :=
         [("al", PInt 1); ("act", PStr "load_catalog_section");
          ("section_id", PStr "sec"); ("start_from", PStr "2")];
       req_params := [];
       req_allow_redirects := true |} in
  @iter_playlist_loop plain_runtime example_self 3 ["T"] 0 0 page1 w
  = let '(o, t, w') :=
      @iter_playlist_loop plain_runtime example_self 2 ["T"] 0 (0 + 2) page2 w2 in
    (o, [EvRequest (reload_audios_request "7_1_ha,7_2_hb")]
        ++ EvRequest next :: t,
     w').
Proof.
  intros page1 page2 second_json second w w2 next.
  pose proof (@iter_playlist_continuation plain_runtime example_self ["T"]
                0%Z 0%Z 2%nat page1 w) as Hall.
  cbv zeta in Hall. destruct Hall as (_ & _ & Hturn).
  edestruct (Hturn (PList [mk_track 1 7 "ha"; mk_track 2 7 "hb"])
               [PStr "7"; PStr "1"; PStr "ha"] [[PStr "7"; PStr "2"; PStr "hb"]]
               (PBool true)
               [EvRequest (reload_audios_request "7_1_ha,7_2_hb")]
               {| pending := [second]; auth_plan := [] |})
    as (_ & Hnext); [reflexivity|reflexivity|reflexivity|reflexivity| |].
  - right. split; [lia|reflexivity].
  - apply (Hnext (PStr "sec") (PStr "2") second_json [] page2); reflexivity.
Defined.

(** ** [base36encode]: the shape of the string *)

Lemma alphabet_at_nonzero (r : Z) :
  (0 < r < 36)%Z -> alphabet_at r <> "0"%char.
Proof.
  intros Hr Heq.
  pose proof (index_of_alphabet_at r ltac:(lia)) as Hi.
  rewrite Heq in Hi. cbn in Hi. inversion Hi. lia.
Qed.

Lemma base36_loop_digits (fuel : nat) :
  forall (number : Z) (base36 s : string),
    (0 <= number)%Z ->
    base36_loop fuel number base36 = Some s ->
    exists digits,
      s = (digits ++ base36)%string
      /\ (number = 0%Z -> digits = ""%string)
      /\ ((0 < number)%Z ->
          (36 ^ (Z.of_nat (String.length digits) - 1) <= number
           < 36 ^ Z.of_nat (String.length digits))%Z
          /\ exists c rest, digits = String c rest /\ c <> "0"%char).
Proof.
  induction fuel as [|fuel IH]; intros number base36 s Hn Hs.
  - cbn [base36_loop] in Hs.
    destruct (Z.eqb_spec number 0) as [->|Hnz]; [|discriminate].
    inversion Hs; subst s. exists ""%string.
    split; [reflexivity|]. split; [reflexivity|lia].
  - cbn [base36_loop] in Hs.
    destruct (Z.eqb_spec number 0) as [->|Hnz].
    + inversion Hs; subst s. exists ""%string.
      split; [reflexivity|]. split; [reflexivity|lia].
    + rewrite alphabet_length in Hs.
      pose proof (Z_div_mod number 36 eq_refl) as Hdm.
      destruct (Z.div_eucl number 36) as [q r].
      destruct Hdm as [Heq Hr].
      assert (Hq : (0 <= q)%Z) by lia.
      destruct (IH q (String (alphabet_at r) base36) s Hq Hs)
        as (digits & -> & Hzero & Hpos).
      exists (digits ++ String (alphabet_at r) "")%string.
      split; [rewrite append_assoc; reflexivity|].
      split; [intros Hc; lia|].
      intros _. rewrite length_append. cbn [String.length].
      destruct (Z.eq_dec q 0) as [Hq0|Hq0].
      * rewrite (Hzero Hq0). cbn [append String.length Nat.add].
        split; [change (36 ^ (Z.of_nat 1 - 1))%Z with 1%Z;
                change (36 ^ Z.of_nat 1)%Z with 36%Z; lia|].
        exists (alphabet_at r), ""%string. split; [reflexivity|].
        apply alphabet_at_nonzero. lia.
      * destruct (Hpos ltac:(lia)) as ((Hlo & Hhi) & c & rest & -> & Hc).
        split.
        -- cbn [String.length] in Hlo, Hhi |- *.
           replace (Z.of_nat (S (String.length rest) + 1) - 1)%Z
             with (Z.succ (Z.of_nat (S (String.length rest)) - 1)) by lia.
           replace (Z.of_nat (S (String.length rest) + 1))
             with (Z.succ (Z.of_nat (S (String.length rest)))) by lia.
           rewrite !Z.pow_succ_r by lia. lia.
        -- exists c, (rest ++ String (alphabet_at r) "")%string.
           split; [reflexivity|exact Hc].
Qed.

(** X12. The string of a positive number [n] is its shortest base-36
    numeral: it does not start with ['0'], its length [k] is the one with
    [36^(k-1) <= n < 36^k], and no other positive number gives the same
    string. *)
Theorem base36_canonical (n : Z) (s : string) :
  (0 < n)%Z ->
  base36encode_loop n = Some s ->
  (exists c rest, s = String c rest /\ c <> "0"%char)
  /\ (36 ^ (Z.of_nat (String.length s) - 1) <= n
      < 36 ^ Z.of_nat (String.length s))%Z
  /\ (forall m, (0 < m)%Z -> base36encode_loop m = Some s -> m = n).
Proof.
  intros Hn Hs.
  assert (Hvalue : forall m t,
             (0 < m)%Z -> base36encode_loop m = Some t ->
             base36_value t = Some m).
  { intros m t Hm Ht. unfold base36encode_loop in Ht.
    destruct (base36_loop_value (S (Z.to_nat (Z.log2 m))) m ""%string)
      as (t' & Ht' & Hv).
    - split; [lia|].
      rewrite Nat2Z.inj_succ, Z2Nat.id by apply Z.log2_nonneg.
      apply Z.log2_spec. exact Hm.
    - rewrite Ht in Ht'. inversion Ht'; subst t'. exact Hv. }
  unfold base36encode_loop in Hs.
  destruct (base36_loop_digits _ n ""%string s ltac:(lia) Hs)
    as (digits & -> & _ & Hpos).
  destruct (Hpos Hn) as (Hb & c & rest & -> & Hc).
  assert (Hnil : forall x : string, (x ++ "")%string = x).
  { intros x. induction x as [|a x IHx]; [reflexivity|].
    cbn. rewrite IHx. reflexivity. }
  rewrite Hnil in *.
  split; [eauto|]. split; [exact Hb|].
  intros m Hm Hms.
  pose proof (Hvalue m _ Hm Hms) as H1.
  pose proof (Hvalue n _ Hn Hs) as H2.
  congruence.
Qed.

Lemma base36_canonical_witness :
  (exists c rest, "loyw3v27"%string = String c rest /\ c <> "0"%char)
  /\ (36 ^ (Z.of_nat (String.length "loyw3v27") - 1) <= 1699999999999
      < 36 ^ Z.of_nat (String.length "loyw3v27"))%Z
  /\ (forall m, (0 < m)%Z -> base36encode_loop m = Some "loyw3v27"%string ->
                m = 1699999999999%Z).
Proof.
  apply (base36_canonical 1699999999999 "loyw3v27"); [lia|].
  vm_compute. reflexivity.
Defined.

(** ** [RE_M3U8_TO_MP3.sub]: links it leaves alone *)

Section SubFacts.
Local Open Scope string_scope.

Lemma m3u8_instance_length (text : string) (g1 : option string) (g2 : string) :
  m3u8_instance text g1 g2 ->
  (String.length (group_text g1 ++ "/" ++ g2 ++ ".mp3") < String.length text)%nat.
Proof.
  intros (h1 & c & _ & _ & _ & _ & _ & ->).
  repeat (rewrite !length_append; cbn [String.length]). lia.
Qed.

Lemma lead_bytes_app (a b : string) :
  lead_bytes (a ++ b) = (lead_bytes a + lead_bytes b)%nat.
Proof.
  induction a as [|c a IH]; [reflexivity|].
  cbn [append lead_bytes]. rewrite IH. lia.
Qed.

Let continued (s : string) : bool :=
  match s with
  | String c _ => is_continuation c
  | EmptyString => false
  end.

(** the characters of a string: the bytes that start one and, when the
    string starts with a continuation byte, that byte with those after it *)
Lemma code_points_length (s : string) :
  List.length (code_points s)
  = (lead_bytes s + if continued s then 1 else 0)%nat.
Proof.
  induction s as [|c s IH]; [reflexivity|].
  destruct s as [|d s].
  - cbn. destruct (is_continuation c); reflexivity.
  - change (code_points (String c (String d s)))
      with (if is_continuation d then
              match code_points (String d s) with
              | g :: gs => String c g :: gs
              | [] => [String c ""]
              end
            else String c "" :: code_points (String d s)).
    change (lead_bytes (String c (String d s)))
      with ((if is_continuation c then 0 else 1) + lead_bytes (String d s))%nat.
    cbn [continued] in IH |- *.
    destruct (is_continuation d).
    + destruct (code_points (String d s)) as [|g gs]; [cbn in IH; lia|].
      cbn [List.length] in IH |- *. destruct (is_continuation c); lia.
    + cbn [List.length]. rewrite IH. destruct (is_continuation c); lia.
Qed.

Lemma m3u8_instance_leads (text : string) (g1 : option string) (g2 : string) :
  m3u8_instance text g1 g2 ->
  (lead_bytes (group_text g1 ++ "/" ++ g2 ++ ".mp3") < lead_bytes text)%nat
  /\ exists text', text = String "/" text'.
Proof.
  intros (h1 & c & _ & _ & _ & _ & _ & ->). split; [|eexists; reflexivity].
  repeat (rewrite !lead_bytes_app; cbn [lead_bytes]).
  repeat match goal with
         | |- context [is_continuation ?x] =>
             change (is_continuation x) with false
         end.
  cbv iota. lia.
Qed.

Lemma RE_M3U8_TO_MP3_sub_leads (n : nat) :
  forall s,
    (String.length s <= n)%nat ->
    (lead_bytes (RE_M3U8_TO_MP3_sub s) <= lead_bytes s)%nat
    /\ continued (RE_M3U8_TO_MP3_sub s) = continued s.
Proof.
  destruct RE_M3U8_TO_MP3_sub_equations as (Hnil & Hmatch & Hkeep).
  induction n as [|n IH]; intros s Hn.
  - destruct s; [|cbn in Hn; lia]. rewrite Hnil. auto.
  - destruct s as [|c s]; [rewrite Hnil; auto|].
    destruct (match_m3u8 (String c s)) as [m|] eqn:Em.
    + rewrite (Hmatch _ _ Em).
      destruct (match_m3u8_sound _ _ Em) as (text & Hs & Hinst).
      destruct (m3u8_instance_leads _ _ _ Hinst) as (Hlt & text' & ->).
      pose proof (m3u8_instance_length _ _ _ Hinst) as Hlen.
      assert (Hshort : (String.length (after m) <= n)%nat).
      { assert (Hl : String.length (String c s)
                     = (String.length (String "/" text')
                        + String.length (after m))%nat)
          by (rewrite Hs, length_append; reflexivity).
        cbn [String.length] in Hl, Hn. lia. }
      destruct (IH _ Hshort) as (Hle & _).
      rewrite Hs. rewrite !lead_bytes_app. unfold expand_mp3.
      change (match group1 m with Some g => g | None => "" end)
        with (group_text (group1 m)).
      unfold expand_mp3 in Hlt. split; [lia|].
      destruct Hinst as (_ & _ & _ & _ & [-> | ->] & _); reflexivity.
    + rewrite (Hkeep _ _ Em). cbn [String.length] in Hn.
      destruct (IH s ltac:(lia)) as (Hle & _).
      cbn [lead_bytes continued]. split; [lia|reflexivity].
Qed.

Lemma re_sub_from_length (s : string) :
  forall skip,
    (String.length (re_sub_from skip s) <= String.length s - skip)%nat.
Proof.
  induction s as [|c s IH]; intros skip; [cbn; lia|].
  cbn [re_sub_from]. destruct skip as [|n].
  - destruct (match_m3u8 (String c s)) as [m|] eqn:Em.
    + destruct (match_m3u8_sound _ _ Em) as (text & Hs & Hinst).
      pose proof (m3u8_instance_length _ _ _ Hinst) as Hlen.
      pose proof (IH (String.length (String c s) - String.length (after m) - 1)%nat)
        as Hrest.
      assert (Hl : String.length (String c s)
                   = (String.length text + String.length (after m))%nat)
        by (rewrite Hs, length_append; reflexivity).
      rewrite length_append. unfold expand_mp3.
      change (match group1 m with Some g => g | None => "" end)
        with (group_text (group1 m)).
      cbn [String.length] in Hl, Hrest |- *. lia.
    + cbn [String.length]. specialize (IH 0%nat). lia.
  - cbn [String.length]. specialize (IH n). lia.
Qed.

End SubFacts.

(** X13. The substitution leaves a subject in which no instance of the
    pattern occurs as it is, and its result is never longer than its
    subject, neither in the bytes of the encoding nor in characters,
    which is what [len] counts. *)
Theorem RE_M3U8_TO_MP3_sub_unchanged (s : string) :
  ((forall pre text g1 g2 rest,
       s = (pre ++ text ++ rest)%string -> ~ m3u8_instance text g1 g2) ->
   RE_M3U8_TO_MP3_sub s = s)
  /\ (String.length (RE_M3U8_TO_MP3_sub s) <= String.length s)%nat
  /\ (forall n m,
         py_len (PStr (RE_M3U8_TO_MP3_sub s)) = Ok n ->
         py_len (PStr s) = Ok m -> (n <= m)%nat).
Proof.
  split; [|split].
  - destruct RE_M3U8_TO_MP3_sub_equations as (Hnil & _ & Hkeep).
    induction s as [|c s IH]; intros Hno; [exact Hnil|].
    rewrite Hkeep.
    + f_equal. apply IH. intros pre text g1 g2 rest Hs.
      apply (Hno (String c pre) text g1 g2 rest). rewrite Hs. reflexivity.
    + destruct (match_m3u8 (String c s)) as [m|] eqn:Em; [|reflexivity].
      destruct (match_m3u8_sound _ _ Em) as (text & Hs & Hinst).
      destruct (Hno ""%string text (group1 m) (group2 m) (after m) Hs Hinst).
  - unfold RE_M3U8_TO_MP3_sub.
    pose proof (re_sub_from_length s 0) as Hlen. lia.
  - intros n m Hn Hm. cbn [py_len] in Hn, Hm.
    inversion Hn; subst n. inversion Hm; subst m.
    rewrite !code_points_length.
    destruct (RE_M3U8_TO_MP3_sub_leads (String.length s) s (Nat.le_refl _))
      as (Hle & ->).
    lia.
Qed.

Lemma RE_M3U8_TO_MP3_sub_unchanged_witness :
  RE_M3U8_TO_MP3_sub "a.m3u8" = "a.m3u8"%string
  /\ (String.length (RE_M3U8_TO_MP3_sub "/0a/1b/index.m3u8")
      <= String.length "/0a/1b/index.m3u8")%nat
  /\ (7 <= 17)%nat.
Proof.
  split; [|split].
  - apply (proj1 (RE_M3U8_TO_MP3_sub_unchanged "a.m3u8")).
    intros pre text g1 g2 rest Hs (h1 & c & _ & _ & _ & _ & _ & ->).
    cbn in Hs.
    repeat (destruct pre as [|? pre]; cbn in Hs;
            [discriminate|injection Hs as _ Hs]).
    destruct pre; discriminate.
  - apply (proj1 (proj2 (RE_M3U8_TO_MP3_sub_unchanged "/0a/1b/index.m3u8"))).
  - apply (proj2 (proj2 (RE_M3U8_TO_MP3_sub_unchanged "/0a/1b/indexяm3u8")));
      reflexivity.
Defined.

(** ** [get_albums_iter]: the pages *)

Section AlbumsFacts.
Context `{PyRuntime}.
Variable scrap_albums : response -> result (list pyval).
Variable owner : pyval.

Let page_at (offset : Z) (k : nat) : event :=
  EvRequest (albums_request owner (offset + ALBUMS_PER_USER_PAGE * Z.of_nat k)).

Lemma page_at_shift (offset : Z) (n : nat) :
  map (fun k => page_at offset (S k)) (seq 0 n)
  = map (page_at (offset + ALBUMS_PER_USER_PAGE)) (seq 0 n).
Proof.
  apply map_ext. intros k. unfold page_at. do 2 f_equal.
  unfold ALBUMS_PER_USER_PAGE. lia.
Qed.

Lemma get_albums_loop_run (fuel : nat) :
  forall offset acc w o t w',
    get_albums_loop scrap_albums fuel owner offset acc w = (o, t, w') ->
    ((List.length (pending w) < fuel)%nat -> o <> Halt OutOfFuel)
    /\ exists n, t = map (page_at offset) (seq 0 n).
Proof.
  induction fuel as [|fuel IH]; intros offset acc w o t w' Hrun.
  - inversion Hrun; subst. split; [lia|]. exists 0%nat. reflexivity.
  - cbn [get_albums_loop] in Hrun.
    assert (Hone : [EvRequest (albums_request owner offset)]
                   = map (page_at offset) (seq 0 1)).
    { cbn. unfold page_at. do 3 f_equal. unfold ALBUMS_PER_USER_PAGE. lia. }
    split_run Hrun as r t1 w1 t2 Hh Hk h.
    + apply http_inv in Hh.
      destruct Hh as (-> & [(_ & Hc & _) | (a & rest & Hp & Ha & ->)]);
        [discriminate|].
      inversion Ha; subst a. clear Ha.
      destruct (text_is_empty r).
      * inversion Hk; subst. split; [discriminate|].
        exists 1%nat. rewrite app_nil_r. exact Hone.
      * step_lift Hk; [|split; [discriminate|];
                        exists 1%nat; rewrite app_nil_r; exact Hone].
        destruct a as [|album albums].
        -- inversion Hk; subst. split; [discriminate|].
           exists 1%nat. rewrite app_nil_r. exact Hone.
        -- destruct (IH _ _ _ _ _ _ Hk) as (Hfuel & n & ->).
           split.
           ++ intros Hlt. apply Hfuel. cbn [pending]. rewrite Hp in Hlt.
              cbn [List.length] in Hlt. lia.
           ++ exists (S n). rewrite map_seq_succ, page_at_shift.
              cbn [app]. f_equal. unfold page_at. do 2 f_equal.
              unfold ALBUMS_PER_USER_PAGE. lia.
    + apply http_inv in Hh.
      destruct Hh as (-> & [(_ & Hh & _) | (a & rest & _ & Hc & _)]);
        [|discriminate].
      inversion Hh; subst h. split; [discriminate|].
      exists 1%nat. exact Hone.
Qed.

(** the turns on pages with albums *)
Lemma get_albums_loop_pages (pages : list response) :
  forall fuel offset acc w later albums,
    pending w = pages ++ later ->
    Forall (fun r => text_is_empty r = false) pages ->
    map_result scrap_albums pages = Ok albums ->
    Forall (fun a => a <> []) albums ->
    get_albums_loop scrap_albums (List.length pages + fuel) owner offset acc w
    = let '(o, t, w') :=
        get_albums_loop scrap_albums fuel owner
          (offset + ALBUMS_PER_USER_PAGE * Z.of_nat (List.length pages))
          (acc ++ List.concat albums)
          {| pending := later; auth_plan := auth_plan w |} in
      (o, map (page_at offset) (seq 0 (List.length pages)) ++ t, w').
Proof.
  induction pages as [|r pages IH];
    intros fuel offset acc w later albums Hp Hne Hal Hnn.
  - inversion Hal; subst albums. cbn [List.length Nat.add List.concat seq map app].
    cbn [app] in Hp. rewrite <- Hp, world_eta, app_nil_r.
    replace (offset + ALBUMS_PER_USER_PAGE * Z.of_nat 0)%Z with offset by lia.
    destruct (get_albums_loop scrap_albums fuel owner offset acc w)
      as [[o t] w']. reflexivity.
  - cbn [map_result] in Hal.
    destruct (scrap_albums r) as [a|] eqn:Er; [|discriminate].
    destruct (map_result scrap_albums pages) as [more|] eqn:Em; [|discriminate].
    inversion Hal; subst albums. clear Hal.
    inversion Hne as [|? ? Hr Hne']; subst.
    inversion Hnn as [|? ? Ha Hnn']; subst.
    cbn [List.length Nat.add get_albums_loop]. cbn [app] in Hp.
    rewrite (bind_http _ _ _ _ _ Hp). rewrite Hr.
    rewrite (lift_ok _ _ _ _ Er).
    destruct a as [|album a]; [congruence|].
    set (w1 := {| pending := pages ++ later; auth_plan := auth_plan w |}).
    rewrite (IH fuel (offset + ALBUMS_PER_USER_PAGE)%Z (acc ++ album :: a) w1
               later more eq_refl Hne' eq_refl Hnn').
    cbn [auth_plan w1 List.concat].
    replace (offset + ALBUMS_PER_USER_PAGE
             + ALBUMS_PER_USER_PAGE * Z.of_nat (List.length pages))%Z
      with (offset + ALBUMS_PER_USER_PAGE * Z.of_nat (S (List.length pages)))%Z
      by lia.
    rewrite <- app_assoc.
    destruct (get_albums_loop scrap_albums fuel owner _ _ _) as [[o t] w'].
    rewrite map_seq_succ, page_at_shift. cbn [app].
    unfold page_at.
    replace (offset + ALBUMS_PER_USER_PAGE * Z.of_nat 0)%Z with offset by lia.
    reflexivity.
Qed.

End AlbumsFacts.

(** X14. [get_albums_iter] asks for the pages of albums with the [offset]
    parameters [0, 100, 200, ...], in this order, and for nothing else: its
    requests are written out below.  Its loop never outlasts the bound on
    its turns.  It has no other way to end than a
    page without albums or an error: after [k] pages with albums, a page
    with text but no album ends the run, so that [get_albums] returns the
    albums of the [k] pages in order after [k + 1] requests, and a page
    with no text ends it with [AccessDenied], the albums of the [k] pages
    lost to [get_albums]. *)
Theorem get_albums_pagination `{PyRuntime} (self : VkAudio)
  (scrap_albums : response -> result (list pyval)) (owner_id : pyval) :
  let owner := if is_none owner_id then user_id self else owner_id in
  let requests := fun n =>
    map (fun k =>
           EvRequest
             {| req_method := GET;
                req_url :=
                  "https://m.vk.com/audio?act=audio_playlists" ++ py_str owner;
                req_data := [];
                req_params := [("offset", PInt (100 * Z.of_nat k))];
                req_allow_redirects := false |})
        (seq 0 n) in
  ALBUMS_PER_USER_PAGE = 100%Z
  /\ (forall w o t w',
         get_albums self scrap_albums owner_id w = (o, t, w') ->
         o <> Halt OutOfFuel
         /\ exists n,
              t = requests n
              /\ map (fun r => assoc "offset" (req_params r)) (requests_of t)
                 = map (fun k => Some (PInt (100 * Z.of_nat k))) (seq 0 n))
  /\ (forall w pages last rest albums,
         pending w = pages ++ last :: rest ->
         Forall (fun r => text_is_empty r = false) pages ->
         map_result scrap_albums pages = Ok albums ->
         Forall (fun a => a <> []) albums ->
         let w' := {| pending := rest; auth_plan := auth_plan w |} in
         (text_is_empty last = false ->
          scrap_albums last = Ok [] ->
          get_albums self scrap_albums owner_id w
          = (Done (List.concat albums), requests (S (List.length pages)), w'))
         /\ (text_is_empty last = true ->
             get_albums self scrap_albums owner_id w
             = (Halt (Raised AccessDenied),
                requests (S (List.length pages)), w'))).
Proof.
  intros owner requests.
  change requests
    with (fun n =>
            map (fun k => EvRequest (albums_request owner
                                       (ALBUMS_PER_USER_PAGE * Z.of_nat k)))
                (seq 0 n)).
  clear requests.
  set (requests := fun n =>
         map (fun k => EvRequest (albums_request owner
                                    (ALBUMS_PER_USER_PAGE * Z.of_nat k)))
             (seq 0 n)).
  split; [reflexivity|]. split.
  - intros w o t w' Hrun. unfold get_albums in Hrun. fold owner in Hrun.
    destruct (get_albums_loop_run scrap_albums owner _ _ _ _ _ _ _ Hrun)
      as (Hfuel & n & ->).
    split; [apply Hfuel; lia|]. exists n. split; [reflexivity|].
    clear. generalize 0%nat as a.
    induction n as [|n IH]; intros a; [reflexivity|].
    cbn [seq map requests_of flat_map app]. f_equal. apply IH.
  - intros w pages last rest albums Hp Hne Hal Hnn w'.
    assert (Hrun :
              get_albums self scrap_albums owner_id w
              = let '(o, t, w2) :=
                  get_albums_loop scrap_albums (S (S (List.length rest))) owner
                    (0 + ALBUMS_PER_USER_PAGE * Z.of_nat (List.length pages))
                    ([] ++ List.concat albums)
                    {| pending := last :: rest; auth_plan := auth_plan w |} in
                (o, requests (List.length pages) ++ t, w2)).
    { unfold get_albums. fold owner.
      replace (S (List.length (pending w)))
        with (List.length pages + S (S (List.length rest)))%nat
        by (rewrite Hp, length_app; cbn [List.length]; lia).
      apply (get_albums_loop_pages scrap_albums owner pages
               (S (S (List.length rest))) 0%Z [] w (last :: rest) albums
               Hp Hne Hal Hnn). }
    assert (Hlast : requests (S (List.length pages))
                    = requests (List.length pages)
                      ++ [EvRequest (albums_request owner
                            (0 + ALBUMS_PER_USER_PAGE
                                 * Z.of_nat (List.length pages)))]).
    { unfold requests. rewrite seq_S, map_app. reflexivity. }
    split.
    + intros Hne_last Hnone. rewrite Hrun. cbn [get_albums_loop].
      rewrite (bind_http _ _
                 {| pending := last :: rest; auth_plan := auth_plan w |}
                 last rest eq_refl). rewrite Hne_last.
      rewrite (lift_ok _ _ _ _ Hnone). cbn [auth_plan app].
      rewrite Hlast. reflexivity.
    + intros Hempty. rewrite Hrun. cbn [get_albums_loop].
      rewrite (bind_http _ _
                 {| pending := last :: rest; auth_plan := auth_plan w |}
                 last rest eq_refl). rewrite Hempty.
      cbn [auth_plan]. rewrite Hlast. reflexivity.
Qed.

Lemma get_albums_pagination_witness :
  let scrap := fun r =>
    match r with
    | RespText "one" => Ok [PStr "a"; PStr "b"]
    | RespText "two" => Ok [PStr "c"]
    | _ => Ok []
    end in
  let w :=
    {| pending := [RespText "one"; RespText "two"; RespText "end"];
       auth_plan := [] |} in
  let page := fun offset =>
    EvRequest
      {| req_method := GET;
         req_url := "https://m.vk.com/audio?act=audio_playlists1";
         req_data := [];
         req_params := [("offset", PInt offset)];
         req_allow_redirects := false |} in
  @get_albums plain_runtime example_self scrap PNone w
  = (Done [PStr "a"; PStr "b"; PStr "c"],
     [page 0%Z; page 100%Z; page 200%Z],
     {| pending := []; auth_plan := [] |}).
Proof.
  intros scrap w page.
  pose proof (@get_albums_pagination plain_runtime example_self scrap PNone)
    as Hall.
  cbv zeta in Hall. destruct Hall as (_ & _ & Hpages).
  destruct (Hpages w [RespText "one"; RespText "two"] (RespText "end") []
              [[PStr "a"; PStr "b"]; [PStr "c"]] eq_refl) as (Hend & _).
  - repeat constructor.
  - reflexivity.
  - repeat constructor; discriminate.
  - apply Hend; reflexivity.
Defined.

(** ** [scrap_albums_from_al] *)

Section AlbumsFromAlFacts.
Context `{PyRuntime}.
Variable py_int : string -> option Z.

(** a raw album the loop does not pass over *)
Let is_playlist (raw_album : pyval) : bool :=
  match getkey raw_album "type" with
  | Ok type => is_str "playlist" type
  | Err _ => false
  end.

Lemma scrap_albums_from_al_loop_spec (raws : list pyval) :
  Forall (fun raw => exists type, getkey raw "type" = Ok type) raws ->
  forall albums,
    scrap_albums_from_al_loop py_int raws albums
    = match map_result (album_of_raw py_int) (filter is_playlist raws) with
      | Ok more => Ok (albums ++ more)
      | Err e => Err e
      end.
Proof.
  intros Hall. induction Hall as [|raw raws (type & Ht) _ IH]; intros albums.
  - cbn. rewrite app_nil_r. reflexivity.
  - cbn [scrap_albums_from_al_loop filter]. unfold is_playlist at 1.
    rewrite Ht. cbn [rbind].
    destruct (is_str "playlist" type); [|apply IH].
    cbn [map_result].
    destruct (album_of_raw py_int raw) as [album|e]; [|reflexivity].
    cbn [rbind]. rewrite IH.
    destruct (map_result (album_of_raw py_int) (filter is_playlist raws))
      as [more|e]; [|reflexivity].
    rewrite <- app_assoc. reflexivity.
Qed.

Lemma album_of_raw_shape (raw album : pyval) :
  album_of_raw py_int raw = Ok album ->
  exists id owner_id access_hash title artist count plays,
    album = PDict [("id", id);
                   ("owner_id", owner_id);
                   ("url", PStr (playlist_url owner_id id));
                   ("access_hash", access_hash);
                   ("title", title);
                   ("artist", artist);
                   ("count", count);
                   ("plays", plays)]
    /\ getkey raw "id" = Ok id
    /\ getkey raw "ownerId" = Ok owner_id
    /\ (plays = PNone \/ exists n, plays = PInt n).
Proof.
  unfold album_of_raw, rbind.
  destruct (getkey raw "infoLine2") as [stats|]; [|discriminate].
  destruct (plays_of py_int stats) as [plays|] eqn:Ep; [|discriminate].
  destruct (getkey raw "ownerId") as [owner_id|]; [|discriminate].
  destruct (getkey raw "id") as [id|]; [|discriminate].
  destruct (getkey raw "accessHash") as [access_hash|]; [|discriminate].
  destruct (getkey raw "title") as [title|]; [|discriminate].
  destruct (getkey raw "authorName") as [artist|]; [|discriminate].
  destruct (getkey raw "totalCount") as [count|]; [|discriminate].
  intros Ha. inversion Ha; subst album.
  exists id, owner_id, access_hash, title, artist, count, plays.
  repeat split.
  unfold plays_of in Ep. destruct stats as [| | |s| |]; try discriminate.
  inversion Ep. destruct (py_int _); eauto.
Qed.

End AlbumsFromAlFacts.

(** X15. On a list of raw albums that all have a [type],
    [scrap_albums_from_al] passes over those whose type is not
    ['playlist'], without a look at their other fields, and builds an
    album from each of the others, in order; the first of them that lacks
    a field ends the call with that error.  Every album of the result has
    the eight keys [id], [owner_id], [url], [access_hash], [title],
    [artist], [count], [plays] in this order, its [url] being
    ['https://m.vk.com/audio?act=audio_playlist'] followed by the owner id,
    ['_'] and the id of the raw album, and its [plays] an integer or
    [None]. *)
Theorem scrap_albums_from_al_playlists `{PyRuntime}
  (py_int : string -> option Z) (raws : list pyval) :
  Forall (fun raw => exists type, getkey raw "type" = Ok type) raws ->
  let is_playlist := fun raw =>
    match getkey raw "type" with
    | Ok type => is_str "playlist" type
    | Err _ => false
    end in
  scrap_albums_from_al py_int (PList raws)
  = map_result (album_of_raw py_int) (filter is_playlist raws)
  /\ (forall albums,
         scrap_albums_from_al py_int (PList raws) = Ok albums ->
         Forall2
           (fun raw album =>
              exists id owner_id access_hash title artist count plays,
                album = PDict [("id", id);
                               ("owner_id", owner_id);
                               ("url", PStr (playlist_url owner_id id));
                               ("access_hash", access_hash);
                               ("title", title);
                               ("artist", artist);
                               ("count", count);
                               ("plays", plays)]
                /\ getkey raw "id" = Ok id
                /\ getkey raw "ownerId" = Ok owner_id
                /\ (plays = PNone \/ exists n, plays = PInt n))
           (filter is_playlist raws) albums).
Proof.
  intros Hall is_playlist.
  assert (Heq : scrap_albums_from_al py_int (PList raws)
                = map_result (album_of_raw py_int) (filter is_playlist raws)).
  { unfold scrap_albums_from_al. cbn [py_iter rbind].
    rewrite (scrap_albums_from_al_loop_spec py_int raws Hall).
    fold is_playlist.
    destruct (map_result (album_of_raw py_int) (filter is_playlist raws));
      reflexivity. }
  split; [exact Heq|].
  intros albums Hal. rewrite Heq in Hal. clear Heq.
  revert albums Hal. generalize (filter is_playlist raws) as l.
  induction l as [|raw l IH]; intros albums Hal.
  - inversion Hal. constructor.
  - cbn [map_result] in Hal.
    destruct (album_of_raw py_int raw) as [album|] eqn:Ea; [|discriminate].
    destruct (map_result (album_of_raw py_int) l) as [more|]; [|discriminate].
    inversion Hal; subst albums.
    constructor; [apply (album_of_raw_shape py_int _ _ Ea)|].
    apply IH. reflexivity.
Qed.

Lemma scrap_albums_from_al_playlists_witness :
  let raw :=
    PDict [("type", PStr "playlist"); ("infoLine2", PStr "12 plays");
           ("ownerId", PInt (-3)); ("id", PInt 8); ("accessHash", PStr "h");
           ("title", PStr "t"); ("authorName", PStr "a");
           ("totalCount", PInt 2)] in
  let raws := [PDict [("type", PStr "artist")]; raw] in
  let py_int := fun s => if String.eqb s "12" then Some 12%Z else None in
  @scrap_albums_from_al plain_runtime py_int (PList raws)
  = Ok [PDict [("id", PInt 8); ("owner_id", PInt (-3));
               ("url", PStr "https://m.vk.com/audio?act=audio_playlist-3_8");
               ("access_hash", PStr "h"); ("title", PStr "t");
               ("artist", PStr "a"); ("count", PInt 2);
               ("plays", PInt 12)]].
Proof.
  intros raw raws py_int.
  pose proof (@scrap_albums_from_al_playlists plain_runtime py_int raws) as Hall.
  cbv zeta in Hall. destruct Hall as (Heq & _).
  - constructor; [exists (PStr "artist"); reflexivity|].
    constructor; [exists (PStr "playlist"); reflexivity|constructor].
  - rewrite Heq. reflexivity.
Defined.

(** ** The number of plays of a raw album *)

Section StringFacts.
Local Open Scope string_scope.

Lemma before_last_none (sep s : string) :
  substringb sep s = false -> before_last sep s = None.
Proof.
  induction s as [|c s IH]; intros Hs; [reflexivity|].
  cbn [substringb] in Hs. apply orb_false_iff in Hs. destruct Hs as (Hp & Hs).
  cbn [before_last]. rewrite (IH Hs), Hp. reflexivity.
Qed.

Lemma before_last_app (sep a s b : string) :
  before_last sep s = Some b -> before_last sep (a ++ s) = Some (a ++ b).
Proof.
  intros Hs. induction a as [|c a IH]; [exact Hs|].
  cbn [append before_last]. rewrite IH. reflexivity.
Qed.

(** the last occurrence, when nothing that follows it holds another *)
Lemma before_last_at (sep a tail : string) (c : ascii) (p : string) :
  sep = String c p ->
  substringb sep (p ++ tail) = false ->
  before_last sep (a ++ sep ++ tail) = Some a.
Proof.
  intros -> Hno.
  replace (Some a) with (Some (a ++ "")).
  - apply before_last_app. cbn [append before_last].
    rewrite (before_last_none _ _ Hno).
    cbn [prefixb]. rewrite Ascii.eqb_refl. cbn [andb].
    assert (Hp : forall x y, prefixb x (x ++ y) = true).
    { intros x y. induction x as [|d x IHx]; [destruct y; reflexivity|].
      cbn. rewrite Ascii.eqb_refl. exact IHx. }
    rewrite Hp. reflexivity.
  - f_equal. induction a as [|d a IHa]; [reflexivity|].
    cbn. rewrite IHa. reflexivity.
Qed.

Lemma without_char_app (c : ascii) (a b : string) :
  without_char c a -> without_char c b -> without_char c (a ++ b).
Proof.
  unfold without_char. intros Ha Hb. induction a as [|x a IH]; [exact Hb|].
  cbn [append string_all] in Ha |- *. apply andb_true_iff in Ha.
  destruct Ha as (Hx & Ha). rewrite Hx, (IH Ha). reflexivity.
Qed.

Lemma without_char_substring (c : ascii) (p s : string) :
  without_char c s -> substringb (String c p) s = false.
Proof.
  unfold without_char. induction s as [|x s IH]; intros Hs; [reflexivity|].
  cbn [string_all] in Hs. apply andb_true_iff in Hs. destruct Hs as (Hx & Hs).
  cbn [substringb prefixb]. rewrite (IH Hs).
  rewrite Ascii.eqb_sym. apply negb_true_iff in Hx. rewrite Hx. reflexivity.
Qed.

Lemma remove_from_clean (s rest : string) :
  without_char "<" s ->
  remove_from 0 num_delim (s ++ rest) = s ++ remove_from 0 num_delim rest.
Proof.
  unfold without_char. induction s as [|x s IH]; intros Hs; [reflexivity|].
  cbn [string_all] in Hs. apply andb_true_iff in Hs. destruct Hs as (Hx & Hs).
  cbn [append remove_from].
  replace (prefixb num_delim (String x (s ++ rest))) with false.
  - rewrite (IH Hs). reflexivity.
  - unfold num_delim. cbn [append prefixb].
    rewrite Ascii.eqb_sym. apply negb_true_iff in Hx. rewrite Hx. reflexivity.
Qed.

Lemma remove_from_delim (rest : string) :
  remove_from 0 num_delim (num_delim ++ rest) = remove_from 0 num_delim rest.
Proof. reflexivity. Qed.

Lemma remove_from_nil : remove_from 0 num_delim "" = "".
Proof. reflexivity. Qed.

Lemma remove_join (groups : list string) (rest : string) :
  Forall (without_char "<") groups ->
  without_char "<" rest ->
  py_remove num_delim (join num_delim groups ++ rest) = join "" groups ++ rest.
Proof.
  intros Hg Hr. unfold py_remove.
  assert (Hrest : remove_from 0 num_delim rest = rest).
  { assert (Hnil : forall x : string, x ++ "" = x).
    { intros x. induction x as [|c x IHx]; [reflexivity|].
      cbn. rewrite IHx. reflexivity. }
    rewrite <- (Hnil rest) at 1.
    rewrite (remove_from_clean rest "" Hr), remove_from_nil.
    apply Hnil. }
  induction Hg as [|g groups Hgc Hg IH]; [exact Hrest|].
  destruct groups as [|g2 groups].
  - cbn [join]. rewrite (remove_from_clean g rest Hgc), Hrest. reflexivity.
  - change (join num_delim (g :: g2 :: groups))
      with (g ++ num_delim ++ join num_delim (g2 :: groups)).
    change (join "" (g :: g2 :: groups))
      with (g ++ "" ++ join "" (g2 :: groups)).
    rewrite !append_assoc.
    rewrite (remove_from_clean g _ Hgc), remove_from_delim, IH.
    reflexivity.
Qed.

End StringFacts.

(** X16. The number of plays of a raw album.  [infoLine2] that is not a
    string ends the call with [AttributeError]; on a string the result is
    an integer, or [None] where [int] fails, and never an error.  On a
    line of the shape the module documents, groups of digits separated by
    ['<span class="num_delim"> </span>'], then a blank and a word, then
    the last ['<span'] of the line and the rest, the text given to [int]
    is the groups put together. *)
Theorem plays_of_stats_text (py_int : string -> option Z) :
  (forall stats_text,
      is_string stats_text = false ->
      plays_of py_int stats_text = Err AttributeError)
  /\ (forall s, exists plays,
         plays_of py_int (PStr s) = Ok plays
         /\ (plays = PNone \/ exists n, plays = PInt n))
  /\ (forall (groups : list string) (word tail : string),
         Forall (without_char "<") groups ->
         without_char "<" word ->
         without_char " " word ->
         substringb "<span" tail = false ->
         plays_of py_int
           (PStr (join num_delim groups ++ " " ++ word ++ "<span" ++ tail))
         = Ok (match py_int (join "" groups) with
               | Some n => PInt n
               | None => PNone
               end)).
Proof.
  split; [|split].
  - intros stats_text Hs. destruct stats_text; try reflexivity. discriminate.
  - intros s. cbn [plays_of]. eexists. split; [reflexivity|].
    destruct (py_int _); eauto.
  - intros groups word tail Hg Hw Hsp Htail. cbn [plays_of].
    assert (H1 : rsplit_head "<span"
                   (join num_delim groups ++ " " ++ word ++ "<span" ++ tail)%string
                 = (join num_delim groups ++ " " ++ word)%string).
    { unfold rsplit_head.
      replace (join num_delim groups ++ " " ++ word ++ "<span" ++ tail)%string
        with ((join num_delim groups ++ " " ++ word) ++ "<span" ++ tail)%string
        by (rewrite !append_assoc; reflexivity).
      rewrite (before_last_at "<span" _ tail "<" "span" eq_refl);
        [reflexivity|].
      cbn [append substringb prefixb Ascii.eqb Bool.eqb andb orb].
      exact Htail. }
    rewrite H1.
    rewrite (remove_join groups (" " ++ word) Hg).
    + assert (H2 : rsplit_head " " (join "" groups ++ " " ++ word)
                   = join "" groups).
      { unfold rsplit_head.
        rewrite (before_last_at " " (join "" groups) word " " "" eq_refl);
          [reflexivity|].
        cbn [append]. apply without_char_substring. exact Hsp. }
      rewrite H2. reflexivity.
    + apply (without_char_app "<" " " word); [reflexivity|exact Hw].
Qed.

Lemma plays_of_stats_text_witness :
  let py_int := fun s => if String.eqb s "1448929" then Some 1448929%Z else None in
  @plays_of py_int
    (PStr (join num_delim ["1"; "448"; "929"] ++ " plays" ++ "<span"
           ++ " class='dvd'></span>9 tracks"))
  = Ok (PInt 1448929).
Proof.
  intros py_int.
  destruct (plays_of_stats_text py_int) as (_ & _ & Hshape).
  apply (Hshape ["1"; "448"; "929"] "plays" " class='dvd'></span>9 tracks");
    try reflexivity.
  repeat constructor.
Defined.

(** ** [search_albums_iter] *)

Section SplitFacts.
Local Open Scope string_scope.

Lemma drop_prefix_prefixb (p s : string) :
  prefixb p s = false -> drop_prefix p s = None.
Proof.
  revert s. induction p as [|a p IH]; intros s Hp; [discriminate|].
  destruct s as [|b s]; [reflexivity|].
  cbn [prefixb] in Hp. cbn [drop_prefix].
  destruct (Ascii.eqb a b); [apply IH; exact Hp|reflexivity].
Qed.

Lemma split_once_none (sep s : string) :
  substringb sep s = false -> split_once sep s = None.
Proof.
  induction s as [|c s IH]; intros Hs.
  - cbn [substringb] in Hs. apply orb_false_iff in Hs. destruct Hs as (Hp & _).
    cbn [split_once]. rewrite (drop_prefix_prefixb _ _ Hp). reflexivity.
  - cbn [substringb] in Hs. apply orb_false_iff in Hs. destruct Hs as (Hp & Hs).
    cbn [split_once]. rewrite (drop_prefix_prefixb _ _ Hp), (IH Hs).
    reflexivity.
Qed.

Lemma split_once_some (sep s before rest : string) :
  split_once sep s = Some (before, rest) -> s = before ++ sep ++ rest.
Proof.
  revert before. induction s as [|c s IH]; intros before Hs.
  - cbn [split_once] in Hs.
    destruct (drop_prefix sep "") as [r|] eqn:Ed; [|discriminate].
    inversion Hs; subst. apply (drop_prefix_inv _ _ _ Ed).
  - cbn [split_once] in Hs.
    destruct (drop_prefix sep (String c s)) as [r|] eqn:Ed.
    + inversion Hs; subst. apply (drop_prefix_inv _ _ _ Ed).
    + destruct (split_once sep s) as [[b r]|]; [|discriminate].
      inversion Hs; subst. cbn [append]. f_equal. apply IH. reflexivity.
Qed.

End SplitFacts.

(** X17. [search_albums_iter] makes the search request and reads the
    markup [payload[1][0]] of the answer; the requests are written out
    below with their fields.  Without the text
    ['CatalogSearchGlobalAlbumsHeader'] in it, the run ends with
    [IndexError] after this one request.  With it, and no
    ['/audio?section=recoms_block&type='] after its first occurrence, the
    albums are those of the playlists of the same answer and no other
    request is made.  With that link after it, the catalog section named
    by the text between the link and the next double quote is asked for,
    and the albums are those of the playlists of the second answer. *)
Theorem search_albums_iter_flow `{PyRuntime} (py_int : string -> option Z)
  (self : VkAudio) (q : pyval) (w : world) (json_data : pyval)
  (rest : list response) (payload p1 : pyval) (html : string) :
  pending w = RespJson json_data :: rest ->
  getkey json_data "payload" = Ok payload ->
  getidx payload 1 = Ok p1 ->
  getidx p1 0 = Ok (PStr html) ->
  let header := "CatalogSearchGlobalAlbumsHeader" in
  let link := "/audio?section=recoms_block&type=" in
  let post := fun data =>
    {| req_method := POST;
       req_url := "https://vk.com/al_audio.php";
       req_data := data;
       req_params := [];
       req_allow_redirects := true |} in
  let request :=
    post [("al", PInt 1); ("act", PStr "section"); ("claim", PInt 0);
          ("is_layer", PInt 0); ("owner_id", user_id self);
          ("section", PStr "search"); ("q", q)] in
  let w1 := {| pending := rest; auth_plan := auth_plan w |} in
  let albums_of := fun json_response =>
    match rbind (playlists_of json_response) (scrap_albums_from_al py_int) with
    | Ok albums => Done albums
    | Err e => Halt (Raised e)
    end in
  (substringb header html = false ->
   search_albums_iter py_int self q w
   = (Halt (Raised IndexError), [EvRequest request], w1))
  /\ (forall before after,
         split_once header html = Some (before, after) ->
         html = (before ++ header ++ after)%string
         /\ (substringb link after = false ->
             search_albums_iter py_int self q w
             = (albums_of json_data, [EvRequest request], w1))
         /\ (forall skipped after_link json_data' rest',
                split_once link after = Some (skipped, after_link) ->
                rest = RespJson json_data' :: rest' ->
                let block_id :=
                  match split_once dquote after_link with
                  | Some (id, _) => id
                  | None => after_link
                  end in
                search_albums_iter py_int self q w
                = (albums_of json_data',
                   [EvRequest request;
                    EvRequest
                      (post [("al", PInt 1);
                             ("act", PStr "load_catalog_section");
                             ("section_id", PStr block_id)])],
                   {| pending := rest'; auth_plan := auth_plan w |}))).
Proof.
  intros Hp Hpay H1 Hhtml header link post request w1 albums_of.
  change post with al_audio_request in *. clear post.
  change request with (search_user_request (user_id self) q) in *.
  clear request. set (request := search_user_request (user_id self) q).
  assert (Hend : forall json_response (w2 : world),
             bind (lift (playlists_of json_response))
               (fun playlists => lift (scrap_albums_from_al py_int playlists))
               w2
             = (albums_of json_response, [], w2)).
  { intros json_response w2. unfold albums_of, rbind.
    destruct (playlists_of json_response) as [playlists|e].
    - rewrite (lift_ok _ playlists) by reflexivity.
      destruct (scrap_albums_from_al py_int playlists); reflexivity.
    - rewrite (lift_err _ e) by reflexivity. reflexivity. }
  split.
  - intros Hno. unfold search_albums_iter.
    rewrite (bind_http _ _ _ _ _ Hp). cbn [json_of].
    rewrite (lift_ok _ json_data) by reflexivity.
    rewrite (lift_ok _ _ _ _ Hpay), (lift_ok _ _ _ _ H1),
      (lift_ok _ _ _ _ Hhtml).
    cbn [py_split_after]. fold header. rewrite (split_once_none _ _ Hno).
    rewrite (lift_err _ IndexError) by reflexivity. reflexivity.
  - intros before after Hsplit.
    split; [apply (split_once_some _ _ _ _ Hsplit)|].
    split.
    + intros Hno. unfold search_albums_iter.
      rewrite (bind_http _ _ _ _ _ Hp). cbn [json_of].
      rewrite (lift_ok _ json_data) by reflexivity.
      rewrite (lift_ok _ _ _ _ Hpay), (lift_ok _ _ _ _ H1),
        (lift_ok _ _ _ _ Hhtml).
      cbn [py_split_after]. fold header. rewrite Hsplit.
      rewrite (lift_ok _ (PStr after)) by reflexivity.
      cbn [py_split_after]. fold link. rewrite (split_once_none _ _ Hno).
      fold w1. rewrite Hend. reflexivity.
    + intros skipped after_link json_data' rest' Hlink -> block_id.
      unfold search_albums_iter.
      rewrite (bind_http _ _ _ _ _ Hp). cbn [json_of].
      rewrite (lift_ok _ json_data) by reflexivity.
      rewrite (lift_ok _ _ _ _ Hpay), (lift_ok _ _ _ _ H1),
        (lift_ok _ _ _ _ Hhtml).
      cbn [py_split_after]. fold header. rewrite Hsplit.
      rewrite (lift_ok _ (PStr after)) by reflexivity.
      cbn [py_split_after]. fold link. rewrite Hlink.
      assert (Hblock : py_split_before dquote (PStr after_link)
                       = Ok (PStr block_id)).
      { cbn [py_split_before]. unfold block_id.
        destruct (split_once dquote after_link) as [[id r]|]; reflexivity. }
      unfold bind at 1.
      rewrite (lift_ok _ _ _ _ Hblock).
      rewrite (bind_http _ _
                 {| pending := RespJson json_data' :: rest';
                    auth_plan := auth_plan w |}
                 (RespJson json_data') rest' eq_refl).
      cbn [json_of]. rewrite (lift_ok _ json_data') by reflexivity.
      cbn [auth_plan].
      unfold albums_of, rbind.
      destruct (playlists_of json_data') as [playlists|e].
      * cbn [lift ret].
        destruct (scrap_albums_from_al py_int playlists); reflexivity.
      * reflexivity.
Qed.

Lemma search_albums_iter_flow_witness :
  let html :=
    ("<a>CatalogSearchGlobalAlbumsHeader<b href=" ++ dquote
     ++ "/audio?section=recoms_block&type=BLOCK" ++ dquote ++ ">")%string in
  let first := PDict [("payload", PList [PInt 0; PList [PStr html]])] in
  let second :=
    PDict [("payload",
      PList [PInt 0; PList [PStr ""; PDict [("playlists", PList [])]]])] in
  let w := {| pending := [RespJson first; RespJson second]; auth_plan := [] |} in
  let post := fun data =>
    EvRequest
      {| req_method := POST;
         req_url := "https://vk.com/al_audio.php";
         req_data := data;
         req_params := [];
         req_allow_redirects := true |} in
  @search_albums_iter plain_runtime (fun _ => None) example_self (PStr "q") w
  = (Done [],
     [post [("al", PInt 1); ("act", PStr "section"); ("claim", PInt 0);
            ("is_layer", PInt 0); ("owner_id", PInt 1);
            ("section", PStr "search"); ("q", PStr "q")];
      post [("al", PInt 1); ("act", PStr "load_catalog_section");
            ("section_id", PStr "BLOCK")]],
     {| pending := []; auth_plan := [] |}).
Proof.
  intros html first second w post.
  pose proof (@search_albums_iter_flow plain_runtime (fun _ => None)
                example_self (PStr "q") w first [RespJson second]
                (PList [PInt 0; PList [PStr html]]) (PList [PStr html]) html
                eq_refl eq_refl eq_refl eq_refl) as Hall.
  cbv zeta in Hall. destruct Hall as (_ & Hfound).
  destruct (Hfound "<a>"%string
              ("<b href=" ++ dquote
               ++ "/audio?section=recoms_block&type=BLOCK" ++ dquote ++ ">")%string
              eq_refl) as (_ & _ & Hlink).
  apply (Hlink ("<b href=" ++ dquote)%string ("BLOCK" ++ dquote ++ ">")%string
           second []); reflexivity.
Defined.

(** ** [scrap_json] *)

Section JsonFacts.
Local Open Scope string_scope.

Lemma m_lazy_dots_here {R : Type} (s : string) (k : string -> option R) (r : R) :
  k s = Some r -> m_lazy_dots s k = Some r.
Proof. intros Hk. destruct s; cbn [m_lazy_dots]; rewrite Hk; reflexivity. Qed.

Lemma m_lazy_dots_skip {R : Type} (mid s : string) (k : string -> option R) :
  without_char "{" mid ->
  without_char "010" mid ->
  m_lazy_dots (mid ++ s) (fun s2 => m_lit "{" s2 k)
  = m_lazy_dots s (fun s2 => m_lit "{" s2 k).
Proof.
  unfold without_char. induction mid as [|c mid IH]; intros Hb Hn;
    [reflexivity|].
  cbn [string_all] in Hb, Hn.
  apply andb_true_iff in Hb. destruct Hb as (Hc & Hb).
  apply andb_true_iff in Hn. destruct Hn as (Hcn & Hn).
  cbn [append m_lazy_dots]. unfold m_lit at 1. cbn [drop_prefix].
  apply negb_true_iff in Hc, Hcn.
  rewrite Ascii.eqb_sym, Hc, Hcn. apply IH; assumption.
Qed.

Lemma m_lazy_dots_inv {R : Type} (s : string) :
  forall (k : string -> option R) (r : R),
    m_lazy_dots s k = Some r ->
    exists mid rest,
      s = mid ++ rest /\ without_char "010" mid /\ k rest = Some r.
Proof.
  induction s as [|c s IH]; intros k r Hm; cbn [m_lazy_dots] in Hm.
  - destruct (k "") as [r'|] eqn:Ek; [|discriminate].
    inversion Hm; subst. exists "", "". repeat split. exact Ek.
  - destruct (k (String c s)) as [r'|] eqn:Ek.
    + inversion Hm; subst. exists "", (String c s). repeat split. exact Ek.
    + destruct (Ascii.eqb c "010") eqn:Ec; [discriminate|].
      destruct (IH _ _ Hm) as (mid & rest & -> & Hmid & Hk).
      exists (String c mid), rest. split; [reflexivity|]. split; [|exact Hk].
      unfold without_char in *. cbn [string_all]. rewrite Ec, Hmid.
      reflexivity.
Qed.

(** the greedy star gives back what the rest of the pattern cannot take *)
Lemma m_star_longer_fail {R : Type} (cls : ascii -> bool) (x rest : string) :
  forall (k : string -> string -> option R),
    string_all cls x = true ->
    (rest = "" \/ exists c rest', rest = String c rest' /\ cls c = false) ->
    (forall x1 x2, x = x1 ++ x2 -> x1 <> "" -> k x1 (x2 ++ rest) = None) ->
    m_star cls (x ++ rest) k = k "" (x ++ rest).
Proof.
  induction x as [|c x IH]; intros k Hall Hrest Hfail.
  - cbn [append]. destruct Hrest as [->|(c & rest' & -> & Hc)]; cbn [m_star].
    + reflexivity.
    + rewrite Hc. reflexivity.
  - cbn [string_all] in Hall. apply andb_true_iff in Hall.
    destruct Hall as (Hc & Hall).
    cbn [append m_star]. rewrite Hc.
    rewrite (IH (fun m r => k (String c m) r) Hall Hrest).
    + rewrite (Hfail (String c "") x eq_refl) by discriminate. reflexivity.
    + intros x1 x2 -> Hne. apply (Hfail (String c x1) x2 eq_refl).
      discriminate.
Qed.

Lemma m_star_backtrack {R : Type} (cls : ascii -> bool) (m x rest : string) :
  forall (k : string -> string -> option R) (r : R),
    string_all cls m = true ->
    string_all cls x = true ->
    (rest = "" \/ exists c rest', rest = String c rest' /\ cls c = false) ->
    k m (x ++ rest) = Some r ->
    (forall x1 x2, x = x1 ++ x2 -> x1 <> "" -> k (m ++ x1) (x2 ++ rest) = None) ->
    m_star cls (m ++ x ++ rest) k = Some r.
Proof.
  induction m as [|a m IH]; intros k r Hm Hx Hrest Hk Hfail.
  - cbn [append]. rewrite (m_star_longer_fail cls x rest k Hx Hrest Hfail).
    exact Hk.
  - cbn [string_all] in Hm. apply andb_true_iff in Hm. destruct Hm as (Ha & Hm).
    cbn [append m_star]. rewrite Ha.
    rewrite (IH (fun y z => k (String a y) z) r Hm Hx Hrest Hk Hfail).
    reflexivity.
Qed.

Lemma search_audio_page_skip (s pre rest : string) :
  split_once "new AudioPage(" s = Some (pre, rest) ->
  search_audio_page s = search_audio_page ("new AudioPage(" ++ rest).
Proof.
  revert pre. induction s as [|c s IH]; intros pre Hs.
  - cbn in Hs. discriminate.
  - cbn [split_once] in Hs.
    destruct (drop_prefix "new AudioPage(" (String c s)) as [r|] eqn:Ed.
    + inversion Hs; subst. rewrite (drop_prefix_inv _ _ _ Ed). reflexivity.
    + destruct (split_once "new AudioPage(" s) as [[b r]|] eqn:Es;
        [|discriminate].
      inversion Hs; subst.
      cbn [search_audio_page]. unfold match_audio_page at 1, m_lit at 1.
      rewrite Ed. apply (IH b). reflexivity.
Qed.

Lemma search_audio_page_none (s : string) :
  substringb "new AudioPage(" s = false -> search_audio_page s = None.
Proof.
  induction s as [|c s IH]; intros Hs; [reflexivity|].
  cbn [substringb] in Hs. apply orb_false_iff in Hs. destruct Hs as (Hp & Hs).
  cbn [search_audio_page]. unfold match_audio_page at 1, m_lit at 1.
  rewrite (drop_prefix_prefixb _ _ Hp). apply IH. exact Hs.
Qed.

Lemma search_audio_page_inv (s group : string) :
  search_audio_page s = Some group ->
  exists pre mid body rest,
    s = pre ++ "new AudioPage(" ++ mid ++ "{" ++ body ++ "}" ++ rest
    /\ group = "{" ++ body ++ "}"
    /\ without_char "010" mid
    /\ without_char "010" body.
Proof.
  assert (Hmatch : forall s,
             match_audio_page s = Some group ->
             exists mid body rest,
               s = "new AudioPage(" ++ mid ++ "{" ++ body ++ "}" ++ rest
               /\ group = "{" ++ body ++ "}"
               /\ without_char "010" mid
               /\ without_char "010" body).
  { intros s0 Hm. unfold match_audio_page in Hm.
    apply m_lit_inv in Hm. destruct Hm as (s1 & -> & Hm).
    apply m_lazy_dots_inv in Hm. destruct Hm as (mid & s2 & -> & Hmid & Hm).
    apply m_lit_inv in Hm. destruct Hm as (s3 & -> & Hm).
    apply m_star_inv in Hm. destruct Hm as (body & s4 & -> & Hbody & Hm).
    apply m_lit_inv in Hm. destruct Hm as (rest & -> & Hm).
    inversion Hm; subst group.
    exists mid, body, rest. repeat split; assumption. }
  induction s as [|c s IH]; intros Hs; cbn [search_audio_page] in Hs.
  - destruct (match_audio_page "") as [g|] eqn:Em; [|discriminate].
    inversion Hs; subst g.
    destruct (Hmatch _ Em) as (mid & body & rest & Heq & Hrest).
    exists "", mid, body, rest. split; [exact Heq|exact Hrest].
  - destruct (match_audio_page (String c s)) as [g|] eqn:Em.
    + inversion Hs; subst g.
      destruct (Hmatch _ Em) as (mid & body & rest & Heq & Hrest).
      exists "", mid, body, rest. split; [exact Heq|exact Hrest].
    + destruct (IH Hs) as (pre & mid & body & rest & -> & Hrest).
      exists (String c pre), mid, body, rest. split; [reflexivity|exact Hrest].
Qed.

Lemma match_audio_page_line (mid body t1 t2 : string) :
  without_char "{" mid ->
  without_char "010" mid ->
  without_char "010" body ->
  without_char "}" t1 ->
  without_char "010" t1 ->
  (t2 = "" \/ exists r, t2 = String "010" r) ->
  match_audio_page
    ("new AudioPage(" ++ mid ++ "{" ++ body ++ "}" ++ t1 ++ t2)
  = Some ("{" ++ body ++ "}").
Proof.
  intros Hmb Hmn Hbody Ht1 Ht1n Ht2.
  unfold match_audio_page. unfold m_lit at 1. rewrite drop_prefix_app.
  rewrite (m_lazy_dots_skip mid _ _ Hmb Hmn).
  apply m_lazy_dots_here.
  unfold m_lit at 1.
  change ("{" ++ body ++ "}" ++ t1 ++ t2)
    with (String "{" (body ++ "}" ++ t1 ++ t2)).
  cbn [drop_prefix]. rewrite Ascii.eqb_refl.
  change (body ++ "}" ++ t1 ++ t2) with (body ++ ("}" ++ t1) ++ t2).
  apply m_star_backtrack.
  - exact Hbody.
  - cbn [append string_all]. exact Ht1n.
  - destruct Ht2 as [->|(r & ->)]; [left; reflexivity|].
    right. exists "010"%char, r. split; reflexivity.
  - reflexivity.
  - intros x1 x2 Hx Hne.
    destruct x1 as [|a x1]; [congruence|].
    cbn [append] in Hx. inversion Hx; subst a t1.
    unfold m_lit. destruct x2 as [|b x2].
    + cbn [append]. destruct Ht2 as [->|(r & ->)]; reflexivity.
    + cbn [append drop_prefix].
      replace (Ascii.eqb "}" b) with false; [reflexivity|].
      clear -Ht1. unfold without_char in Ht1.
      induction x1 as [|a x1 IH].
      * cbn in Ht1. apply andb_true_iff in Ht1. destruct Ht1 as (Hb & _).
        apply negb_true_iff in Hb. rewrite Ascii.eqb_sym. symmetry. exact Hb.
      * cbn [append string_all] in Ht1. apply andb_true_iff in Ht1.
        destruct Ht1 as (_ & Ht1). apply IH. exact Ht1.
Qed.

End JsonFacts.

(** X18. [scrap_json] takes its text from the first place where
    ['new AudioPage('] is followed, on the same line, by an opening brace
    and later a closing one: it returns the text from the first brace
    after the call to the last closing brace of that line.  What it
    returns always is a text in braces without a newline, found after
    ['new AudioPage('] on one line of the page.  On a page without
    ['new AudioPage('] it raises [AttributeError], [re.search] having
    given [None]. *)
Theorem scrap_json_group :
  (forall s,
      substringb "new AudioPage(" s = false ->
      scrap_json (PStr s) = Err AttributeError)
  /\ (forall s group,
         scrap_json (PStr s) = Ok group ->
         exists pre mid body rest,
           s = (pre ++ "new AudioPage(" ++ mid ++ "{" ++ body ++ "}"
                ++ rest)%string
           /\ group = PStr ("{" ++ body ++ "}")
           /\ without_char "010" mid
           /\ without_char "010" body)
  /\ (forall s pre mid body t1 t2,
         split_once "new AudioPage(" s
         = Some (pre, (mid ++ "{" ++ body ++ "}" ++ t1 ++ t2)%string) ->
         without_char "{" mid ->
         without_char "010" mid ->
         without_char "010" body ->
         without_char "}" t1 ->
         without_char "010" t1 ->
         (t2 = ""%string \/ exists r, t2 = String "010" r) ->
         scrap_json (PStr s) = Ok (PStr ("{" ++ body ++ "}"))).
Proof.
  split; [|split].
  - intros s Hs. cbn [scrap_json]. rewrite (search_audio_page_none _ Hs).
    reflexivity.
  - intros s group Hs. cbn [scrap_json] in Hs.
    destruct (search_audio_page s) as [g|] eqn:Eg; [|discriminate].
    inversion Hs; subst group.
    destruct (search_audio_page_inv _ _ Eg)
      as (pre & mid & body & rest & -> & -> & Hmid & Hbody).
    exists pre, mid, body, rest. repeat split; assumption.
  - intros s pre mid body t1 t2 Hs Hmb Hmn Hbody Ht1 Ht1n Ht2.
    cbn [scrap_json]. rewrite (search_audio_page_skip _ _ _ Hs).
    pose proof (match_audio_page_line mid body t1 t2 Hmb Hmn Hbody Ht1 Ht1n Ht2)
      as Hm.
    assert (Hsearch : forall x g,
               match_audio_page x = Some g -> search_audio_page x = Some g).
    { intros x g Hx. destruct x; cbn [search_audio_page]; rewrite Hx;
        reflexivity. }
    rewrite (Hsearch _ _ Hm). reflexivity.
Qed.

Lemma scrap_json_group_witness :
  scrap_json
    (PStr ("<script>x = new AudioPage(cur, {a: {b: 1}}, opt); y = 2;"
           ++ String "010" "}</script>"))
  = Ok (PStr "{a: {b: 1}}").
Proof.
  destruct scrap_json_group as (_ & _ & Hline).
  apply (Hline _ "<script>x = "%string "cur, "%string "a: {b: 1}"%string
           ", opt); y = 2;"%string (String "010" "}</script>"));
    try reflexivity.
  right. eexists. reflexivity.
Defined.

(** ** The fields of a track *)

(** X19. What [scrap_tracks] puts into a track.  A track made from an
    audio has the audio's fields 0, 1 and 5 as [id], [owner_id] and
    [duration], the text of field 4 as [artist] and the text of field 3,
    a string, stripped, as [title]; its [track_covers] is the empty list
    when field 14 is falsy and the pieces of field 14 cut at [','] when it
    is a non-empty string.  So an audio given as a list has at least 15
    fields, or no track is made from it. *)
Theorem track_of_audio_fields `{PyRuntime} (uid : pyval) (convert : bool)
  (audio : pyval) (x : track) :
  track_of_audio uid convert audio = Ok x ->
  getidx audio 0 = Ok (t_id x)
  /\ getidx audio 1 = Ok (t_owner_id x)
  /\ getidx audio 5 = Ok (t_duration x)
  /\ (exists a4, getidx audio 4 = Ok a4 /\ soup_text a4 = Ok (t_artist x))
  /\ (exists s3,
         getidx audio 3 = Ok (PStr s3)
         /\ soup_text (PStr (str_strip s3)) = Ok (t_title x))
  /\ (exists a14,
         getidx audio 14 = Ok a14
         /\ (truthy a14 = false -> t_track_covers x = PList [])
         /\ (forall s, a14 = PStr s -> s <> ""%string ->
                       t_track_covers x = PList (map PStr (split_on "," s))))
  /\ (forall l, audio = PList l -> (15 <= List.length l)%nat).
Proof.
  unfold track_of_audio, rbind.
  destruct (getidx audio 4) as [a4|] eqn:E4; [|discriminate].
  destruct (soup_text a4) as [artist|] eqn:Ea; [|discriminate].
  destruct (getidx audio 3) as [a3|] eqn:E3; [|discriminate].
  destruct (py_strip a3) as [stripped|] eqn:Es; [|discriminate].
  destruct (soup_text stripped) as [title|] eqn:Et; [|discriminate].
  destruct (getidx audio 5) as [duration|] eqn:E5; [|discriminate].
  destruct (getidx audio 2) as [raw|] eqn:E2; [|discriminate].
  destruct (decoded_link uid raw) as [link|] eqn:El; [|discriminate].
  destruct (converted_link convert link) as [url|] eqn:Ec; [|discriminate].
  destruct (getidx audio 0) as [a0|] eqn:E0; [|discriminate].
  destruct (getidx audio 1) as [a1|] eqn:E1; [|discriminate].
  destruct (getidx audio 14) as [a14|] eqn:E14; [|discriminate].
  destruct (if truthy a14 then py_split "," a14 else Ok (PList []))
    as [covers|] eqn:Ecov; [|discriminate].
  intros Hx. inversion Hx; subst x. cbn.
  repeat split; try reflexivity.
  - exists a4. auto.
  - destruct a3 as [| | |s3| |]; try discriminate.
    exists s3. split; [reflexivity|]. cbn in Es. inversion Es; subst stripped.
    exact Et.
  - exists a14. split; [reflexivity|]. split.
    + intros Hf. rewrite Hf in Ecov. inversion Ecov. reflexivity.
    + intros s -> Hs. cbn [truthy] in Ecov.
      destruct (String.eqb_spec s ""); [congruence|].
      cbn in Ecov. inversion Ecov. reflexivity.
  - intros l ->. cbn [getidx] in E14.
    destruct (nth_error l 14) eqn:En; [|discriminate].
    assert (Hlt : (14 < List.length l)%nat)
      by (apply nth_error_Some; congruence).
    lia.
Qed.

Lemma track_of_audio_fields_witness :
  let audio :=
    PList ([PInt 5; PInt 7; PStr "https://h/e.mp3"; PStr "title";
            PStr "artist"; PInt 10] ++ repeat PNone 8 ++ [PStr "c1,c2"]) in
  exists x,
    @track_of_audio plain_runtime (PInt 1) true audio = Ok x
    /\ getidx audio 0 = Ok (t_id x)
    /\ t_track_covers x = PList [PStr "c1"; PStr "c2"].
Proof.
  intros audio.
  destruct (@track_of_audio plain_runtime (PInt 1) true audio) as [x|] eqn:Ex;
    [|discriminate].
  exists x. split; [reflexivity|].
  destruct (@track_of_audio_fields plain_runtime (PInt 1) true audio x Ex)
    as (H0 & _ & _ & _ & _ & (a14 & H14 & _ & Hcov) & _).
  split; [exact H0|].
  inversion H14; subst a14.
  apply (Hcov "c1,c2"); [reflexivity|discriminate].
Defined.

(** ** The [audio_ids] of a request, read back *)

Section JoinFacts.
Local Open Scope string_scope.

Lemma split_on_clean (sep : ascii) (p : string) :
  without_char sep p -> split_on sep p = [p].
Proof.
  unfold without_char. induction p as [|c p IH]; intros Hp; [reflexivity|].
  cbn [string_all] in Hp. apply andb_true_iff in Hp. destruct Hp as (Hc & Hp).
  cbn [split_on]. apply negb_true_iff in Hc. rewrite Hc, (IH Hp). reflexivity.
Qed.

Lemma split_on_app (sep : ascii) (p rest : string) :
  without_char sep p ->
  split_on sep (p ++ String sep rest) = p :: split_on sep rest.
Proof.
  unfold without_char. induction p as [|c p IH]; intros Hp.
  - cbn [append split_on]. rewrite Ascii.eqb_refl. reflexivity.
  - cbn [string_all] in Hp. apply andb_true_iff in Hp. destruct Hp as (Hc & Hp).
    cbn [append split_on]. apply negb_true_iff in Hc.
    rewrite Hc, (IH Hp). reflexivity.
Qed.

Lemma split_on_join (sep : ascii) (parts : list string) :
  parts <> [] ->
  Forall (without_char sep) parts ->
  split_on sep (join (String sep "") parts) = parts.
Proof.
  intros Hne Hall. induction Hall as [|p parts Hp Hall IH]; [congruence|].
  destruct parts as [|q parts].
  - cbn [join]. apply split_on_clean. exact Hp.
  - change (join (String sep "") (p :: q :: parts))
      with (p ++ String sep (join (String sep "") (q :: parts))).
    rewrite (split_on_app sep p _ Hp). f_equal. apply IH. discriminate.
Qed.

Lemma without_char_join (c : ascii) (sep : string) (parts : list string) :
  without_char c sep ->
  Forall (without_char c) parts ->
  without_char c (join sep parts).
Proof.
  intros Hsep Hall. induction Hall as [|p parts Hp Hall IH]; [reflexivity|].
  destruct parts as [|q parts]; [exact Hp|].
  change (join sep (p :: q :: parts)) with (p ++ sep ++ join sep (q :: parts)).
  apply without_char_app; [exact Hp|].
  apply without_char_app; [exact Hsep|exact IH].
Qed.

End JoinFacts.

(** X20. The [audio_ids] field of a [reload_audios] request holds its
    group of ids without loss: when the group is not empty, no id is empty
    and no component of an id contains [','] or ['_'], cutting the field at
    [','] and each piece at ['_'] gives the ids back, in order. *)
Theorem audio_ids_round_trip (sids : list (list string)) :
  sids <> [] ->
  Forall (fun id => id <> []
                    /\ Forall (fun c => without_char "," c
                                        /\ without_char "_" c) id) sids ->
  exists audio_ids,
    audio_ids_of (map (map PStr) sids) = Ok audio_ids
    /\ map (split_on "_") (split_on "," audio_ids) = sids
    /\ requested_audio_ids [EvRequest (reload_audios_request audio_ids)]
       = map (join "_") sids.
Proof.
  intros Hne Hall. rewrite audio_ids_of_strings. eexists.
  split; [reflexivity|].
  assert (Hparts : Forall (without_char ",") (map (join "_") sids)).
  { apply Forall_map. apply Forall_forall. intros id Hin.
    rewrite Forall_forall in Hall. destruct (Hall id Hin) as (_ & Hid).
    apply without_char_join; [reflexivity|].
    apply Forall_forall. intros c Hc. rewrite Forall_forall in Hid.
    apply (Hid c Hc). }
  assert (Hsplit : split_on "," (join "," (map (join "_") sids))
                   = map (join "_") sids).
  { apply split_on_join; [|exact Hparts].
    destruct sids; [congruence|discriminate]. }
  split.
  - rewrite Hsplit, map_map.
    clear Hne Hparts Hsplit. induction Hall as [|id sids (Hid & Hc) _ IH];
      [reflexivity|].
    cbn [map]. rewrite IH. f_equal.
    apply split_on_join; [exact Hid|].
    apply Forall_forall. intros c Hin. rewrite Forall_forall in Hc.
    apply (Hc c Hin).
  - unfold requested_audio_ids. cbn. rewrite app_nil_r. exact Hsplit.
Qed.

Lemma audio_ids_round_trip_witness :
  exists audio_ids,
    audio_ids_of (map (map PStr) [["7"; "1"; "ha"]; ["-7"; "2"; "hb"]])
    = Ok audio_ids
    /\ map (split_on "_") (split_on "," audio_ids)
       = [["7"; "1"; "ha"]; ["-7"; "2"; "hb"]]
    /\ requested_audio_ids [EvRequest (reload_audios_request audio_ids)]
       = map (join "_") [["7"; "1"; "ha"]; ["-7"; "2"; "hb"]].
Proof.
  apply (audio_ids_round_trip [["7"; "1"; "ha"]; ["-7"; "2"; "hb"]]).
  - discriminate.
  - repeat constructor; discriminate.
Defined.

(** ** [get_updates_iter]: the tracks it asks for *)



(** ** [get_iter] and [get]: all the pages of a list *)

Section AllPages.
Context `{PyRuntime}.
Variable self : VkAudio.
Variables owner_id album_id access_hash : pyval.
Variable offset_diff : Z.

Lemma script_responses_length (pages : list page_script) :
  (List.length pages <= List.length (script_responses pages))%nat.
Proof.
  induction pages as [|p pages IH]; [reflexivity|].
  unfold script_responses in *. cbn [flat_map app List.length].
  rewrite length_app. lia.
Qed.

Lemma script_responses_app (ps qs : list page_script) :
  script_responses (ps ++ qs) = script_responses ps ++ script_responses qs.
Proof. unfold script_responses. apply flat_map_app. Qed.

(** one turn of the loop on a page that is as [page_ok] says *)
Lemma get_iter_loop_page (more : bool) (p : page_script)
  (later : list response) (w : world) :
  page_ok self more p ->
  pending w = RespJson (ps_page p) :: ps_answers p ++ later ->
  exists t1,
    yields_of t1 = ps_tracks p
    /\ load_sections_of t1 = []
    /\ forall fuel offset,
         get_iter_loop self (S fuel) owner_id album_id access_hash
           offset_diff offset w
         = let w1 := {| pending := later; auth_plan := auth_plan w |} in
           let page :=
             EvRequest
               (load_section_request owner_id album_id access_hash offset) in
           if more then
             let '(o, t, w') :=
               get_iter_loop self fuel owner_id album_id access_hash
                 offset_diff (offset + offset_diff) w1 in
             (o, page :: t1 ++ t, w')
           else (Done tt, page :: t1, w1).
Proof.
  intros (data & data0 & audio_data & id & ids & audios & hasMore
          & Hdata & Hdata0 & Htruthy & Hlist & Hids & Hstr & Hlen & Ha & Ht
          & Hmore & Hm) Hp.
  destruct (scrap_tracks_groups_ok (user_id self) (convert_m3u8_links self)
              (ids_groups (id :: ids))
              {| pending := ps_answers p ++ later; auth_plan := auth_plan w |}
              (ps_answers p) later audios (ps_tracks p))
    as (t1 & Hrun & Hy & Hreq); try assumption.
  { apply Forall_forall. intros g Hg. apply audio_ids_of_total.
    pose proof (ids_groups_Forall _ (id :: ids) Hstr) as Hall.
    rewrite Forall_forall in Hall. apply Hall, Hg. }
  { reflexivity. }
  cbn [auth_plan] in Hrun.
  exists t1. split; [exact Hy|]. split.
  { apply load_sections_of_tracks.
    destruct (scrap_tracks_groups_run _ _ _ _ _ _ _ Hrun)
      as (_ & _ & _ & Hev & _).
    exact Hev. }
  intros fuel offset. cbn [get_iter_loop].
  rewrite (bind_http _ _ _ _ _ Hp). cbn [json_of].
  rewrite (lift_ok _ (ps_page p)) by reflexivity.
  rewrite (lift_ok _ _ _ _ Hdata), (lift_ok _ _ _ _ Hdata0).
  rewrite Htruthy. cbn [negb].
  rewrite (lift_ok _ _ _ _ Hlist), (lift_ok _ _ _ _ Hids).
  unfold bind at 1. unfold scrap_tracks. rewrite Hrun.
  rewrite (lift_ok _ _ _ _ Hmore). rewrite Hm.
  destruct more.
  - destruct (get_iter_loop self fuel owner_id album_id access_hash
                offset_diff (offset + offset_diff) _) as [[o t] w'].
    reflexivity.
  - cbn [ret]. rewrite app_nil_r. reflexivity.
Qed.

(** the loop over pages that all but the last one say [hasMore] *)
Lemma get_iter_loop_pages (last : page_script) (rest : list response) :
  forall (firsts : list page_script) (fuel : nat) (offset : Z) (w : world),
    Forall (page_ok self true) firsts ->
    page_ok self false last ->
    pending w = script_responses (firsts ++ [last]) ++ rest ->
    (List.length firsts < fuel)%nat ->
    exists t,
      get_iter_loop self fuel owner_id album_id access_hash offset_diff
        offset w
      = (Done tt, t, {| pending := rest; auth_plan := auth_plan w |})
      /\ yields_of t = flat_map ps_tracks (firsts ++ [last])
      /\ load_sections_of t
         = map (fun k =>
                  load_section_request owner_id album_id access_hash
                    (offset + offset_diff * Z.of_nat k))
               (seq 0 (S (List.length firsts))).
Proof.
  induction firsts as [|p firsts IH]; intros fuel offset w Hall Hlast Hp Hfuel.
  - destruct fuel as [|fuel]; [cbn in Hfuel; lia|].
    cbn [app] in Hp. unfold script_responses in Hp.
    cbn [flat_map app] in Hp. rewrite app_nil_r in Hp.
    destruct (get_iter_loop_page false last rest w Hlast Hp)
      as (t1 & Hy & Hl & Hturn).
    rewrite (Hturn fuel offset). cbn zeta.
    eexists. split; [reflexivity|]. split.
    + cbn [yields_of flat_map app]. rewrite app_nil_r. exact Hy.
    + change (?e :: t1) with ([e] ++ t1) at 1.
      rewrite load_sections_of_app, Hl, load_sections_of_page.
      cbn [List.length seq map app]. do 2 f_equal. lia.
  - destruct fuel as [|fuel]; [cbn in Hfuel; lia|].
    inversion Hall as [|p' firsts' Hpage Hall']; subst.
    cbn [app] in Hp. unfold script_responses in Hp.
    cbn [flat_map app] in Hp.
    fold (script_responses (firsts ++ [last])) in Hp.
    rewrite <- app_assoc in Hp.
    destruct (get_iter_loop_page true p _ w Hpage Hp)
      as (t1 & Hy & Hl & Hturn).
    rewrite (Hturn fuel offset). cbn zeta.
    destruct (IH fuel (offset + offset_diff)%Z
                {| pending := script_responses (firsts ++ [last]) ++ rest;
                   auth_plan := auth_plan w |} Hall' Hlast eq_refl
                ltac:(cbn in Hfuel; lia)) as (t & Hrun & Hyt & Hlt).
    rewrite Hrun. cbn [auth_plan].
    eexists. split; [reflexivity|]. split.
    + cbn [yields_of flat_map app].
      change (flat_map _ (t1 ++ t)) with (yields_of (t1 ++ t)).
      rewrite yields_of_app, Hy, Hyt. reflexivity.
    + change (?e :: t1 ++ t) with ([e] ++ t1 ++ t) at 1.
      rewrite !load_sections_of_app, Hl, Hlt, load_sections_of_page.
      cbn [app List.length]. rewrite (map_seq_succ _ (S (List.length firsts))).
      f_equal; [f_equal; lia|].
      apply map_ext. intros k. f_equal. lia.
Qed.

End AllPages.

(** X22. A whole list, page by page.  When the server answers [get_iter]
    with pages that all hold ids, every page but the last saying [hasMore],
    and answers every group of ids of every page, [get_iter] ends normally
    after the last page: its [load_section] requests, written out below,
    have the [offset] fields [0], [step], [2 * step], ..., one for each
    page and none after the last one; it has taken exactly the answers of
    these pages from the server, and has yielded the tracks of the first
    page, then those of the second, and so on.  [get] returns this list of
    tracks. *)
Theorem get_all_pages `{PyRuntime} (self : VkAudio)
  (owner_id album_id access_hash : pyval)
  (firsts : list page_script) (last : page_script) (rest : list response)
  (w : world) :
  Forall (page_ok self true) firsts ->
  page_ok self false last ->
  pending w = script_responses (firsts ++ [last]) ++ rest ->
  let owner := if is_none owner_id then user_id self else owner_id in
  let step :=
    if is_none album_id then TRACKS_PER_USER_PAGE
    else TRACKS_PER_ALBUM_PAGE in
  let tracks := flat_map ps_tracks (firsts ++ [last]) in
  let w' := {| pending := rest; auth_plan := auth_plan w |} in
  let page := fun offset =>
    {| req_method := POST;
       req_url := "https://m.vk.com/audio";
       req_data :=
         [("act", PStr "load_section");
          ("owner_id", owner);
          ("playlist_id", if truthy album_id then album_id else PInt (-1));
          ("offset", PInt offset);
          ("type", PStr "playlist");
          ("access_hash", access_hash);
          ("is_loading_all", PInt 1)];
       req_params := [];
       req_allow_redirects := false |} in
  exists t,
    get_iter self owner_id album_id access_hash w = (Done tt, t, w')
    /\ get self owner_id album_id access_hash w = (Done tracks, t, w')
    /\ yields_of t = tracks
    /\ load_sections_of t
       = map (fun k => page (step * Z.of_nat k)%Z)
             (seq 0 (S (List.length firsts)))
    /\ map (fun r => assoc "offset" (req_data r)) (load_sections_of t)
       = map (fun k => Some (PInt (step * Z.of_nat k)))
             (seq 0 (S (List.length firsts))).
Proof.
  intros Hall Hlast Hp owner step tracks w' page.
  destruct (get_iter_loop_pages self owner album_id access_hash step last rest
              firsts (S (List.length (pending w))) 0 w Hall Hlast Hp)
    as (t & Hrun & Hy & Hl).
  { rewrite Hp, length_app.
    pose proof (script_responses_length (firsts ++ [last])) as Hlen.
    rewrite length_app in Hlen. cbn [List.length] in Hlen. lia. }
  assert (Hiter : get_iter self owner_id album_id access_hash w
                  = (Done tt, t, w')).
  { unfold get_iter. unfold owner, step in Hrun.
    destruct (is_none album_id); cbn [negb]; exact Hrun. }
  exists t. split; [exact Hiter|]. split; [|split; [|split]].
  - unfold get, py_list. rewrite Hiter, Hy. reflexivity.
  - exact Hy.
  - rewrite Hl. apply map_ext. intros k. unfold page, load_section_request.
    do 3 f_equal.
  - rewrite Hl, map_map. apply map_ext. intros k.
    cbn [load_section_request req_data assoc String.eqb Ascii.eqb Bool.eqb].
    do 2 f_equal.
Qed.

Lemma get_all_pages_witness :
  let page_of := fun (tracks : list pyval) (hasMore : bool) =>
    PDict [("data",
      PList [PDict [("list", PList tracks); ("hasMore", PBool hasMore)]])] in
  let track_of := fun (id : Z) (link title : string) =>
    {| t_id := PInt id; t_owner_id := PInt 7; t_track_covers := PList [];
       t_url := PStr link; t_artist := PStr "x"; t_title := PStr title;
       t_duration := PInt 10 |} in
  let p1 :=
    {| ps_page := page_of [mk_track 1 7 "ha"] true;
       ps_answers := [mk_reload_answer [mk_audio 1 7 "https://h/a.mp3" "a" "x" 10]];
       ps_tracks := [track_of 1%Z "https://h/a.mp3" "a"] |} in
  let p2 :=
    {| ps_page := page_of [mk_track 2 7 "hb"; mk_track 3 7 "hc"] false;
       ps_answers := [mk_reload_answer [mk_audio 2 7 "https://h/b.mp3" "b" "x" 10;
                                        mk_audio 3 7 "https://h/c.mp3" "c" "x" 10]];
       ps_tracks := [track_of 2%Z "https://h/b.mp3" "b";
                     track_of 3%Z "https://h/c.mp3" "c"] |} in
  let w := {| pending := script_responses [p1; p2] ++ [mk_reload_answer []];
              auth_plan := [] |} in
  exists t,
    @get plain_runtime example_self PNone PNone PNone w
    = (Done [track_of 1%Z "https://h/a.mp3" "a";
             track_of 2%Z "https://h/b.mp3" "b";
             track_of 3%Z "https://h/c.mp3" "c"], t,
       {| pending := [mk_reload_answer []]; auth_plan := [] |})
    /\ map (fun r => assoc "offset" (req_data r)) (load_sections_of t)
       = [Some (PInt 0); Some (PInt 2000)].
Proof.
  intros page_of track_of p1 p2 w.
  destruct (@get_all_pages plain_runtime example_self PNone PNone PNone
              [p1] p2 [mk_reload_answer []] w)
    as (t & _ & Hget & _ & _ & Hl).
  - constructor; [|constructor].
    exists (PList [PDict [("list", PList [mk_track 1 7 "ha"]);
                          ("hasMore", PBool true)]]),
      (PDict [("list", PList [mk_track 1 7 "ha"]); ("hasMore", PBool true)]),
      (PList [mk_track 1 7 "ha"]).
    exists [PStr "7"; PStr "1"; PStr "ha"], [],
      [[mk_audio 1 7 "https://h/a.mp3" "a" "x" 10]], (PBool true).
    repeat (split; [reflexivity|]).
    split; [|repeat (split; [reflexivity|]); reflexivity].
    constructor; [exists ["7"; "1"; "ha"]; reflexivity|constructor].
  - exists (PList [PDict [("list", PList [mk_track 2 7 "hb"; mk_track 3 7 "hc"]);
                          ("hasMore", PBool false)]]),
      (PDict [("list", PList [mk_track 2 7 "hb"; mk_track 3 7 "hc"]);
              ("hasMore", PBool false)]),
      (PList [mk_track 2 7 "hb"; mk_track 3 7 "hc"]).
    exists [PStr "7"; PStr "2"; PStr "hb"], [[PStr "7"; PStr "3"; PStr "hc"]],
      [[mk_audio 2 7 "https://h/b.mp3" "b" "x" 10;
        mk_audio 3 7 "https://h/c.mp3" "c" "x" 10]], (PBool false).
    repeat (split; [reflexivity|]).
    split; [|repeat (split; [reflexivity|]); reflexivity].
    constructor; [exists ["7"; "2"; "hb"]; reflexivity|].
    constructor; [exists ["7"; "3"; "hc"]; reflexivity|constructor].
  - reflexivity.
  - exists t. split; [exact Hget|exact Hl].
Defined.
